(** * better-ccflare, packages/proxy/src/proxy.ts

    A shallow embedding of the proxy entry point [handleProxy] and of the
    usage-worker life cycle ([getUsageWorker], [terminateUsageWorker]),
    with the properties the specification states about them.

    Layout
    - [JsString]: the few JavaScript string operations the file relies on
      ([Array.prototype.join], [String.prototype.includes], template
      literals over numbers, [String.prototype.replace] with a global
      one-character pattern).
    - [Shell]: the remediation command of [handleProxy] (step 10) and a
      reference tokenizer for the quoting rules of the POSIX shell.
    - [Proxy]: [handleProxy] over an explicit world, with a trace of the
      calls made to the collaborators imported from ./handlers.
    - [UsageWorker]: the two module-level variables [usageWorkerInstance]
      and [shutdownTimerId], the functions and callbacks that touch them,
      and a labelled transition system for the runtime that drives them. *)

From Stdlib Require Import String Ascii List Bool Arith Lia.
From Stdlib Require Import Decimal DecimalString.
Import ListNotations.
Local Open Scope list_scope.
Local Open Scope string_scope.

(* ===================================================================== *)
(** * JavaScript strings *)
(* ===================================================================== *)

Module JsString.

(** A JavaScript string is a sequence of code units.  The operations used
    by proxy.ts only ever inspect the ASCII code units ['] and the
    separators they insert, so a string is modelled by [string], one
    [ascii] per unit of its UTF-8 form (no unit of a multi-byte sequence
    is an ASCII character). *)

(** [xs.join(sep)] *)
Fixpoint join (sep : string) (xs : list string) : string :=
  match xs with
  | [] => EmptyString
  | [x] => x
  | x :: rest => x ++ sep ++ join sep rest
  end.

(** [`${n}`] for a non-negative integer [n] such as [accounts.length] *)
Definition of_nat (n : nat) : string :=
  NilZero.string_of_uint (Nat.to_uint n).

(** [s.startsWith(p)] *)
Fixpoint startsWith (p s : string) : bool :=
  match p, s with
  | EmptyString, _ => true
  | String _ _, EmptyString => false
  | String a p', String b s' => Ascii.eqb a b && startsWith p' s'
  end.

(** [s.includes(p)] *)
Fixpoint includes (p s : string) : bool :=
  startsWith p s ||
  match s with
  | EmptyString => false
  | String _ s' => includes p s'
  end.

(** [s.replace(/c/g, by)] for a one-character pattern [c] *)
Fixpoint replace_all (c : ascii) (by_ : string) (s : string) : string :=
  match s with
  | EmptyString => EmptyString
  | String a s' =>
      if Ascii.eqb a c then by_ ++ replace_all c by_ s'
      else String a (replace_all c by_ s')
  end.

(** Truthiness of a value of type [string | null | undefined]: the empty
    string is falsy, like [null] and [undefined]. *)
Definition truthy (o : option string) : bool :=
  match o with
  | Some (String _ _) => true
  | _ => false
  end.

(** Number of (possibly overlapping) occurrences of [p] in [s]. *)
Fixpoint occurrences (p s : string) : nat :=
  (if startsWith p s then 1 else 0) +
  match s with
  | EmptyString => 0
  | String _ s' => occurrences p s'
  end.

Fixpoint mem_char (c : ascii) (s : string) : bool :=
  match s with
  | EmptyString => false
  | String a s' => Ascii.eqb a c || mem_char c s'
  end.

End JsString.

(* ===================================================================== *)
(** * The remediation command and the shell that reads it *)
(* ===================================================================== *)

Module Shell.

Import JsString.

Definition quote : ascii := "'"%char.
Definition dquote : ascii := "034"%char.

(** [acc.name.replace(/'/g, "'\\''")]  (proxy.ts, line 263) *)
Definition escape_single_quotes (name : string) : string :=
  replace_all quote "'\''" name.

(** [`bun run cli --reauthenticate '${...}'`]  (proxy.ts, line 263) *)
Definition reauthCommand (name : string) : string :=
  "bun run cli --reauthenticate '" ++ escape_single_quotes name ++ "'".

(** ** Reference tokenizer

    The word-splitting and quoting rules of the POSIX shell command
    language (XCU 2.2 Quoting, 2.3 Token Recognition), restricted to
    simple commands: blanks separate words, a backslash outside quotes
    preserves the next character, single quotes preserve everything up to
    the next single quote, double quotes preserve everything but
    [$], [`] and [\].  Operators, expansions, globbing and comments are
    outside the fragment: the tokenizer answers [None] when it meets an
    unquoted character that would start one, and on an unterminated
    quote. *)

Inductive mode : Type :=
  | Plain       (* outside quotes *)
  | PlainEsc    (* outside quotes, after a backslash *)
  | SQuote      (* inside '...' *)
  | DQuote      (* inside "..." *)
  | DQuoteEsc.  (* inside "...", after a backslash *)

Record lexer : Type := mkLexer {
  done : list string;        (* finished words, first word first *)
  word : option string;      (* the word being read, if one has started *)
  st : mode
}.

Definition is_blank (c : ascii) : bool :=
  Ascii.eqb c " " || Ascii.eqb c "009" || Ascii.eqb c "010".

Definition is_special (c : ascii) : bool :=
  mem_char c "|&;<>()$`*?[]#~{}!".

Definition push (c : ascii) (w : option string) : option string :=
  match w with
  | None => Some (String c EmptyString)
  | Some s => Some (s ++ String c EmptyString)
  end.

Definition started (w : option string) : option string :=
  match w with
  | None => Some EmptyString
  | Some s => Some s
  end.

Definition flush (l : lexer) : list string :=
  match word l with
  | None => done l
  | Some s => (done l ++ [s])%list
  end.

Definition lex_char (l : lexer) (c : ascii) : option lexer :=
  match st l with
  | Plain =>
      if is_blank c then Some (mkLexer (flush l) None Plain)
      else if Ascii.eqb c "'" then Some (mkLexer (done l) (started (word l)) SQuote)
      else if Ascii.eqb c dquote then Some (mkLexer (done l) (started (word l)) DQuote)
      else if Ascii.eqb c "\" then Some (mkLexer (done l) (word l) PlainEsc)
      else if is_special c then None
      else Some (mkLexer (done l) (push c (word l)) Plain)
  | PlainEsc =>
      if Ascii.eqb c "010" then Some (mkLexer (done l) (word l) Plain)
      else Some (mkLexer (done l) (push c (word l)) Plain)
  | SQuote =>
      if Ascii.eqb c "'" then Some (mkLexer (done l) (word l) Plain)
      else Some (mkLexer (done l) (push c (word l)) SQuote)
  | DQuote =>
      if Ascii.eqb c dquote then Some (mkLexer (done l) (word l) Plain)
      else if Ascii.eqb c "\" then Some (mkLexer (done l) (word l) DQuoteEsc)
      else if Ascii.eqb c "$" || Ascii.eqb c "`" then None
      else Some (mkLexer (done l) (push c (word l)) DQuote)
  | DQuoteEsc =>
      if Ascii.eqb c "010" then Some (mkLexer (done l) (word l) DQuote)
      else if Ascii.eqb c "$" || Ascii.eqb c "`" || Ascii.eqb c dquote
              || Ascii.eqb c "\"
      then Some (mkLexer (done l) (push c (word l)) DQuote)
      else Some (mkLexer (done l) (push c (push "\" (word l))) DQuote)
  end.

Fixpoint lex (l : lexer) (s : string) : option (list string) :=
  match s with
  | EmptyString =>
      match st l with
      | Plain => Some (flush l)
      | _ => None
      end
  | String c s' =>
      match lex_char l c with
      | None => None
      | Some l' => lex l' s'
      end
  end.

(** The argument vector a POSIX shell builds from a command line. *)
Definition shell_words (s : string) : option (list string) :=
  lex (mkLexer [] None Plain) s.

End Shell.

(* ===================================================================== *)
(** * The main handler *)
(* ===================================================================== *)

Module Proxy.

Import JsString.

(** An [ArrayBuffer]. *)
Definition bytes : Type := list Byte.byte.

(** ** Body streams

    [new Response(buffer).body] allocates a [ReadableStream] over the
    buffer.  A stream is consumed by reading it, so streams live in a
    heap: the entry of a stream is what is still unread. *)

Definition StreamId : Type := nat.
Definition Streams : Type := list bytes.

Definition new_Response_body (b : bytes) (h : Streams) : StreamId * Streams :=
  (length h, (h ++ [b])%list).

Definition unread (id : StreamId) (h : Streams) : option bytes :=
  nth_error h id.

Fixpoint set_nth (id : nat) (b : bytes) (h : Streams) : Streams :=
  match h, id with
  | [], _ => []
  | _ :: t, O => b :: t
  | x :: t, S id' => x :: set_nth id' b t
  end.

(** Reading up to [n] bytes from a stream hands them out and advances it. *)
Definition read (id : StreamId) (n : nat) (h : Streams) : bytes * Streams :=
  match unread id h with
  | None => ([], h)
  | Some rest => (firstn n rest, set_nth id (skipn n rest) h)
  end.

Definition BodyStreamFactory : Type := Streams -> option StreamId * Streams.

(** proxy.ts, lines 190-193:
    [() => { if (!finalBodyBuffer) return undefined;
             return new Response(finalBodyBuffer).body ?? undefined; }] *)
Definition finalCreateBodyStream (finalBodyBuffer : option bytes)
  : BodyStreamFactory :=
  fun h =>
    match finalBodyBuffer with
    | None => (None, h)
    | Some b => let (id, h') := new_Response_body b h in (Some id, h')
    end.

(** ** Errors and outcomes *)

Inductive Exn : Type :=
  | ValidationError (message : string)
  | ServiceUnavailableError (message : string) (provider : string)
  | ProviderError (message : string)
  | OtherError (message : string).

Inductive Outcome (A : Type) : Type :=
  | Returned (a : A)
  | Thrown (e : Exn).
Arguments Returned {A} a.
Arguments Thrown {A} e.

(** The object [interceptAndModifyRequest] resolves to. *)
Record InterceptResult : Type := mkIntercept {
  modifiedBody : option bytes;
  agentUsed : option string;
  originalModel : option string;
  appliedModel : option string
}.

(** ** The collaborators

    Everything [handleProxy] imports: the types it passes around, the
    fields it reads from them, and the functions of ./handlers and
    @better-ccflare/core it calls.  A collaborator runs against a world
    of its own (database, network, clock, [process.env]); it returns or
    throws, and leaves a new world. *)

Record Handlers : Type := mkHandlers {
  World : Type;
  Request : Type;
  URL : Type;
  Response : Type;
  Account : Type;
  Provider : Type;
  DbOps : Type;
  ProxyContext : Type;
  RequestMeta : Type;

  (** [req.headers.get("user-agent")], [req.method] *)
  user_agent : Request -> option string;
  method : Request -> string;
  (** [url.pathname] *)
  pathname : URL -> string;
  (** [ctx.provider], [ctx.dbOps], [ctx.provider.name] *)
  provider : ProxyContext -> Provider;
  dbOps : ProxyContext -> DbOps;
  provider_name : Provider -> string;
  (** [acc.name], [acc.refresh_token] *)
  name : Account -> string;
  refresh_token : Account -> option string;
  (** [requestMeta.agentUsed = agentUsed] *)
  set_agentUsed : RequestMeta -> option string -> RequestMeta;
  (** [process.env.DEBUG], [process.env.NODE_ENV] *)
  env_DEBUG : World -> option string;
  env_NODE_ENV : World -> option string;
  (** [ERROR_MESSAGES.ALL_ACCOUNTS_FAILED] *)
  ALL_ACCOUNTS_FAILED : string;

  trackClientVersion : option string -> World -> Outcome unit * World;
  validateProviderPath : Provider -> string -> World -> Outcome unit * World;
  prepareRequestBody : Request -> World -> Outcome (option bytes) * World;
  interceptAndModifyRequest :
    option bytes -> DbOps -> World -> Outcome InterceptResult * World;
  createRequestMetadata :
    Request -> URL -> World -> Outcome RequestMeta * World;
  selectAccountsForRequest :
    RequestMeta -> ProxyContext -> World -> Outcome (list Account) * World;
  proxyWithAccount :
    Request -> URL -> Account -> RequestMeta -> option bytes ->
    BodyStreamFactory -> nat -> ProxyContext ->
    World -> Outcome (option Response) * World;
  proxyUnauthenticated :
    Request -> URL -> RequestMeta -> option bytes ->
    BodyStreamFactory -> ProxyContext -> World -> Outcome Response * World;
  isRefreshTokenLikelyExpired : Account -> World -> bool
}.

Section WithHandlers.

Variable H : Handlers.

(** ** Trace of calls

    One entry per call that leaves [handleProxy], with the arguments the
    callee receives, in the order the calls are made. *)

Inductive Call : Type :=
  | Call_trackClientVersion (ua : option string)
  | Call_validateProviderPath (p : Provider H) (path : string)
  | Call_prepareRequestBody (req : Request H)
  | Call_interceptAndModifyRequest (buffer : option bytes) (db : DbOps H)
  | Call_createRequestMetadata (req : Request H) (url : URL H)
  | Call_selectAccountsForRequest (meta : RequestMeta H) (ctx : ProxyContext H)
  | Call_proxyUnauthenticated
      (req : Request H) (url : URL H) (meta : RequestMeta H)
      (body : option bytes) (createBodyStream : BodyStreamFactory)
      (ctx : ProxyContext H)
  | Call_proxyWithAccount
      (req : Request H) (url : URL H) (account : Account H)
      (meta : RequestMeta H)
      (body : option bytes) (createBodyStream : BodyStreamFactory)
      (attemptIndex : nat) (ctx : ProxyContext H)
  | Call_log_info (message : string).

Record Sys : Type := mkSys {
  world : World H;
  trace : list Call      (* oldest call first *)
}.

(** ** The monad of [handleProxy]: state and exceptions *)

Definition M (A : Type) : Type := Sys -> Outcome A * Sys.

Definition ret {A} (a : A) : M A := fun s => (Returned a, s).

Definition throw {A} (e : Exn) : M A := fun s => (Thrown e, s).

Definition bind {A B} (m : M A) (k : A -> M B) : M B :=
  fun s =>
    match m s with
    | (Returned a, s') => k a s'
    | (Thrown e, s') => (Thrown e, s')
    end.

(** A call to a collaborator: it is recorded, then run on the world. *)
Definition call {A} (c : Call) (f : World H -> Outcome A * World H) : M A :=
  fun s =>
    let (r, w') := f (world s) in
    (r, mkSys w' (trace s ++ [c])%list).

Definition log_info (message : string) : M unit :=
  fun s => (Returned tt, mkSys (world s) (trace s ++ [Call_log_info message])%list).

Definition read_world {A} (f : World H -> A) : M A :=
  fun s => (Returned (f (world s)), s).

End WithHandlers.

Arguments ret {H A} a.
Arguments throw {H A} e.
Arguments bind {H A B} m k.
Arguments call {H A} c f.
Arguments log_info {H} message.
Arguments read_world {H A} f.
Arguments mkSys {H} world trace.
Arguments world {H} s.
Arguments trace {H} s.

Declare Scope proxy_scope.
Delimit Scope proxy_scope with proxy.
Notation "x <- m ;; k" := (bind m (fun x => k))
  (at level 61, m at next level, right associativity) : proxy_scope.
Notation "m ;;; k" := (bind m (fun _ => k))
  (at level 61, right associativity) : proxy_scope.

Section HandleProxy.

Variable H : Handlers.

Local Open Scope proxy_scope.

Definition nl : string := String "010"%char EmptyString.

Definition opt_string_eqb (a b : option string) : bool :=
  match a, b with
  | Some x, Some y => String.eqb x y
  | None, None => true
  | _, _ => false
  end.

(** [`${x}`] for [x : string | undefined] *)
Definition show (o : option string) : string :=
  match o with
  | Some s => s
  | None => "undefined"
  end.

(** [modifiedBody || requestBodyBuffer]: an [ArrayBuffer] is an object,
    hence truthy whatever its length. *)
Definition or_else (modifiedBody requestBodyBuffer : option bytes)
  : option bytes :=
  match modifiedBody with
  | Some b => Some b
  | None => requestBodyBuffer
  end.

(** proxy.ts, lines 224-228 *)
Definition debug_logging (w : World H) : bool :=
  match env_DEBUG H w with
  | Some d => includes "proxy" d
  | None => false
  end
  || opt_string_eqb (env_DEBUG H w) (Some "true")
  || opt_string_eqb (env_NODE_ENV H w) (Some "development").

(** Step 9 (lines 233-248): the loop over [accounts], from index [i] on.
    [accounts] is the part of the array not yet tried and [i] the index
    of its head in the whole array. *)
Fixpoint try_each_account
  (req : Request H) (url : URL H) (requestMeta : RequestMeta H)
  (finalBodyBuffer : option bytes) (createBodyStream : BodyStreamFactory)
  (ctx : ProxyContext H) (accounts : list (Account H)) (i : nat)
  : M H (option (Response H)) :=
  match accounts with
  | [] => ret None
  | account :: rest =>
      response <-
        call (Call_proxyWithAccount H req url account requestMeta
                finalBodyBuffer createBodyStream i ctx)
             (proxyWithAccount H req url account requestMeta
                finalBodyBuffer createBodyStream i ctx) ;;
      match response with
      | Some r => ret (Some r)
      | None =>
          try_each_account req url requestMeta finalBodyBuffer
            createBodyStream ctx rest (S i)
      end
  end.

(** Step 10 (lines 251-254) *)
Definition oauthAccounts (accounts : list (Account H)) : list (Account H) :=
  filter (fun acc => truthy (refresh_token H acc)) accounts.

Definition needsReauth (accounts : list (Account H)) (w : World H)
  : list (Account H) :=
  filter (fun acc => isRefreshTokenLikelyExpired H acc w)
         (oauthAccounts accounts).

(** Lines 260-265 *)
Definition reauthCommands (needs : list (Account H)) : string :=
  join (nl ++ "  ")
       (map (fun acc => Shell.reauthCommand (name H acc)) needs).

(** Line 267 *)
Definition reauth_message (needs : list (Account H)) : string :=
  "All accounts failed to proxy the request. OAuth tokens have expired for accounts: "
  ++ join ", " (map (name H) needs)
  ++ "." ++ nl ++ nl ++ "Please re-authenticate:" ++ nl ++ "  "
  ++ reauthCommands needs.

(** Line 273 *)
Definition exhausted_message (accounts : list (Account H)) : string :=
  ALL_ACCOUNTS_FAILED H ++ " (" ++ of_nat (length accounts) ++ " attempted)".

(** Lines 250-275: what is thrown once every account has been tried. *)
Definition all_accounts_failed
  (ctx : ProxyContext H) (accounts : list (Account H)) : M H (Response H) :=
  needs <- read_world (needsReauth accounts) ;;
  if (0 <? length needs)%nat
  then throw (ServiceUnavailableError (reauth_message needs)
                (provider_name H (provider H ctx)))
  else throw (ServiceUnavailableError (exhausted_message accounts)
                (provider_name H (provider H ctx))).

(** Steps 7 to 10 (lines 208-275): what [handleProxy] does with the
    selected accounts. *)
Definition proxy_selected
  (req : Request H) (url : URL H) (ctx : ProxyContext H)
  (requestMeta : RequestMeta H) (finalBodyBuffer : option bytes)
  (createBodyStream : BodyStreamFactory) (accounts : list (Account H))
  : M H (Response H) :=
  (* 7. Handle no accounts case *)
  if (length accounts =? 0)%nat
  then call (Call_proxyUnauthenticated H req url requestMeta finalBodyBuffer
               createBodyStream ctx)
            (proxyUnauthenticated H req url requestMeta finalBodyBuffer
               createBodyStream ctx)
  else
    (* 8. Log selected accounts *)
    log_info ("Selected " ++ of_nat (length accounts) ++ " accounts: "
              ++ join ", " (map (name H) accounts)) ;;;
    debug <- read_world debug_logging ;;
    (if debug
     then log_info ("Request: " ++ method H req ++ " " ++ pathname H url)
     else ret tt) ;;;
    (* 9. Try each account *)
    response <- try_each_account req url requestMeta finalBodyBuffer
                  createBodyStream ctx accounts 0 ;;
    match response with
    | Some resp => ret resp
    | None =>
        (* 10. All accounts failed *)
        all_accounts_failed ctx accounts
    end.

(** Lines 195-199 *)
Definition model_changed (r : InterceptResult) : bool :=
  truthy (agentUsed r)
  && negb (opt_string_eqb (originalModel r) (appliedModel r)).

Definition model_changed_message (r : InterceptResult) : string :=
  "Agent " ++ show (agentUsed r) ++ " detected, model changed from "
  ++ show (originalModel r) ++ " to " ++ show (appliedModel r).

(** proxy.ts, lines 170-276 *)
Definition handleProxy (req : Request H) (url : URL H) (ctx : ProxyContext H)
  : M H (Response H) :=
  (* 1. Track client version *)
  call (Call_trackClientVersion H (user_agent H req))
       (trackClientVersion H (user_agent H req)) ;;;
  (* 2. Validate provider can handle path *)
  call (Call_validateProviderPath H (provider H ctx) (pathname H url))
       (validateProviderPath H (provider H ctx) (pathname H url)) ;;;
  (* 3. Prepare request body *)
  requestBodyBuffer <-
    call (Call_prepareRequestBody H req) (prepareRequestBody H req) ;;
  (* 4. Intercept and modify request *)
  r <- call (Call_interceptAndModifyRequest H requestBodyBuffer (dbOps H ctx))
            (interceptAndModifyRequest H requestBodyBuffer (dbOps H ctx)) ;;
  (* Use modified body if available *)
  let finalBodyBuffer := or_else (modifiedBody r) requestBodyBuffer in
  let createBodyStream := finalCreateBodyStream finalBodyBuffer in
  (if model_changed r then log_info (model_changed_message r) else ret tt) ;;;
  (* 5. Create request metadata with agent info *)
  meta <- call (Call_createRequestMetadata H req url)
               (createRequestMetadata H req url) ;;
  let requestMeta := set_agentUsed H meta (agentUsed r) in
  (* 6. Select accounts *)
  accounts <- call (Call_selectAccountsForRequest H requestMeta ctx)
                   (selectAccountsForRequest H requestMeta ctx) ;;
  proxy_selected req url ctx requestMeta finalBodyBuffer createBodyStream
    accounts.

(** ** Reading a trace *)

Definition is_proxyUnauthenticated (c : Call H) : bool :=
  match c with
  | Call_proxyUnauthenticated _ _ _ _ _ _ _ => true
  | _ => false
  end.

(** The calls that come after path validation in a successful run. *)
Definition is_body_or_later (c : Call H) : bool :=
  match c with
  | Call_prepareRequestBody _ _
  | Call_interceptAndModifyRequest _ _ _
  | Call_createRequestMetadata _ _ _
  | Call_selectAccountsForRequest _ _ _
  | Call_proxyUnauthenticated _ _ _ _ _ _ _
  | Call_proxyWithAccount _ _ _ _ _ _ _ _ _ => true
  | _ => false
  end.

Definition is_intercept (c : Call H) : bool :=
  match c with
  | Call_interceptAndModifyRequest _ _ _ => true
  | _ => false
  end.

Definition is_metadata_or_selection (c : Call H) : bool :=
  match c with
  | Call_createRequestMetadata _ _ _
  | Call_selectAccountsForRequest _ _ _ => true
  | _ => false
  end.

(** The body and the stream factory a call hands to its callee. *)
Definition delivered (c : Call H) : option (option bytes * BodyStreamFactory) :=
  match c with
  | Call_proxyUnauthenticated _ _ _ _ body f _ => Some (body, f)
  | Call_proxyWithAccount _ _ _ _ _ body f _ _ => Some (body, f)
  | _ => None
  end.

(** The account attempts of a trace: account and [attemptIndex]. *)
Fixpoint attempts (t : list (Call H)) : list (Account H * nat) :=
  match t with
  | [] => []
  | Call_proxyWithAccount _ _ _ account _ _ _ i _ :: t' =>
      (account, i) :: attempts t'
  | _ :: t' => attempts t'
  end.

(** Every call that satisfies [q] comes after some call that satisfies
    [p]; [seen] tells whether a [p]-call came before [t]. *)
Fixpoint preceded_by (p q : Call H -> bool) (seen : bool) (t : list (Call H))
  : bool :=
  match t with
  | [] => true
  | c :: t' =>
      (if q c then seen else true) && preceded_by p q (seen || p c) t'
  end.

Definition is_validateProviderPath (c : Call H) : bool :=
  match c with
  | Call_validateProviderPath _ _ _ => true
  | _ => false
  end.

(** ** What the collaborators do in a given run

    The hypotheses of the theorems below speak about the collaborators
    only.  [reaches_selection] says that, from world [w], the steps 1 to 6
    all return: the body is buffered as [buffer], interception answers
    [r], the metadata is [meta] and the selected list is [accounts]. *)

Definition reaches_interception
  (req : Request H) (url : URL H) (ctx : ProxyContext H) (w : World H)
  (buffer : option bytes) (r : InterceptResult) (w4 : World H) : Prop :=
  exists w1 w2 w3,
    trackClientVersion H (user_agent H req) w = (Returned tt, w1) /\
    validateProviderPath H (provider H ctx) (pathname H url) w1
      = (Returned tt, w2) /\
    prepareRequestBody H req w2 = (Returned buffer, w3) /\
    interceptAndModifyRequest H buffer (dbOps H ctx) w3 = (Returned r, w4).

Definition reaches_selection
  (req : Request H) (url : URL H) (ctx : ProxyContext H) (w : World H)
  (buffer : option bytes) (r : InterceptResult) (meta : RequestMeta H)
  (accounts : list (Account H)) (w6 : World H) : Prop :=
  exists w4 w5,
    reaches_interception req url ctx w buffer r w4 /\
    createRequestMetadata H req url w4 = (Returned meta, w5) /\
    selectAccountsForRequest H (set_agentUsed H meta (agentUsed r)) ctx w5
      = (Returned accounts, w6).

(** The external call of attempt [j] (zero-based), made in world [w]:
    what [proxyWithAccount] answers for [accounts[j]], given the
    arguments [handleProxy] passes. *)
Definition attempt
  (req : Request H) (url : URL H) (ctx : ProxyContext H)
  (buffer : option bytes) (r : InterceptResult) (meta : RequestMeta H)
  (accounts : list (Account H)) (j : nat) (w : World H)
  : option (Outcome (option (Response H)) * World H) :=
  match nth_error accounts j with
  | Some account =>
      Some (proxyWithAccount H req url account
              (set_agentUsed H meta (agentUsed r))
              (or_else (modifiedBody r) buffer)
              (finalCreateBodyStream (or_else (modifiedBody r) buffer))
              j ctx w)
  | None => None
  end.

(** The first [n] attempts return absent; [ws j] is the world in which
    attempt [j] is made. *)
Definition absent_before
  (req : Request H) (url : URL H) (ctx : ProxyContext H)
  (buffer : option bytes) (r : InterceptResult) (meta : RequestMeta H)
  (accounts : list (Account H)) (ws : nat -> World H) (n : nat) : Prop :=
  forall j, j < n ->
    attempt req url ctx buffer r meta accounts j (ws j)
      = Some (Returned None, ws (S j)).

(** The calls of the attempts on [accounts], the first with index [i]. *)
Fixpoint attempt_calls
  (req : Request H) (url : URL H) (ctx : ProxyContext H)
  (requestMeta : RequestMeta H) (finalBodyBuffer : option bytes)
  (createBodyStream : BodyStreamFactory) (accounts : list (Account H))
  (i : nat) : list (Call H) :=
  match accounts with
  | [] => []
  | account :: rest =>
      Call_proxyWithAccount H req url account requestMeta finalBodyBuffer
        createBodyStream i ctx
      :: attempt_calls req url ctx requestMeta finalBodyBuffer
           createBodyStream rest (S i)
  end.

(** The calls of steps 1 to 4, and of steps 1 to 6, when they all
    return. *)
Definition interception_trace
  (req : Request H) (url : URL H) (ctx : ProxyContext H)
  (buffer : option bytes) (r : InterceptResult) : list (Call H) :=
  ([ Call_trackClientVersion H (user_agent H req);
     Call_validateProviderPath H (provider H ctx) (pathname H url);
     Call_prepareRequestBody H req;
     Call_interceptAndModifyRequest H buffer (dbOps H ctx) ]
   ++ (if model_changed r then [Call_log_info H (model_changed_message r)]
       else []))%list.

Definition selection_trace
  (req : Request H) (url : URL H) (ctx : ProxyContext H)
  (buffer : option bytes) (r : InterceptResult) (meta : RequestMeta H)
  : list (Call H) :=
  (interception_trace req url ctx buffer r
   ++ [ Call_createRequestMetadata H req url;
        Call_selectAccountsForRequest H
          (set_agentUsed H meta (agentUsed r)) ctx ])%list.

(** [c] hands nothing but [body] and [f] to its callee. *)
Definition delivers_only (body : option bytes) (f : BodyStreamFactory)
  (c : Call H) : Prop :=
  forall body' f', delivered c = Some (body', f') -> body' = body /\ f' = f.

(** [m] only adds calls to the trace. *)
Definition extends {A} (m : M H A) : Prop :=
  forall s, exists l, trace (snd (m s)) = (trace s ++ l)%list.

(** A request enters [handleProxy] with nothing called yet. *)
Definition enter (w : World H) : Sys H := mkSys w [].

End HandleProxy.

End Proxy.

(* ===================================================================== *)
(** * The usage worker *)
(* ===================================================================== *)

Module UsageWorker.

Import JsString.
Import Proxy.

(** A [Worker] object and a [Timer] are known by the order in which the
    runtime allocated them. *)
Definition Worker : Type := nat.
Definition Timer : Type := nat.

(** worker-messages.ts: [ControlMessage], [OutgoingWorkerMessage] *)
Inductive ControlMessage : Type :=
  | shutdown.

Inductive OutgoingWorkerMessage : Type :=
  | summary (s : string)
  | payload (p : string).

(** What [requestEvents.emit("event", ...)] publishes. *)
Inductive RequestEvent : Type :=
  | event_summary (s : string)
  | event_payload (p : string).

(** The two module variables of proxy.ts (lines 30-31) and the part of
    the runtime they interact with. *)
Record State : Type := mkState {
  usageWorkerInstance : option Worker;
  shutdownTimerId : option Timer;
  workers : nat;                      (* Worker objects constructed so far *)
  gone : list Worker;                 (* workers that no longer run *)
  mailbox : list (Worker * ControlMessage);   (* messages posted, oldest first *)
  timers : list (Timer * nat);        (* pending timeouts and when they are due *)
  next_timer : Timer;
  clock : nat;
  requestEvents : list RequestEvent;  (* events emitted, oldest first *)
  log : list string
}.

Definition init : State :=
  mkState None None 0 [] [] [] 0 0 [] [].

Definition set_usageWorkerInstance (v : option Worker) (s : State) : State :=
  mkState v (shutdownTimerId s) (workers s) (gone s) (mailbox s) (timers s)
          (next_timer s) (clock s) (requestEvents s) (log s).

Definition set_shutdownTimerId (v : option Timer) (s : State) : State :=
  mkState (usageWorkerInstance s) v (workers s) (gone s) (mailbox s) (timers s)
          (next_timer s) (clock s) (requestEvents s) (log s).

Definition set_timers (v : list (Timer * nat)) (s : State) : State :=
  mkState (usageWorkerInstance s) (shutdownTimerId s) (workers s) (gone s)
          (mailbox s) v (next_timer s) (clock s) (requestEvents s) (log s).

Definition set_gone (v : list Worker) (s : State) : State :=
  mkState (usageWorkerInstance s) (shutdownTimerId s) (workers s) v
          (mailbox s) (timers s) (next_timer s) (clock s) (requestEvents s)
          (log s).

(** ** State and exceptions *)

Definition W (A : Type) : Type := State -> Outcome A * State.

Definition wret {A} (a : A) : W A := fun s => (Returned a, s).

Definition wthrow {A} (e : Exn) : W A := fun s => (Thrown e, s).

Definition wbind {A B} (m : W A) (k : A -> W B) : W B :=
  fun s =>
    match m s with
    | (Returned a, s') => k a s'
    | (Thrown e, s') => (Thrown e, s')
    end.

(** [try { m } catch (e) { handler e }] *)
Definition try_catch {A} (m : W A) (handler : Exn -> W A) : W A :=
  fun s =>
    match m s with
    | (Returned a, s') => (Returned a, s')
    | (Thrown e, s') => handler e s'
    end.

Definition modify (f : State -> State) : W unit :=
  fun s => (Returned tt, f s).

Definition gets {A} (f : State -> A) : W A :=
  fun s => (Returned (f s), s).

Declare Scope worker_scope.
Delimit Scope worker_scope with worker.
Notation "x <- m ;; k" := (wbind m (fun x => k))
  (at level 61, m at next level, right associativity) : worker_scope.
Notation "m ;;; k" := (wbind m (fun _ => k))
  (at level 61, right associativity) : worker_scope.
Local Open Scope worker_scope.

(** ** The runtime interface

    Whether a runtime operation throws is the runtime's choice; the
    caller of the model passes the choice in ([true]: the operation
    succeeds). *)

Definition log_line (l : string) : W unit :=
  modify (fun s =>
    mkState (usageWorkerInstance s) (shutdownTimerId s) (workers s) (gone s)
            (mailbox s) (timers s) (next_timer s) (clock s) (requestEvents s)
            (log s ++ [l])%list).

(** [new Worker(url, { smol: true })] *)
Definition new_Worker (ok : bool) : W Worker :=
  fun s =>
    if ok
    then (Returned (workers s),
          mkState (usageWorkerInstance s) (shutdownTimerId s) (S (workers s))
                  (gone s) (mailbox s) (timers s) (next_timer s) (clock s)
                  (requestEvents s) (log s))
    else (Thrown (OtherError "cannot start worker"), s).

(** [worker.postMessage(msg)] *)
Definition postMessage (ok : bool) (w : Worker) (msg : ControlMessage) : W unit :=
  fun s =>
    if ok
    then (Returned tt,
          mkState (usageWorkerInstance s) (shutdownTimerId s) (workers s)
                  (gone s) (mailbox s ++ [(w, msg)])%list (timers s)
                  (next_timer s) (clock s) (requestEvents s) (log s))
    else (Thrown (OtherError "cannot post to worker"), s).

(** [worker.terminate()] *)
Definition terminate (ok : bool) (w : Worker) : W unit :=
  fun s =>
    if ok
    then (Returned tt, set_gone (w :: gone s) s)
    else (Thrown (OtherError "cannot terminate worker"), s).

(** [setTimeout(callback, delay)]; every timeout of this module runs the
    same callback, [shutdown_timeout] below. *)
Definition setTimeout (delay : nat) : W Timer :=
  fun s =>
    (Returned (next_timer s),
     mkState (usageWorkerInstance s) (shutdownTimerId s) (workers s) (gone s)
             (mailbox s) (timers s ++ [(next_timer s, clock s + delay)])%list
             (S (next_timer s)) (clock s) (requestEvents s) (log s)).

(** A timeout leaves the pending ones when it is cleared or has fired. *)
Definition unschedule (t : Timer) (s : State) : State :=
  set_timers (filter (fun p => negb (fst p =? t)%nat) (timers s)) s.

(** [clearTimeout(t)] *)
Definition clearTimeout (t : Timer) : W unit :=
  modify (unschedule t).

Definition emit (e : RequestEvent) : W unit :=
  modify (fun s =>
    mkState (usageWorkerInstance s) (shutdownTimerId s) (workers s) (gone s)
            (mailbox s) (timers s) (next_timer s) (clock s)
            (requestEvents s ++ [e])%list (log s)).

Section Lifecycle.

(** [TIMING.WORKER_SHUTDOWN_DELAY] and [EMBEDDED_WORKER_CODE], declared
    in ./handlers and ./inline-worker. *)
Variable WORKER_SHUTDOWN_DELAY : nat.
Variable EMBEDDED_WORKER_CODE : option string.

(** proxy.ts, lines 72-85: [usageWorkerInstance.onmessage] *)
Definition onmessage (data : OutgoingWorkerMessage) : W unit :=
  match data with
  | summary s => emit (event_summary s)
  | payload p => emit (event_payload p)
  end.

(** proxy.ts, lines 88-104: [usageWorkerInstance.onerror] *)
Definition onerror : W unit :=
  log_line "Worker error occurred in usage tracking system" ;;;
  (* Reset worker instance on error to allow recreation *)
  modify (set_usageWorkerInstance None).

(** proxy.ts, lines 37-111.  Both observers are installed on every
    worker the function constructs, so they need no state of their own:
    an event of a constructed worker runs them. *)
Definition getUsageWorker (ctor_ok : bool) : W (option Worker) :=
  current <- gets usageWorkerInstance ;;
  match current with
  | Some _ => wret tt
  | None =>
      try_catch
        (log_line (if truthy EMBEDDED_WORKER_CODE
                   then "Post-processor worker starting from embedded code"
                   else "Post-processor worker starting from: ./post-processor.worker.ts") ;;;
         w <- new_Worker ctor_ok ;;
         modify (set_usageWorkerInstance (Some w)) ;;;
         log_line "Post-processor worker started")
        (fun error =>
           log_line "Failed to create worker:" ;;;
           wthrow error)
  end ;;;
  gets usageWorkerInstance.

(** proxy.ts, lines 135-145: the callback handed to [setTimeout] *)
Definition shutdown_timeout (stop_ok : bool) : W unit :=
  current <- gets usageWorkerInstance ;;
  match current with
  | Some w =>
      try_catch (terminate stop_ok w)
                (fun _ => (* Ignore errors during termination *) wret tt) ;;;
      modify (set_usageWorkerInstance None)
  | None => wret tt
  end ;;;
  modify (set_shutdownTimerId None).

(** proxy.ts, lines 116-147 *)
Definition terminateUsageWorker (post_ok : bool) : W unit :=
  current <- gets usageWorkerInstance ;;
  match current with
  | None => wret tt
  | Some w =>
      (* Clear any existing shutdown timer to prevent duplicate timeouts *)
      pending <- gets shutdownTimerId ;;
      match pending with
      | Some t => clearTimeout t ;;; modify (set_shutdownTimerId None)
      | None => wret tt
      end ;;;
      (* Send shutdown message to allow worker to flush *)
      sent <- try_catch
                (postMessage post_ok w shutdown ;;; wret true)
                (fun _ =>
                   (* Worker already terminated, just clean up *)
                   modify (set_usageWorkerInstance None) ;;;
                   wret false) ;;
      if sent
      then
        (* Give worker time to flush before terminating *)
        t <- setTimeout WORKER_SHUTDOWN_DELAY ;;
        modify (set_shutdownTimerId (Some t))
      else wret tt (* return *)
  end.

(** ** The runtime as a transition system

    The application calls the two exported functions; the runtime
    delivers worker events and fires due timeouts.  The runtime is held
    to three rules, which are the rules proxy.ts itself relies on:
    - only a running worker reports an error, sends a message or exits,
      and a worker that reported an error no longer runs (the
      specification calls it the dead one);
    - [postMessage] throws only on a worker that no longer runs (line
      129: the worker is already terminated);
    - [terminate] throws only on a worker that no longer runs. *)

Inductive Event : Type :=
  | call_getUsageWorker (ctor_ok : bool)
  | call_terminateUsageWorker (post_ok : bool)
  | worker_error (w : Worker)
  | worker_message (w : Worker) (data : OutgoingWorkerMessage)
  | worker_exit (w : Worker)
  | timeout (t : Timer) (stop_ok : bool)
  | tick (d : nat).

Definition mem (w : nat) (l : list nat) : bool :=
  existsb (Nat.eqb w) l.

(** [w] was constructed and still runs. *)
Definition running (s : State) (w : Worker) : bool :=
  (w <? workers s)%nat && negb (mem w (gone s)).

(** The singleton does not hold a running worker. *)
Definition handle_dead (s : State) : bool :=
  match usageWorkerInstance s with
  | Some w => negb (running s w)
  | None => true
  end.

(** [t] is pending and due. *)
Definition due (s : State) (t : Timer) : bool :=
  existsb (fun p => (fst p =? t)%nat && (snd p <=? clock s)%nat) (timers s).

Definition advance (d : nat) (s : State) : State :=
  mkState (usageWorkerInstance s) (shutdownTimerId s) (workers s) (gone s)
          (mailbox s) (timers s) (next_timer s) (clock s + d)
          (requestEvents s) (log s).

Definition step (e : Event) (s : State) : option State :=
  match e with
  | call_getUsageWorker ctor_ok => Some (snd (getUsageWorker ctor_ok s))
  | call_terminateUsageWorker post_ok =>
      if post_ok || handle_dead s
      then Some (snd (terminateUsageWorker post_ok s))
      else None
  | worker_error w =>
      if running s w
      then Some (snd (onerror (set_gone (w :: gone s) s)))
      else None
  | worker_message w data =>
      if running s w then Some (snd (onmessage data s)) else None
  | worker_exit w =>
      if running s w then Some (set_gone (w :: gone s) s) else None
  | timeout t stop_ok =>
      if due s t && (stop_ok || handle_dead s)
      then Some (snd (shutdown_timeout stop_ok (unschedule t s)))
      else None
  | tick d => Some (advance d s)
  end.

Fixpoint run (es : list Event) (s : State) : option State :=
  match es with
  | [] => Some s
  | e :: es' =>
      match step e s with
      | Some s' => run es' s'
      | None => None
      end
  end.

(** What a caller can tell about the singleton and the timer. *)
Definition isSome {A} (o : option A) : bool :=
  match o with
  | Some _ => true
  | None => false
  end.

Definition observe (s : State) : option Worker * bool * list nat :=
  (usageWorkerInstance s, isSome (shutdownTimerId s), map snd (timers s)).

(** ** Invariants of the reachable states *)

(** A pending timeout is the one [shutdownTimerId] names, and it is the
    only one. *)
Definition timers_ok (s : State) : Prop :=
  timers s = []
  \/ exists t d, timers s = [(t, d)] /\ shutdownTimerId s = Some t.

(** The singleton holds a constructed worker, and no worker runs but the
    one it holds. *)
Definition workers_ok (s : State) : Prop :=
  (forall w, usageWorkerInstance s = Some w -> w < workers s)
  /\ (forall w, running s w = true -> usageWorkerInstance s = Some w).

(** Worker [w] was constructed and is not the one the singleton holds. *)
Definition retired (w : Worker) (s : State) : Prop :=
  w < workers s /\ usageWorkerInstance s <> Some w.

End Lifecycle.

End UsageWorker.

(* ===================================================================== *)
(** * A small deployment, to run the model on *)
(* ===================================================================== *)

Module Sample.

Import JsString.
Import Proxy.

(** An account of the sample pool: what it is called, its refresh token,
    whether the expiry heuristic flags it, and the response its upstream
    gives (if it gives one). *)
Record account : Type := mkAccount {
  a_name : string;
  a_refresh_token : option string;
  a_expired : bool;
  a_serves : option nat
}.

Record context : Type := mkContext {
  c_provider : string;
  c_pool : list account
}.

Definition x (n : nat) : Byte.byte :=
  match Byte.of_nat n with
  | Some b => b
  | None => Byte.x00
  end.

(** The world counts the upstream calls made so far.  Paths outside
    [/v1/] are rejected; a body that starts with byte 1 is rewritten to
    the bytes that follow it, on behalf of agent [planner]. *)
Definition handlers : Handlers :=
  {| World := nat;
     Request := option bytes;
     URL := string;
     Response := nat;
     Account := account;
     Provider := string;
     DbOps := unit;
     ProxyContext := context;
     RequestMeta := option string;
     user_agent := fun _ => Some "claude-cli/1.0";
     method := fun _ => "POST";
     pathname := fun u => u;
     provider := c_provider;
     dbOps := fun _ => tt;
     provider_name := fun p => p;
     name := a_name;
     refresh_token := a_refresh_token;
     set_agentUsed := fun _ agent => agent;
     env_DEBUG := fun _ => None;
     env_NODE_ENV := fun _ => Some "production";
     ALL_ACCOUNTS_FAILED := "All accounts failed to proxy the request";
     trackClientVersion := fun _ w => (Returned tt, w);
     validateProviderPath := fun _ path w =>
       if startsWith "/v1/" path then (Returned tt, w)
       else (Thrown (ValidationError "Provider cannot handle path"), w);
     prepareRequestBody := fun req w => (Returned req, w);
     interceptAndModifyRequest := fun buffer _ w =>
       match buffer with
       | Some (b :: rest) =>
           if Byte.eqb b (x 1)
           then (Returned (mkIntercept (Some rest) (Some "planner")
                             (Some "opus") (Some "sonnet")), w)
           else (Returned (mkIntercept None None None None), w)
       | _ => (Returned (mkIntercept None None None None), w)
       end;
     createRequestMetadata := fun _ _ w => (Returned None, w);
     selectAccountsForRequest := fun _ ctx w => (Returned (c_pool ctx), w);
     proxyWithAccount := fun _ _ acc _ _ _ _ _ w =>
       (Returned (a_serves acc), S w);
     proxyUnauthenticated := fun _ _ _ _ _ _ w => (Returned 200, S w);
     isRefreshTokenLikelyExpired := fun acc _ => a_expired acc |}.

Definition alice : account := mkAccount "alice" (Some "rt-1") true None.
Definition bob : account := mkAccount "bob" None false None.
Definition o'neil : account := mkAccount "o'neil" (Some "rt-3") true None.
Definition carol : account := mkAccount "carol" (Some "rt-4") false (Some 201).
Definition dave : account := mkAccount "dave" None true None.

Definition body : option bytes := Some [x 2; x 3; x 5].
Definition tagged_body : option bytes := Some [x 1; x 7; x 9].

Definition path : string := "/v1/messages".

(** Four selections: one where the third account answers, one where
    nobody answers and two refresh tokens look expired, one where nobody
    answers and nothing can be re-authenticated ([dave] is flagged but
    has no refresh token), and the empty one. *)
Definition answering : context := mkContext "anthropic" [alice; bob; carol; dave].
Definition expired : context := mkContext "anthropic" [alice; bob; o'neil].
Definition silent : context := mkContext "anthropic" [bob; dave].
Definition keyless : context := mkContext "ollama" [].

(** A selection that lists the same account twice, nobody answering. *)
Definition repeated : context := mkContext "anthropic" [alice; bob; alice].

(** The world after [j] attempts, for requests that enter in world 0. *)
Definition after (j : nat) : nat := j.

Definition untouched : InterceptResult := mkIntercept None None None None.
Definition rewritten : InterceptResult :=
  mkIntercept (Some [x 7; x 9]) (Some "planner") (Some "opus") (Some "sonnet").

(** A request of the sample deployment, entering in world 0. *)
Definition run_sample (req : option bytes) (url : string) (ctx : context)
  : Outcome nat * Sys handlers :=
  handleProxy handlers req url ctx (enter handlers 0).

(** The usage worker with a grace window of 100 ticks, started from the
    source file; [started] is the state after the first
    [getUsageWorker]. *)
Definition delay : nat := 100.
Definition embedded : option string := None.

Definition play (es : list UsageWorker.Event) : option UsageWorker.State :=
  UsageWorker.run delay embedded es UsageWorker.init.

Definition started : UsageWorker.State :=
  snd (UsageWorker.getUsageWorker embedded true UsageWorker.init).

End Sample.

(* ===================================================================== *)
(** * Reading whole runs *)
(* ===================================================================== *)

Module ProxyCalls.

Import JsString Proxy.

Section Calls.

Variable H : Handlers.

Definition is_trackClientVersion (c : Call H) : bool :=
  match c with
  | Call_trackClientVersion _ _ => true
  | _ => false
  end.

Definition is_prepareRequestBody (c : Call H) : bool :=
  match c with
  | Call_prepareRequestBody _ _ => true
  | _ => false
  end.

Definition is_createRequestMetadata (c : Call H) : bool :=
  match c with
  | Call_createRequestMetadata _ _ _ => true
  | _ => false
  end.

Definition is_selectAccountsForRequest (c : Call H) : bool :=
  match c with
  | Call_selectAccountsForRequest _ _ _ => true
  | _ => false
  end.

Definition is_log_info (c : Call H) : bool :=
  match c with
  | Call_log_info _ _ => true
  | _ => false
  end.

(** A call that forwards the request upstream. *)
Definition is_proxy_call (c : Call H) : bool :=
  match c with
  | Call_proxyUnauthenticated _ _ _ _ _ _ _
  | Call_proxyWithAccount _ _ _ _ _ _ _ _ _ => true
  | _ => false
  end.

(** The request metadata a call hands to its callee. *)
Definition carried_meta (c : Call H) : option (RequestMeta H) :=
  match c with
  | Call_selectAccountsForRequest _ meta _ => Some meta
  | Call_proxyUnauthenticated _ _ _ meta _ _ _ => Some meta
  | Call_proxyWithAccount _ _ _ _ meta _ _ _ _ => Some meta
  | _ => None
  end.

(** How many calls of a trace satisfy [p]. *)
Definition count (p : Call H -> bool) (t : list (Call H)) : nat :=
  length (filter p t).

(** The calls of steps 7 to 10: one unauthenticated call when nothing was
    selected; otherwise log lines, then attempts on the first [n]
    accounts, numbered from 0. *)
Definition proxy_tail
  (req : Request H) (url : URL H) (ctx : ProxyContext H)
  (requestMeta : RequestMeta H) (body : option bytes)
  (f : BodyStreamFactory) (accounts : list (Account H))
  (l : list (Call H)) : Prop :=
  (accounts = []
   /\ l = [Call_proxyUnauthenticated H req url requestMeta body f ctx])
  \/ (accounts <> []
      /\ exists logs n,
           forallb is_log_info logs = true
           /\ l = (logs ++ attempt_calls H req url ctx requestMeta body f
                            (firstn n accounts) 0)%list).

(** Steps 1 to 5 all return: the body is buffered as [buffer],
    interception answers [r] and the metadata is [meta]. *)
Definition reaches_metadata
  (req : Request H) (url : URL H) (ctx : ProxyContext H) (w : World H)
  (buffer : option bytes) (r : InterceptResult) (meta : RequestMeta H)
  (w5 : World H) : Prop :=
  exists w4,
    reaches_interception H req url ctx w buffer r w4 /\
    createRequestMetadata H req url w4 = (Returned meta, w5).

End Calls.

End ProxyCalls.

Module WorkerRuns.

Import Proxy UsageWorker.

(** What [onmessage] publishes for one message of the worker. *)
Definition relayed (data : OutgoingWorkerMessage) : RequestEvent :=
  match data with
  | summary s => event_summary s
  | payload p => event_payload p
  end.

(** The messages the workers send during a run, oldest first. *)
Fixpoint sent_by_workers (es : list Event) : list OutgoingWorkerMessage :=
  match es with
  | [] => []
  | worker_message _ data :: es' => data :: sent_by_workers es'
  | _ :: es' => sent_by_workers es'
  end.

(** [shutdownTimerId] is set exactly when a timeout is pending; it is
    then the only one, carries an identifier the runtime has handed out
    and is due no later than [delay] from now. *)
Definition timer_tracked (delay : nat) (s : State) : Prop :=
  match shutdownTimerId s with
  | Some t =>
      exists d, timers s = [(t, d)] /\ d <= clock s + delay
                /\ t < next_timer s
  | None => timers s = []
  end.

(** The events that leave a singleton alone: every event but a timeout
    that fires, an error reported by a worker, and a shutdown request
    whose message cannot be sent. *)
Definition keeps_handle (e : Event) : bool :=
  match e with
  | timeout _ _ => false
  | worker_error _ => false
  | call_terminateUsageWorker post_ok => post_ok
  | _ => true
  end.

(** [w] does not exit during the run. *)
Definition stays_up (w : Worker) (e : Event) : bool :=
  match e with
  | worker_exit w' => negb (w' =? w)%nat
  | _ => true
  end.

(** The sample worker right after a shutdown request that was sent. *)
Definition shutting_down : State :=
  snd (terminateUsageWorker Sample.delay true Sample.started).

End WorkerRuns.

(* ===================================================================== *)
(** * A deployment whose collaborators can fail *)
(* ===================================================================== *)

Module Flaky.

Import JsString Proxy Sample.

(** As [Sample.handlers], but every collaborator has an input on which it
    throws: a body that starts with byte 255 cannot be buffered, one that
    starts with byte 254 cannot be inspected, [/v1/nometa] has no
    metadata, provider [broken] has no selection strategy, and an account
    that serves status 0 resets the connection. *)
Definition starts_with (n : nat) (b : option bytes) : bool :=
  match b with
  | Some (c :: _) => Byte.eqb c (x n)
  | _ => false
  end.

Definition handlers : Handlers :=
  {| World := nat;
     Request := option bytes;
     URL := string;
     Response := nat;
     Account := account;
     Provider := string;
     DbOps := unit;
     ProxyContext := context;
     RequestMeta := option string;
     user_agent := fun _ => None;
     method := fun _ => "POST";
     pathname := fun u => u;
     provider := c_provider;
     dbOps := fun _ => tt;
     provider_name := fun p => p;
     name := a_name;
     refresh_token := a_refresh_token;
     set_agentUsed := fun _ agent => agent;
     env_DEBUG := fun _ => Some "proxy,db";
     env_NODE_ENV := fun _ => None;
     ALL_ACCOUNTS_FAILED := "All accounts failed to proxy the request";
     trackClientVersion := fun _ w => (Returned tt, w);
     validateProviderPath := fun _ path w =>
       if startsWith "/v1/" path then (Returned tt, w)
       else (Thrown (ValidationError "Provider cannot handle path"), w);
     prepareRequestBody := fun req w =>
       if starts_with 255 req
       then (Thrown (OtherError "body stream failed"), w)
       else (Returned req, w);
     interceptAndModifyRequest := fun buffer _ w =>
       if starts_with 254 buffer
       then (Thrown (OtherError "body is not JSON"), w)
       else (Returned (mkIntercept None (Some "planner") None None), w);
     createRequestMetadata := fun _ url w =>
       if String.eqb url "/v1/nometa"
       then (Thrown (OtherError "no metadata"), w)
       else (Returned None, w);
     selectAccountsForRequest := fun _ ctx w =>
       if String.eqb (c_provider ctx) "broken"
       then (Thrown (OtherError "no strategy"), w)
       else (Returned (c_pool ctx), w);
     proxyWithAccount := fun _ _ acc _ _ _ _ _ w =>
       match a_serves acc with
       | Some 0 => (Thrown (ProviderError "connection reset"), S w)
       | other => (Returned other, S w)
       end;
     proxyUnauthenticated := fun _ _ _ _ _ _ w =>
       (Thrown (ProviderError "credentials required"), S w);
     isRefreshTokenLikelyExpired := fun acc _ => a_expired acc |}.

Definition erin : account := mkAccount "erin" None false (Some 0).

(** [bob] answers absent, [erin] resets the connection, [carol] would
    have answered. *)
Definition resetting : context := mkContext "anthropic" [bob; erin; carol].
Definition broken : context := mkContext "broken" [carol].

Definition planned : InterceptResult :=
  mkIntercept None (Some "planner") None None.

Definition run_flaky (req : option bytes) (url : string) (ctx : context)
  : Outcome nat * Sys handlers :=
  handleProxy handlers req url ctx (enter handlers 0).

End Flaky.

(* ===================================================================== *)
(** * Properties of the string operations *)
(* ===================================================================== *)

Module JsStringFacts.

Import JsString.

Lemma append_assoc (a b c : string) : (a ++ b) ++ c = a ++ (b ++ c).
Proof.
  induction a as [|ch a IH]; simpl; [reflexivity | now rewrite IH].
Qed.

Lemma append_nil_r (a : string) : a ++ EmptyString = a.
Proof.
  induction a as [|ch a IH]; simpl; [reflexivity | now rewrite IH].
Qed.

Lemma startsWith_app (p s : string) : startsWith p (p ++ s) = true.
Proof.
  induction p as [|ch p IH]; simpl; [reflexivity|].
  now rewrite Ascii.eqb_refl, IH.
Qed.

Lemma startsWith_app_r (p s t : string) :
  startsWith p s = true -> startsWith p (s ++ t) = true.
Proof.
  revert s. induction p as [|ch p IH]; intros [|c s]; simpl; try easy.
  intros E. apply andb_true_iff in E as [E1 E2].
  now rewrite E1, IH.
Qed.

Lemma includes_self_app (p s : string) : includes p (p ++ s) = true.
Proof.
  destruct p; [destruct s; reflexivity|]. simpl.
  now rewrite Ascii.eqb_refl, startsWith_app.
Qed.

Lemma includes_app_l (p a s : string) :
  includes p s = true -> includes p (a ++ s) = true.
Proof.
  intros E. induction a as [|ch a IH]; simpl; [exact E|].
  rewrite IH. apply orb_true_r.
Qed.

Lemma includes_app_r (p s b : string) :
  includes p s = true -> includes p (s ++ b) = true.
Proof.
  induction s as [|ch s IH]; simpl.
  - rewrite orb_false_r. intros E.
    destruct p; [destruct b; reflexivity | discriminate].
  - intros E. apply orb_true_iff in E as [E|E].
    + change (String ch (s ++ b)) with (String ch s ++ b).
      rewrite (startsWith_app_r _ _ b E). reflexivity.
    + rewrite (IH E). apply orb_true_r.
Qed.

Lemma includes_refl (p : string) : includes p p = true.
Proof.
  rewrite <- (append_nil_r p) at 2. apply includes_self_app.
Qed.

(** Every element of a joined list occurs in the result. *)
Lemma includes_join (sep x : string) (l : list string) :
  In x l -> includes x (join sep l) = true.
Proof.
  induction l as [|y l IH]; [easy|].
  intros [->|HIn].
  - destruct l; simpl join; [apply includes_refl | apply includes_self_app].
  - destruct l as [|z l]; [easy|].
    change (join sep (y :: z :: l)) with (y ++ sep ++ join sep (z :: l)).
    apply includes_app_l, includes_app_l, IH, HIn.
Qed.

(** A pattern none of whose characters is the first character of [t]
    cannot straddle the seam of [s ++ t]. *)
Lemma startsWith_seam (p s : string) (c : ascii) (t : string) :
  mem_char c p = false ->
  startsWith p (s ++ String c t) = startsWith p s.
Proof.
  revert s. induction p as [|a p IH]; intros s Hc; [reflexivity|].
  simpl in Hc. apply orb_false_iff in Hc as [Hac Hp].
  destruct s as [|b s]; simpl.
  - now rewrite Hac.
  - now rewrite IH.
Qed.

Lemma includes_seam (p s : string) (c : ascii) (t : string) :
  p <> EmptyString ->
  mem_char c p = false ->
  includes p (String c t) = false ->
  includes p (s ++ String c t) = includes p s.
Proof.
  intros Hp Hc Ht. induction s as [|b s IH].
  - simpl append. rewrite Ht. destruct p; [congruence | reflexivity].
  - change (String b s ++ String c t) with (String b (s ++ String c t)).
    cbn [includes]. rewrite IH.
    change (String b (s ++ String c t)) with (String b s ++ String c t).
    now rewrite startsWith_seam.
Qed.

(** A string without the first character of [p] does not contain [p]. *)
Lemma includes_no_head (a : ascii) (p s : string) :
  mem_char a s = false -> includes (String a p) s = false.
Proof.
  induction s as [|b s IH]; simpl; [reflexivity|].
  intros E. apply orb_false_iff in E as [E1 E2].
  rewrite Ascii.eqb_sym, E1. simpl. now apply IH.
Qed.

Lemma mem_char_app (c : ascii) (s t : string) :
  mem_char c (s ++ t) = mem_char c s || mem_char c t.
Proof.
  induction s as [|b s IH]; simpl; [reflexivity|].
  now rewrite IH, orb_assoc.
Qed.

Lemma replace_all_app (c : ascii) (by_ a b : string) :
  replace_all c by_ (a ++ b) = replace_all c by_ a ++ replace_all c by_ b.
Proof.
  induction a as [|ch a IH]; simpl; [reflexivity|].
  destruct (Ascii.eqb ch c); rewrite IH; [now rewrite append_assoc | reflexivity].
Qed.

Lemma replace_all_absent (c : ascii) (by_ s : string) :
  mem_char c s = false -> replace_all c by_ s = s.
Proof.
  induction s as [|ch s IH]; simpl; [reflexivity|].
  intros E. apply orb_false_iff in E as [-> E]. now rewrite IH.
Qed.

Lemma startsWith_split (p s : string) :
  startsWith p s = true -> exists t, s = p ++ t.
Proof.
  revert s. induction p as [|a p IH]; intros s E.
  - now exists s.
  - destruct s as [|b s]; [discriminate|]. simpl in E.
    apply andb_true_iff in E as [Eab E].
    apply Ascii.eqb_eq in Eab as ->.
    destruct (IH s E) as [t ->]. now exists t.
Qed.

(** [includes] is the substring relation. *)
Lemma includes_iff (p s : string) :
  includes p s = true <-> exists a b, s = a ++ p ++ b.
Proof.
  split.
  - induction s as [|c s IH]; simpl; intros E.
    + rewrite orb_false_r in E. destruct p; [|discriminate].
      now exists EmptyString, EmptyString.
    + apply orb_true_iff in E as [E|E].
      * destruct (startsWith_split p (String c s) E) as [t ->].
        now exists EmptyString, t.
      * destruct (IH E) as (a & b & ->). now exists (String c a), b.
  - intros (a & b & ->). apply includes_app_l, includes_self_app.
Qed.

Lemma includes_trans (p q s : string) :
  includes p q = true -> includes q s = true -> includes p s = true.
Proof.
  rewrite !includes_iff. intros (a & b & ->) (c & d & ->).
  exists (c ++ a), (b ++ d). now rewrite !append_assoc.
Qed.

(** A decimal numeral has no character but digits. *)
Lemma of_nat_digits (c : ascii) (n : nat) :
  mem_char c "0123456789" = false -> mem_char c (of_nat n) = false.
Proof.
  intros Hc. unfold of_nat.
  assert (Hd : forall u, mem_char c (NilEmpty.string_of_uint u) = false).
  { simpl in Hc.
    repeat (apply orb_false_iff in Hc as [? Hc]).
    induction u; simpl; try reflexivity; rewrite IHu;
      rewrite orb_false_r; assumption. }
  unfold NilZero.string_of_uint.
  destruct (Nat.to_uint n) eqn:E; try apply Hd.
  simpl in *. apply orb_false_iff in Hc as [-> _]. reflexivity.
Qed.

End JsStringFacts.

(* ===================================================================== *)
(** * The remediation command is one shell word per part *)
(* ===================================================================== *)

Module ShellFacts.

Import JsString JsStringFacts Shell.

Example command_plain :
  reauthCommand "work" = "bun run cli --reauthenticate 'work'".
Proof. reflexivity. Qed.

Example command_quote :
  reauthCommand "o'neil" = "bun run cli --reauthenticate 'o'\''neil'".
Proof. reflexivity. Qed.

Example words_quote :
  shell_words (reauthCommand "a b'; rm -rf $HOME '")
  = Some ["bun"; "run"; "cli"; "--reauthenticate"; "a b'; rm -rf $HOME '"].
Proof. reflexivity. Qed.

Example words_unquoted_injection :
  shell_words "bun run cli --reauthenticate x; rm -rf /" = None.
Proof. reflexivity. Qed.

(** Inside single quotes, the escaped form of [name] adds exactly [name]
    to the word being read and leaves the lexer inside the quotes. *)
Lemma lex_escaped (name : string) :
  forall (d : list string) (w rest : string),
    lex (mkLexer d (Some w) SQuote) (escape_single_quotes name ++ rest)
    = lex (mkLexer d (Some (w ++ name)) SQuote) rest.
Proof.
  unfold escape_single_quotes.
  induction name as [|c name IH]; intros d w rest.
  - simpl. now rewrite append_nil_r.
  - cbn [replace_all]. destruct (Ascii.eqb_spec c quote) as [->|Hc].
    + rewrite append_assoc. simpl. rewrite IH.
      now rewrite append_assoc.
    + cbn [append lex]. unfold lex_char. cbn [st].
      replace (Ascii.eqb c "'") with false
        by (symmetry; now apply Ascii.eqb_neq).
      cbn [done word push]. rewrite IH. now rewrite append_assoc.
Qed.

(** The shell reads the name back from the command, so the commands of
    two names are equal only when the names are. *)
Lemma command_words (name : string) :
  shell_words (reauthCommand name)
  = Some ["bun"; "run"; "cli"; "--reauthenticate"; name].
Proof.
  unfold shell_words, reauthCommand. simpl.
  rewrite lex_escaped. reflexivity.
Qed.

Lemma commands_apart (a b : string) :
  reauthCommand a = reauthCommand b -> a = b.
Proof.
  intros E. pose proof (command_words a) as Ha.
  rewrite E, command_words in Ha. now injection Ha.
Qed.

(** C3. For every account name, whatever single quotes it contains, a
    POSIX shell splits the remediation command into the four fixed words
    followed by the name itself, unescaped, as one argument.  The command
    is the name between single quotes, each single quote of the name
    replaced by the four characters quote, backslash, quote, quote. *)
Theorem reauthCommand_shell_safe (name : string) :
  shell_words (reauthCommand name)
    = Some ["bun"; "run"; "cli"; "--reauthenticate"; name]
  /\ reauthCommand name
    = "bun run cli --reauthenticate " ++ "'" ++ escape_single_quotes name ++ "'"
  /\ (forall a b : string,
        escape_single_quotes (a ++ String quote b)
        = escape_single_quotes a ++ "'\''" ++ escape_single_quotes b)
  /\ (forall s : string,
        mem_char quote s = false -> escape_single_quotes s = s).
Proof.
  split; [|split; [reflexivity|split]].
  - unfold shell_words, reauthCommand. simpl.
    rewrite lex_escaped. reflexivity.
  - intros a b. unfold escape_single_quotes.
    rewrite replace_all_app. reflexivity.
  - intros s. apply replace_all_absent.
Qed.

End ShellFacts.

(* ===================================================================== *)
(** * Properties of [handleProxy] *)
(* ===================================================================== *)

Module ProxyFacts.

Import JsString JsStringFacts Proxy.

(** Runs the collaborator call at the head of a [bind] chain. *)
Ltac enter_call := unfold bind at 1; unfold call at 1; cbn [world trace].

(** Runs it and replaces its answer by the one [E] states. *)
Ltac answer_call E := enter_call; rewrite E.

Create HintDb trace_grows.

Section Loop.

Variable H : Handlers.
Variables (req : Request H) (url : URL H) (ctx : ProxyContext H).
Variables (requestMeta : RequestMeta H) (body : option bytes).
Variable createBodyStream : BodyStreamFactory.

Local Abbreviation loop := (try_each_account H req url requestMeta body createBodyStream ctx).
Local Abbreviation ask := (fun account i =>
  proxyWithAccount H req url account requestMeta body createBodyStream i ctx).
Local Abbreviation calls := (attempt_calls H req url ctx requestMeta body createBodyStream).

Lemma loop_cons (account : Account H) (rest : list (Account H)) (i : nat)
  (s : Sys H) :
  loop (account :: rest) i s
  = match ask account i (world s) with
    | (Returned (Some r), w') =>
        (Returned (Some r), mkSys w' (trace s ++ calls [account] i))
    | (Returned None, w') =>
        loop rest (S i) (mkSys w' (trace s ++ calls [account] i))
    | (Thrown e, w') => (Thrown e, mkSys w' (trace s ++ calls [account] i))
    end.
Proof.
  cbn [try_each_account]. unfold bind, call.
  destruct (ask account i (world s)) as [[[r|]|e] w']; reflexivity.
Qed.

Lemma calls_app (l1 l2 : list (Account H)) (i : nat) :
  calls (l1 ++ l2)%list i = (calls l1 i ++ calls l2 (i + length l1))%list.
Proof.
  revert i. induction l1 as [|a l1 IH]; intros i; simpl.
  - now rewrite Nat.add_0_r.
  - rewrite IH. now rewrite Nat.add_succ_comm.
Qed.

Lemma attempts_calls (l : list (Account H)) (i : nat) :
  attempts H (calls l i) = combine l (seq i (length l)).
Proof.
  revert i. induction l as [|a l IH]; intros i; simpl; [reflexivity|].
  now rewrite IH.
Qed.

Lemma attempts_app (t1 t2 : list (Call H)) :
  attempts H (t1 ++ t2)%list = (attempts H t1 ++ attempts H t2)%list.
Proof.
  induction t1 as [|c t1 IH]; simpl; [reflexivity|].
  destruct c; simpl; now rewrite IH.
Qed.

(** Whatever the accounts answer, the loop only adds attempts on a
    prefix of the list, in order, numbered from [i]. *)
Lemma loop_trace (accounts : list (Account H)) :
  forall (i : nat) (s : Sys H),
  exists n,
    trace (snd (loop accounts i s))
    = (trace s ++ calls (firstn n accounts) i)%list.
Proof.
  induction accounts as [|a rest IH]; intros i s.
  - exists 0. simpl. now rewrite app_nil_r.
  - rewrite loop_cons.
    destruct (ask a i (world s)) as [[[r|]|e] w'].
    + exists 1. reflexivity.
    + destruct (IH (S i) (mkSys w' (trace s ++ calls [a] i)%list)) as [n Hn].
      exists (S n). rewrite Hn. simpl. now rewrite <- app_assoc.
    + exists 1. reflexivity.
Qed.

(** The loop, when every account answers absent. *)
Lemma loop_exhausted (accounts : list (Account H)) :
  forall (i : nat) (s : Sys H) (ws : nat -> World H),
    world s = ws i ->
    (forall j account, nth_error accounts j = Some account ->
       ask account (i + j) (ws (i + j)) = (Returned None, ws (S (i + j)))) ->
    loop accounts i s
    = (Returned None,
       mkSys (ws (i + length accounts)) (trace s ++ calls accounts i)).
Proof.
  induction accounts as [|a rest IH]; intros i s ws Hw Hall.
  - simpl. rewrite Nat.add_0_r, app_nil_r, <- Hw. now destruct s.
  - rewrite loop_cons, Hw.
    pose proof (Hall 0 a eq_refl) as H0. rewrite Nat.add_0_r in H0.
    rewrite H0.
    rewrite (IH (S i) _ ws).
    + simpl. rewrite <- app_assoc. now rewrite Nat.add_succ_r.
    + reflexivity.
    + intros j account Hj. specialize (Hall (S j) account Hj).
      now rewrite Nat.add_succ_r in Hall.
Qed.

(** The loop, when the account at position [k] is the first to answer. *)
Lemma loop_first_response (accounts : list (Account H)) :
  forall (k i : nat) (s : Sys H) (ws : nat -> World H)
         (account : Account H) (resp : Response H) (w' : World H),
    world s = ws i ->
    (forall j a, j < k -> nth_error accounts j = Some a ->
       ask a (i + j) (ws (i + j)) = (Returned None, ws (S (i + j)))) ->
    nth_error accounts k = Some account ->
    ask account (i + k) (ws (i + k)) = (Returned (Some resp), w') ->
    loop accounts i s
    = (Returned (Some resp),
       mkSys w' (trace s ++ calls (firstn (S k) accounts) i)).
Proof.
  induction accounts as [|a rest IH]; intros k i s ws account resp w' Hw Hbefore Hk Hresp.
  - destruct k; discriminate.
  - rewrite loop_cons, Hw. destruct k as [|k].
    + injection Hk as ->. rewrite Nat.add_0_r in Hresp. rewrite Hresp.
      reflexivity.
    + pose proof (Hbefore 0 a (Nat.lt_0_succ k) eq_refl) as H0.
      rewrite Nat.add_0_r in H0. rewrite H0.
      rewrite (IH k (S i) _ ws account resp w').
      * cbn [firstn]. simpl. now rewrite <- app_assoc.
      * reflexivity.
      * intros j a' Hj Hnth.
        specialize (Hbefore (S j) a' (proj1 (Nat.succ_lt_mono j k) Hj) Hnth).
        now rewrite Nat.add_succ_r in Hbefore.
      * exact Hk.
      * now rewrite Nat.add_succ_r in Hresp.
Qed.

End Loop.

Section Handler.

Variable H : Handlers.
Variables (req : Request H) (url : URL H) (ctx : ProxyContext H).

(** Steps 1 to 4, when they all return. *)
Lemma handleProxy_intercepted (w : World H) (buffer : option bytes)
  (r : InterceptResult) (w4 : World H) :
  reaches_interception H req url ctx w buffer r w4 ->
  handleProxy H req url ctx (enter H w)
  = bind (call (Call_createRequestMetadata H req url)
               (createRequestMetadata H req url))
      (fun meta =>
         bind (call (Call_selectAccountsForRequest H
                       (set_agentUsed H meta (agentUsed r)) ctx)
                    (selectAccountsForRequest H
                       (set_agentUsed H meta (agentUsed r)) ctx))
           (proxy_selected H req url ctx
              (set_agentUsed H meta (agentUsed r))
              (or_else (modifiedBody r) buffer)
              (finalCreateBodyStream (or_else (modifiedBody r) buffer))))
      (mkSys w4 (interception_trace H req url ctx buffer r)).
Proof.
  intros (w1 & w2 & w3 & H1 & H2 & H3 & H4).
  unfold handleProxy, enter, interception_trace.
  answer_call H1.
  answer_call H2.
  answer_call H3.
  answer_call H4.
  unfold bind at 1.
  destruct (model_changed r); reflexivity.
Qed.

(** Steps 1 to 6, when they all return. *)
Lemma handleProxy_selected (w : World H) (buffer : option bytes)
  (r : InterceptResult) (meta : RequestMeta H) (accounts : list (Account H))
  (w6 : World H) :
  reaches_selection H req url ctx w buffer r meta accounts w6 ->
  handleProxy H req url ctx (enter H w)
  = proxy_selected H req url ctx
      (set_agentUsed H meta (agentUsed r))
      (or_else (modifiedBody r) buffer)
      (finalCreateBodyStream (or_else (modifiedBody r) buffer))
      accounts
      (mkSys w6 (selection_trace H req url ctx buffer r meta)).
Proof.
  intros (w4 & w5 & Hi & H5 & H6).
  rewrite (handleProxy_intercepted _ _ _ _ Hi).
  unfold selection_trace.
  answer_call H5.
  answer_call H6.
  now rewrite <- app_assoc.
Qed.

Lemma attempts_interception_trace (buffer : option bytes) (r : InterceptResult) :
  attempts H (interception_trace H req url ctx buffer r) = [].
Proof.
  unfold interception_trace. destruct (model_changed r); reflexivity.
Qed.

Lemma attempts_selection_trace (buffer : option bytes) (r : InterceptResult)
  (meta : RequestMeta H) :
  attempts H (selection_trace H req url ctx buffer r meta) = [].
Proof.
  unfold selection_trace.
  now rewrite attempts_app, attempts_interception_trace.
Qed.

(** Steps 7 to 9 on a non-empty list: the two log lines, then the loop. *)
Lemma proxy_selected_nonempty (requestMeta : RequestMeta H)
  (body : option bytes) (f : BodyStreamFactory) (accounts : list (Account H))
  (s : Sys H) :
  accounts <> [] ->
  exists logs,
    attempts H logs = [] /\
    Forall (fun c => delivered H c = None) logs /\
    Forall (fun c => is_body_or_later H c = false) logs /\
    proxy_selected H req url ctx requestMeta body f accounts s
    = bind (try_each_account H req url requestMeta body f ctx accounts 0)
        (fun response =>
           match response with
           | Some resp => ret resp
           | None => all_accounts_failed H ctx accounts
           end)
        (mkSys (world s) (trace s ++ logs)).
Proof.
  intros Hne. unfold proxy_selected.
  destruct accounts as [|a rest]; [congruence|]. cbn [length Nat.eqb].
  unfold bind at 1. unfold log_info at 1.
  unfold bind at 1. unfold read_world at 1. cbn [world trace].
  unfold bind at 1.
  destruct (debug_logging H (world s)).
  - eexists [Call_log_info H _; Call_log_info H _].
    split; [reflexivity | split; [repeat constructor | split]].
    + repeat constructor.
    + unfold log_info. cbn [world trace]. now rewrite <- app_assoc.
  - eexists [Call_log_info H _].
    split; [reflexivity | split; [repeat constructor | split]].
    + repeat constructor.
    + reflexivity.
Qed.

Lemma nth_error_combine_seq {A} (l : list A) :
  forall i j,
    nth_error (combine l (seq i (length l))) j
    = option_map (fun a => (a, i + j)) (nth_error l j).
Proof.
  induction l as [|a l IH]; intros i j.
  - now destruct j.
  - destruct j as [|j]; simpl.
    + now rewrite Nat.add_0_r.
    + rewrite IH. now rewrite Nat.add_succ_r.
Qed.

Lemma firstn_length_exact {A} (l : list A) (k : nat) :
  k <= length l -> length (firstn k l) = k.
Proof.
  intros Hk. rewrite length_firstn. lia.
Qed.

Lemma nth_error_firstn_lt {A} (l : list A) :
  forall k j, j < k -> nth_error (firstn k l) j = nth_error l j.
Proof.
  induction l as [|a l IH]; intros k j Hj.
  - now rewrite firstn_nil.
  - destruct k as [|k]; [lia|]. destruct j as [|j]; [reflexivity|].
    simpl. apply IH. lia.
Qed.

(** C1. When the k-th selected account (counting from 1) is the first
    whose [proxyWithAccount] call returns a response, every earlier one
    having returned absent, [handleProxy] returns that response; it has
    called [proxyWithAccount] exactly k times, on the first k accounts in
    list order, and call number j (from 0) received [attemptIndex] j. *)
Theorem first_response_wins
  (w : World H) (buffer : option bytes) (r : InterceptResult)
  (meta : RequestMeta H) (accounts : list (Account H)) (w6 : World H)
  (ws : nat -> World H) (k : nat) (resp : Response H) (w' : World H) :
  reaches_selection H req url ctx w buffer r meta accounts w6 ->
  accounts <> [] ->
  1 <= k ->
  ws 0 = w6 ->
  absent_before H req url ctx buffer r meta accounts ws (k - 1) ->
  attempt H req url ctx buffer r meta accounts (k - 1) (ws (k - 1))
    = Some (Returned (Some resp), w') ->
  let result := handleProxy H req url ctx (enter H w) in
  fst result = Returned resp
  /\ world (snd result) = w'
  /\ length (attempts H (trace (snd result))) = k
  /\ attempts H (trace (snd result)) = combine (firstn k accounts) (seq 0 k)
  /\ (forall j, j < k ->
        nth_error (attempts H (trace (snd result))) j
        = option_map (fun a => (a, j)) (nth_error accounts j)).
Proof.
  intros Hsel Hne Hk Hw0 Habs Hresp result.
  unfold attempt in Hresp.
  destruct (nth_error accounts (k - 1)) as [account|] eqn:Hnth; [|discriminate].
  injection Hresp as Hresp.
  assert (Hlen : k <= length accounts).
  { assert (k - 1 < length accounts)
      by (apply nth_error_Some; rewrite Hnth; discriminate).
    lia. }
  assert (Hrun :
    exists logs, attempts H logs = [] /\
      result
      = (Returned resp,
         mkSys w' ((selection_trace H req url ctx buffer r meta ++ logs)
                   ++ attempt_calls H req url ctx
                        (set_agentUsed H meta (agentUsed r))
                        (or_else (modifiedBody r) buffer)
                        (finalCreateBodyStream (or_else (modifiedBody r) buffer))
                        (firstn k accounts) 0))).
  { subst result. rewrite (handleProxy_selected _ _ _ _ _ _ Hsel).
    destruct (proxy_selected_nonempty
                (set_agentUsed H meta (agentUsed r))
                (or_else (modifiedBody r) buffer)
                (finalCreateBodyStream (or_else (modifiedBody r) buffer))
                accounts
                (mkSys w6 (selection_trace H req url ctx buffer r meta)) Hne)
      as (logs & Hlogs & _ & _ & ->).
    exists logs. split; [exact Hlogs|].
    unfold bind.
    rewrite (loop_first_response H req url ctx _ _ _ accounts (k - 1) 0 _ ws
               account resp w').
    - replace (S (k - 1)) with k by lia. reflexivity.
    - cbn [world]. now rewrite Hw0.
    - intros j a Hj Ha. specialize (Habs j Hj). unfold attempt in Habs.
      rewrite Ha in Habs. now injection Habs.
    - exact Hnth.
    - exact Hresp. }
  destruct Hrun as (logs & Hlogs & ->). cbn [fst snd world trace].
  rewrite !attempts_app, attempts_selection_trace, Hlogs, attempts_calls.
  repeat rewrite app_nil_l. rewrite (firstn_length_exact _ _ Hlen).
  split; [reflexivity|]. split; [reflexivity|].
  split.
  - rewrite length_combine, length_seq, (firstn_length_exact _ _ Hlen). lia.
  - split; [reflexivity|].
    intros j Hj.
    rewrite <- (firstn_length_exact accounts k Hlen) at 2.
    rewrite nth_error_combine_seq, nth_error_firstn_lt by exact Hj.
    reflexivity.
Qed.

Lemma unauthenticated_selection_trace (buffer : option bytes)
  (r : InterceptResult) (meta : RequestMeta H) :
  filter (is_proxyUnauthenticated H)
         (selection_trace H req url ctx buffer r meta) = [].
Proof.
  unfold selection_trace, interception_trace.
  destruct (model_changed r); reflexivity.
Qed.

(** C5. When the selection is empty, [handleProxy] calls
    [proxyUnauthenticated] once, with the body and the stream factory an
    account attempt would have received, calls [proxyWithAccount] not at
    all, and ends the way [proxyUnauthenticated] ends: with its response
    when it returns one. *)
Theorem empty_selection_goes_unauthenticated
  (w : World H) (buffer : option bytes) (r : InterceptResult)
  (meta : RequestMeta H) (w6 : World H)
  (o : Outcome (Response H)) (w7 : World H) :
  reaches_selection H req url ctx w buffer r meta [] w6 ->
  proxyUnauthenticated H req url (set_agentUsed H meta (agentUsed r))
    (or_else (modifiedBody r) buffer)
    (finalCreateBodyStream (or_else (modifiedBody r) buffer)) ctx w6
    = (o, w7) ->
  let result := handleProxy H req url ctx (enter H w) in
  fst result = o
  /\ world (snd result) = w7
  /\ filter (is_proxyUnauthenticated H) (trace (snd result))
     = [Call_proxyUnauthenticated H req url
          (set_agentUsed H meta (agentUsed r))
          (or_else (modifiedBody r) buffer)
          (finalCreateBodyStream (or_else (modifiedBody r) buffer)) ctx]
  /\ attempts H (trace (snd result)) = []
  /\ (forall resp, o = Returned resp -> fst result = Returned resp).
Proof.
  intros Hsel Hun result. subst result.
  rewrite (handleProxy_selected _ _ _ _ _ _ Hsel).
  unfold proxy_selected. cbn [length Nat.eqb].
  unfold call. cbn [world trace]. rewrite Hun. cbn [fst snd world trace].
  split; [reflexivity|]. split; [reflexivity|]. split; [|split].
  - rewrite filter_app, unauthenticated_selection_trace. reflexivity.
  - now rewrite attempts_app, attempts_selection_trace.
  - now intros resp ->.
Qed.

(** Steps 1 to 9 when every account answers absent: control reaches
    step 10 in the world the last attempt left. *)
Lemma handleProxy_exhausted
  (w : World H) (buffer : option bytes) (r : InterceptResult)
  (meta : RequestMeta H) (accounts : list (Account H)) (w6 : World H)
  (ws : nat -> World H) :
  reaches_selection H req url ctx w buffer r meta accounts w6 ->
  accounts <> [] ->
  ws 0 = w6 ->
  absent_before H req url ctx buffer r meta accounts ws (length accounts) ->
  exists t,
    attempts H t = combine accounts (seq 0 (length accounts)) /\
    handleProxy H req url ctx (enter H w)
    = all_accounts_failed H ctx accounts (mkSys (ws (length accounts)) t).
Proof.
  intros Hsel Hne Hw0 Habs.
  rewrite (handleProxy_selected _ _ _ _ _ _ Hsel).
  destruct (proxy_selected_nonempty
              (set_agentUsed H meta (agentUsed r))
              (or_else (modifiedBody r) buffer)
              (finalCreateBodyStream (or_else (modifiedBody r) buffer))
              accounts
              (mkSys w6 (selection_trace H req url ctx buffer r meta)) Hne)
    as (logs & Hlogs & _ & _ & ->).
  unfold bind.
  rewrite (loop_exhausted H req url ctx _ _ _ accounts 0 _ ws).
  - eexists. split; [|reflexivity]. cbn [trace].
    rewrite !attempts_app, attempts_selection_trace, Hlogs, attempts_calls.
    reflexivity.
  - cbn [world]. now rewrite Hw0.
  - intros j a Ha.
    assert (Hj : j < length accounts)
      by (apply nth_error_Some; rewrite Ha; discriminate).
    specialize (Habs j Hj). unfold attempt in Habs.
    rewrite Ha in Habs. now injection Habs.
Qed.

Lemma needsReauth_spec (accounts : list (Account H)) (wN : World H)
  (a : Account H) :
  In a (needsReauth H accounts wN)
  <-> In a accounts /\ truthy (refresh_token H a) = true
      /\ isRefreshTokenLikelyExpired H a wN = true.
Proof.
  unfold needsReauth, oauthAccounts. rewrite !filter_In. tauto.
Qed.

(** The two filters of step 10 select, in selection order, the entries
    of the candidate list that carry a refresh token and are judged
    expired. *)
Lemma needsReauth_filter (accounts : list (Account H)) (wN : World H) :
  needsReauth H accounts wN
  = filter (fun a => truthy (refresh_token H a)
                     && isRefreshTokenLikelyExpired H a wN) accounts.
Proof.
  unfold needsReauth, oauthAccounts.
  induction accounts as [|acc rest IH]; [reflexivity|].
  cbn [filter]. destruct (truthy (refresh_token H acc)); cbn [andb filter].
  - destruct (isRefreshTokenLikelyExpired H acc wN); now rewrite IH.
  - exact IH.
Qed.

(** Candidates with distinct names stay so when some are left out, and
    distinct names give distinct commands. *)
Lemma kept_names_distinct (keep : Account H -> bool)
  (accounts : list (Account H)) :
  NoDup (map (name H) accounts) ->
  NoDup (map (name H) (filter keep accounts)).
Proof.
  induction accounts as [|acc rest IH]; intros Hd; [exact Hd|].
  cbn [map] in Hd. apply NoDup_cons_iff in Hd as [Hacc Hd].
  cbn [filter]. destruct (keep acc); [|now apply IH].
  cbn [map]. apply NoDup_cons; [|now apply IH].
  intros Hin. apply Hacc. apply in_map_iff in Hin as (other & Hother & Hin).
  apply filter_In in Hin as [Hin _]. rewrite <- Hother. now apply in_map.
Qed.

Lemma commands_distinct (names : list string) :
  NoDup names -> NoDup (map Shell.reauthCommand names).
Proof.
  induction names as [|n rest IH]; intros Hd; [constructor|].
  apply NoDup_cons_iff in Hd as [Hn Hd]. cbn [map].
  apply NoDup_cons; [|now apply IH].
  intros Hin. apply in_map_iff in Hin as (other & Hother & Hin).
  apply ShellFacts.commands_apart in Hother. now subst other.
Qed.

(** C4. When every selected account answers absent and at least one of
    them carries a refresh token and is judged likely expired,
    [handleProxy] throws a [ServiceUnavailableError] for the provider.
    The affected accounts are the entries of the candidate list that
    carry a refresh token and are judged expired, in selection order.
    The message is the fixed text, the names of the affected accounts
    separated by commas, and one line for each affected account with its
    remediation command: the command at position [i] is the one of the
    affected account at position [i], so there are as many commands as
    affected entries, and when the candidates have distinct names each
    affected account has exactly one command in the list, different from
    every other.  No account without a refresh token is affected, and
    every affected name and command occurs in the message. *)
Theorem expired_accounts_reported
  (w : World H) (buffer : option bytes) (r : InterceptResult)
  (meta : RequestMeta H) (accounts : list (Account H)) (w6 : World H)
  (ws : nat -> World H) :
  reaches_selection H req url ctx w buffer r meta accounts w6 ->
  accounts <> [] ->
  ws 0 = w6 ->
  absent_before H req url ctx buffer r meta accounts ws (length accounts) ->
  (exists a, In a accounts /\ truthy (refresh_token H a) = true
             /\ isRefreshTokenLikelyExpired H a (ws (length accounts)) = true) ->
  let affected :=
    filter (fun a => truthy (refresh_token H a)
                     && isRefreshTokenLikelyExpired H a (ws (length accounts)))
           accounts in
  let commands := map (fun a => Shell.reauthCommand (name H a)) affected in
  exists message,
    fst (handleProxy H req url ctx (enter H w))
      = Thrown (ServiceUnavailableError message
                  (provider_name H (provider H ctx)))
    /\ message
       = "All accounts failed to proxy the request. OAuth tokens have expired for accounts: "
         ++ join ", " (map (name H) affected)
         ++ "." ++ nl ++ nl ++ "Please re-authenticate:" ++ nl ++ "  "
         ++ join (nl ++ "  ") commands
    /\ (forall a, In a affected <->
          In a accounts /\ truthy (refresh_token H a) = true
          /\ isRefreshTokenLikelyExpired H a (ws (length accounts)) = true)
    /\ length commands = length affected
    /\ (forall i, nth_error commands i
                  = option_map (fun a => Shell.reauthCommand (name H a))
                               (nth_error affected i))
    /\ (NoDup (map (name H) accounts) ->
        NoDup (map (name H) affected)
        /\ NoDup commands
        /\ forall a, In a affected ->
             count_occ string_dec (map (name H) affected) (name H a) = 1
             /\ count_occ string_dec commands
                  (Shell.reauthCommand (name H a)) = 1)
    /\ (forall a, In a affected ->
          includes (name H a) message = true
          /\ includes (Shell.reauthCommand (name H a)) message = true).
Proof.
  intros Hsel Hne Hw0 Habs (a0 & Ha0) affected commands.
  destruct (handleProxy_exhausted _ _ _ _ _ _ _ Hsel Hne Hw0 Habs)
    as (t & _ & ->).
  pose proof (needsReauth_filter accounts (ws (length accounts))) as Hn.
  fold affected in Hn.
  assert (Hspec : forall a, In a affected <->
            In a accounts /\ truthy (refresh_token H a) = true
            /\ isRefreshTokenLikelyExpired H a (ws (length accounts)) = true).
  { intros a. unfold affected. rewrite filter_In, andb_true_iff. tauto. }
  exists (reauth_message H affected).
  assert (Haff : affected <> []).
  { intros E. apply Hspec in Ha0. rewrite E in Ha0. exact Ha0. }
  split; [|split; [reflexivity|split; [exact Hspec|split; [|split; [|split]]]]].
  - unfold all_accounts_failed, bind, read_world. cbn [world].
    rewrite Hn. destruct affected; [congruence|]. reflexivity.
  - unfold commands. apply length_map.
  - intros i. unfold commands. apply nth_error_map.
  - intros Hnames.
    assert (Hd : NoDup (map (name H) affected))
      by (now apply kept_names_distinct).
    assert (Hc : NoDup commands).
    { unfold commands. rewrite <- (map_map (name H) Shell.reauthCommand).
      now apply commands_distinct. }
    split; [exact Hd|]. split; [exact Hc|].
    intros a Ha. split.
    + apply NoDup_count_occ'; [exact Hd | now apply in_map].
    + apply NoDup_count_occ'; [exact Hc|].
      now apply (in_map (fun a => Shell.reauthCommand (name H a))).
  - intros a Ha. unfold reauth_message, reauthCommands. split.
    + apply includes_app_l, includes_app_r, includes_join.
      now apply in_map.
    + do 7 apply includes_app_l. apply includes_join.
      now apply (in_map (fun a => Shell.reauthCommand (name H a))).
Qed.

(** The count suffix of the generic message has no hyphen in it. *)
Lemma attempted_suffix_no_hyphen (n : nat) :
  mem_char "-" (" (" ++ of_nat n ++ " attempted)") = false.
Proof.
  cbn [append mem_char]. rewrite mem_char_app, of_nat_digits; reflexivity.
Qed.

(** C6. When every one of the N selected accounts answers absent and
    none of them needs re-authentication, [handleProxy] throws a
    [ServiceUnavailableError] that carries the provider name and whose
    message is [ERROR_MESSAGES.ALL_ACCOUNTS_FAILED] followed by the count
    N in decimal, as [(N attempted)].  The message has no remediation
    text: unless the constant itself mentions the re-authentication
    option, no remediation command and no re-authentication heading
    occurs in it. *)
Theorem exhausted_accounts_reported
  (w : World H) (buffer : option bytes) (r : InterceptResult)
  (meta : RequestMeta H) (accounts : list (Account H)) (w6 : World H)
  (ws : nat -> World H) :
  reaches_selection H req url ctx w buffer r meta accounts w6 ->
  accounts <> [] ->
  ws 0 = w6 ->
  absent_before H req url ctx buffer r meta accounts ws (length accounts) ->
  (forall a, In a accounts ->
     truthy (refresh_token H a)
     && isRefreshTokenLikelyExpired H a (ws (length accounts)) = false) ->
  exists message,
    fst (handleProxy H req url ctx (enter H w))
      = Thrown (ServiceUnavailableError message
                  (provider_name H (provider H ctx)))
    /\ message
       = ALL_ACCOUNTS_FAILED H ++ " (" ++ of_nat (length accounts)
         ++ " attempted)"
    /\ includes (of_nat (length accounts)) message = true
    /\ (includes "--reauthenticate" (ALL_ACCOUNTS_FAILED H) = false ->
        includes "--reauthenticate" message = false
        /\ forall account_name,
             includes (Shell.reauthCommand account_name) message = false)
    /\ (includes "re-authenticate" (ALL_ACCOUNTS_FAILED H) = false ->
        includes "re-authenticate" message = false).
Proof.
  intros Hsel Hne Hw0 Habs Hnone.
  destruct (handleProxy_exhausted _ _ _ _ _ _ _ Hsel Hne Hw0 Habs)
    as (t & _ & ->).
  exists (exhausted_message H accounts).
  assert (Hneeds : needsReauth H accounts (ws (length accounts)) = []).
  { destruct (needsReauth H accounts (ws (length accounts))) as [|a l] eqn:E;
      [reflexivity|].
    assert (Ha : In a (needsReauth H accounts (ws (length accounts))))
      by (rewrite E; now left).
    apply needsReauth_spec in Ha as (Hin & Ht & He).
    specialize (Hnone a Hin). rewrite Ht, He in Hnone. discriminate. }
  assert (Hseam : forall c0 p,
            mem_char " " (String c0 p) = false ->
            mem_char c0 (" (" ++ of_nat (length accounts) ++ " attempted)")
              = false ->
            includes (String c0 p) (ALL_ACCOUNTS_FAILED H) = false ->
            includes (String c0 p) (exhausted_message H accounts) = false).
  { intros c0 p Hblank Hhead Hp. unfold exhausted_message.
    change (" (" ++ of_nat (length accounts) ++ " attempted)")
      with (String " " ("(" ++ of_nat (length accounts) ++ " attempted)")).
    rewrite includes_seam; [exact Hp | discriminate | exact Hblank |].
    apply includes_no_head. exact Hhead. }
  split; [|split; [reflexivity|split; [|split]]].
  - unfold all_accounts_failed, bind, read_world. cbn [world].
    rewrite Hneeds. reflexivity.
  - unfold exhausted_message.
    apply includes_app_l, (includes_app_l _ " ("), includes_self_app.
  - intros Hconst.
    assert (Hopt : includes "--reauthenticate" (exhausted_message H accounts)
                   = false).
    { apply Hseam; [reflexivity | apply attempted_suffix_no_hyphen | exact Hconst]. }
    split; [exact Hopt|].
    intros account_name.
    destruct (includes (Shell.reauthCommand account_name)
                (exhausted_message H accounts)) eqn:E; [|reflexivity].
    rewrite <- Hopt. symmetry.
    apply (includes_trans _ (Shell.reauthCommand account_name)); [|exact E].
    apply includes_iff.
    exists "bun run cli ",
           (" '" ++ Shell.escape_single_quotes account_name ++ "'").
    reflexivity.
  - intros Hconst. apply Hseam; [reflexivity | | exact Hconst].
    cbn [append mem_char]. rewrite mem_char_app, of_nat_digits; reflexivity.
Qed.

(** ** What is delivered to the attempts *)

Lemma calls_deliver (requestMeta : RequestMeta H) (body : option bytes)
  (f : BodyStreamFactory) (l : list (Account H)) :
  forall i,
    Forall (delivers_only H body f)
           (attempt_calls H req url ctx requestMeta body f l i).
Proof.
  induction l as [|a l IH]; intros i; simpl; constructor.
  - intros body' f' E. simpl in E. injection E as <- <-. now split.
  - apply IH.
Qed.

Lemma all_accounts_failed_trace (accounts : list (Account H)) (s : Sys H) :
  trace (snd (all_accounts_failed H ctx accounts s)) = trace s.
Proof.
  unfold all_accounts_failed, bind, read_world.
  now destruct (0 <? length (needsReauth H accounts (world s)))%nat.
Qed.

(** Steps 7 to 10 only add log lines and calls that carry [body] and
    [f]. *)
Lemma proxy_selected_trace (requestMeta : RequestMeta H)
  (body : option bytes) (f : BodyStreamFactory) (accounts : list (Account H))
  (s : Sys H) :
  exists l,
    trace (snd (proxy_selected H req url ctx requestMeta body f accounts s))
    = (trace s ++ l)%list
    /\ Forall (delivers_only H body f) l
    /\ Forall (fun c => is_metadata_or_selection H c = false) l.
Proof.
  destruct accounts as [|a rest] eqn:Eacc.
  - unfold proxy_selected. cbn [length Nat.eqb]. unfold call.
    destruct (proxyUnauthenticated H req url requestMeta body f ctx (world s))
      as [o w7].
    eexists [Call_proxyUnauthenticated H _ _ _ _ _ _]. cbn [snd trace].
    split; [reflexivity|]. split; [|repeat constructor].
    constructor; [|constructor].
    intros body' f' E. simpl in E. injection E as <- <-. now split.
  - rewrite <- Eacc.
    assert (Hne : accounts <> []) by (rewrite Eacc; discriminate).
    destruct (proxy_selected_nonempty requestMeta body f accounts s Hne)
      as (logs & _ & Hlogs & Hearly & ->).
    destruct (loop_trace H req url ctx requestMeta body f accounts 0
                (mkSys (world s) (trace s ++ logs))) as [n Hn].
    exists (logs ++ attempt_calls H req url ctx requestMeta body f
                     (firstn n accounts) 0)%list.
    split; [|split].
    + unfold bind.
      destruct (try_each_account H req url requestMeta body f ctx accounts 0
                  (mkSys (world s) (trace s ++ logs)))
        as [[[resp|]|e] s'] eqn:E; cbn [snd] in *;
        rewrite ?all_accounts_failed_trace; cbn [ret snd];
        rewrite Hn; cbn [trace]; now rewrite <- app_assoc.
    + apply Forall_app. split.
      * eapply Forall_impl; [|exact Hlogs].
        intros c Hc body' f' E. rewrite Hc in E. discriminate.
      * apply calls_deliver.
    + apply Forall_app. split.
      * eapply Forall_impl; [|exact Hearly].
        intros c Hc. destruct c; try reflexivity; discriminate.
      * generalize 0. generalize (firstn n accounts). clear.
        intros l. induction l; intros i; simpl; constructor; auto.
Qed.

(** ** Streams made by the factory *)

Lemma unread_set_nth (h : Streams) :
  forall (id j : nat) (b : bytes),
    j <> id -> unread j (set_nth id b h) = unread j h.
Proof.
  unfold unread.
  induction h as [|x h IH]; intros id j b Hj; [now destruct id|].
  destruct id as [|id], j as [|j]; simpl; try reflexivity; try congruence.
  apply IH. congruence.
Qed.

Lemma read_other (h : Streams) (id j n : nat) :
  j <> id -> unread j (snd (read id n h)) = unread j h.
Proof.
  intros Hj. unfold read.
  destruct (unread id h); cbn [snd]; [now apply unread_set_nth | reflexivity].
Qed.

Lemma factory_fresh (b : bytes) (h : Streams) :
  exists id h',
    finalCreateBodyStream (Some b) h = (Some id, h')
    /\ unread id h = None
    /\ unread id h' = Some b
    /\ forall j, j <> id -> unread j h' = unread j h.
Proof.
  exists (length h), (h ++ [b])%list. unfold unread.
  split; [reflexivity|]. split; [|split].
  - now apply nth_error_None.
  - rewrite nth_error_app2, Nat.sub_diag by lia. reflexivity.
  - intros j Hj. destruct (Nat.lt_ge_cases j (length h)) as [Hlt|Hge].
    + now rewrite nth_error_app1.
    + assert (length h < j) by lia.
      rewrite (proj2 (nth_error_None h j)) by lia.
      apply nth_error_None. rewrite length_app. simpl. lia.
Qed.

Lemma length_set_nth (h : Streams) :
  forall (id : nat) (b : bytes), length (set_nth id b h) = length h.
Proof.
  induction h as [|x h IH]; intros [|id] b; simpl; try reflexivity.
  now rewrite IH.
Qed.

Lemma length_read (h : Streams) (id n : nat) :
  length (snd (read id n h)) = length h.
Proof.
  unfold read. destruct (unread id h); cbn [snd];
    [apply length_set_nth | reflexivity].
Qed.

(** Two streams made by the factory, the first consumed in between. *)
Lemma factory_twice (b : bytes) (h : Streams) (n : nat) :
  exists id1 h1 id2 h3,
    finalCreateBodyStream (Some b) h = (Some id1, h1)
    /\ finalCreateBodyStream (Some b) (snd (read id1 n h1)) = (Some id2, h3)
    /\ id2 <> id1
    /\ unread id2 h3 = Some b
    /\ fst (read id2 (length b) h3) = b.
Proof.
  destruct (factory_fresh b h) as (id1 & h1 & E1 & _ & _ & _).
  destruct (factory_fresh b (snd (read id1 n h1)))
    as (id2 & h3 & E2 & Hnew & Hfull & _).
  exists id1, h1, id2, h3. split; [exact E1|]. split; [exact E2|].
  split; [|split].
  - simpl in E1, E2. injection E1 as <- <-. injection E2 as <- _.
    rewrite length_read, length_app. simpl. lia.
  - exact Hfull.
  - unfold read. rewrite Hfull. cbn [fst]. apply firstn_all.
Qed.

(** ** The trace only grows *)

Lemma extends_ret {A} (a : A) : extends H (ret a).
Proof. intros s. exists []. simpl. now rewrite app_nil_r. Qed.

Lemma extends_throw {A} (e : Exn) : extends H (@throw H A e).
Proof. intros s. exists []. simpl. now rewrite app_nil_r. Qed.

Lemma extends_call {A} (c : Call H) (f : World H -> Outcome A * World H) :
  extends H (call c f).
Proof.
  intros s. exists [c]. unfold call. now destruct (f (world s)).
Qed.

Lemma extends_log_info (message : string) : extends H (log_info message).
Proof. intros s. now exists [Call_log_info H message]. Qed.

Lemma extends_bind {A B} (m : M H A) (k : A -> M H B) :
  extends H m -> (forall a, extends H (k a)) -> extends H (bind m k).
Proof.
  intros Hm Hk s. unfold bind.
  destruct (Hm s) as [l1 H1]. destruct (m s) as [[a|e] s']; cbn [snd] in H1.
  - destruct (Hk a s') as [l2 H2]. exists (l1 ++ l2)%list.
    now rewrite H2, H1, app_assoc.
  - now exists l1.
Qed.

Lemma extends_proxy_selected (requestMeta : RequestMeta H)
  (body : option bytes) (f : BodyStreamFactory) (accounts : list (Account H)) :
  extends H (proxy_selected H req url ctx requestMeta body f accounts).
Proof.
  intros s.
  destruct (proxy_selected_trace requestMeta body f accounts s) as (l & E & _).
  now exists l.
Qed.

#[local] Hint Resolve extends_ret extends_throw extends_call extends_log_info
  extends_proxy_selected : trace_grows.

(** Every run of [handleProxy] stops after step 1, 2 or 3, or goes
    through step 4. *)
Lemma handleProxy_trace_shape (w : World H) :
  let t := trace (snd (handleProxy H req url ctx (enter H w))) in
  let c1 := Call_trackClientVersion H (user_agent H req) in
  let c2 := Call_validateProviderPath H (provider H ctx) (pathname H url) in
  let c3 := Call_prepareRequestBody H req in
  t = [c1] \/ t = [c1; c2] \/ t = [c1; c2; c3]
  \/ exists buffer l,
       t = c1 :: c2 :: c3
           :: Call_interceptAndModifyRequest H buffer (dbOps H ctx) :: l.
Proof.
  intros t c1 c2 c3.
  assert (Ht : t = trace (snd (handleProxy H req url ctx (enter H w))))
    by reflexivity.
  clearbody t. revert Ht. unfold handleProxy, enter.
  enter_call.
  destruct (trackClientVersion H (user_agent H req) w) as [[[]|e] w1];
    [|intros ->; now left].
  enter_call.
  destruct (validateProviderPath H (provider H ctx) (pathname H url) w1)
    as [[[]|e] w2]; [|intros ->; right; now left].
  enter_call.
  destruct (prepareRequestBody H req w2) as [[buffer|e] w3];
    [|intros ->; right; right; now left].
  intros ->. right; right; right. exists buffer.
  enter_call.
  destruct (interceptAndModifyRequest H buffer (dbOps H ctx) w3)
    as [[r|e] w4]; [|now exists []].
  match goal with
  | |- exists l, trace (snd (?m ?s)) = _ =>
      assert (Hext : extends H m); [|destruct (Hext s) as [l ->]; now exists l]
  end.
  apply extends_bind; [destruct (model_changed r); auto with trace_grows|].
  intros _. apply extends_bind; [auto with trace_grows|]. intros meta.
  apply extends_bind; auto with trace_grows.
Qed.

Lemma preceded_by_seen (p q : Call H -> bool) (t : list (Call H)) :
  preceded_by H p q true t = true.
Proof.
  induction t as [|c t IH]; simpl; [reflexivity|].
  rewrite IH. now destruct (q c).
Qed.

(** C10. Path validation comes before any body processing.  When
    [validateProviderPath] throws, [handleProxy] throws the same error
    and has called nothing but [trackClientVersion] and
    [validateProviderPath]: none of [prepareRequestBody],
    [interceptAndModifyRequest], [createRequestMetadata],
    [selectAccountsForRequest], [proxyWithAccount] and
    [proxyUnauthenticated].  In every run, each of these calls comes
    after the call of [validateProviderPath], and the calls of
    [createRequestMetadata] and [selectAccountsForRequest] come after the
    call of [interceptAndModifyRequest]. *)
Theorem validation_precedes_body_processing :
  (forall (w w1 w2 : World H) (e : Exn),
     trackClientVersion H (user_agent H req) w = (Returned tt, w1) ->
     validateProviderPath H (provider H ctx) (pathname H url) w1
       = (Thrown e, w2) ->
     handleProxy H req url ctx (enter H w)
     = (Thrown e,
        mkSys w2
          [Call_trackClientVersion H (user_agent H req);
           Call_validateProviderPath H (provider H ctx) (pathname H url)])
     /\ existsb (is_body_or_later H)
          (trace (snd (handleProxy H req url ctx (enter H w)))) = false)
  /\ (forall w : World H,
        let t := trace (snd (handleProxy H req url ctx (enter H w))) in
        preceded_by H (is_validateProviderPath H) (is_body_or_later H) false t
          = true
        /\ preceded_by H (is_intercept H) (is_metadata_or_selection H) false t
          = true).
Proof.
  split.
  - intros w w1 w2 e Htrack Hval.
    assert (E : handleProxy H req url ctx (enter H w)
                = (Thrown e,
                   mkSys w2
                     [Call_trackClientVersion H (user_agent H req);
                      Call_validateProviderPath H (provider H ctx)
                        (pathname H url)])).
    { unfold handleProxy, enter.
      answer_call Htrack.
      answer_call Hval.
      reflexivity. }
    rewrite E. split; reflexivity.
  - intros w t.
    destruct (handleProxy_trace_shape w)
      as [E|[E|[E|(buffer & l & E)]]]; fold t in E; rewrite E;
      cbn [preceded_by is_body_or_later is_validateProviderPath is_intercept
           is_metadata_or_selection orb andb];
      rewrite ?preceded_by_seen; split; reflexivity.
Qed.

Lemma interception_trace_delivers (body : option bytes)
  (f : BodyStreamFactory) (buffer : option bytes) (r : InterceptResult) :
  Forall (delivers_only H body f) (interception_trace H req url ctx buffer r).
Proof.
  unfold interception_trace.
  destruct (model_changed r); repeat (constructor; [now intros ? ? ?|]);
    constructor.
Qed.

(** C2. For a request with a body, every account attempt and the
    unauthenticated fallback receive the same body and the same stream
    factory: the body is the replacement [interceptAndModifyRequest]
    returned if it returned one, and the buffered bytes otherwise.  Each
    time the factory is invoked it makes a stream that did not exist
    before and holds all of that body, without touching the streams that
    exist; a stream made after an earlier one was consumed still yields
    the whole body. *)
Theorem attempts_share_final_body
  (w : World H) (b : bytes) (r : InterceptResult) (w4 : World H) :
  reaches_interception H req url ctx w (Some b) r w4 ->
  let final := match modifiedBody r with
               | Some replacement => replacement
               | None => b
               end in
  let t := trace (snd (handleProxy H req url ctx (enter H w))) in
  (forall c body f,
     In c t -> delivered H c = Some (body, f) ->
     body = Some final /\ f = finalCreateBodyStream (Some final))
  /\ (forall h : Streams,
        exists id h',
          finalCreateBodyStream (Some final) h = (Some id, h')
          /\ unread id h = None
          /\ unread id h' = Some final
          /\ forall j, j <> id -> unread j h' = unread j h)
  /\ (forall (h : Streams) (n : nat),
        exists id1 h1 id2 h3,
          finalCreateBodyStream (Some final) h = (Some id1, h1)
          /\ finalCreateBodyStream (Some final) (snd (read id1 n h1))
             = (Some id2, h3)
          /\ id2 <> id1
          /\ unread id2 h3 = Some final
          /\ fst (read id2 (length final) h3) = final).
Proof.
  intros Hint final t.
  split; [|split; [apply factory_fresh | apply factory_twice]].
  assert (Hfinal : or_else (modifiedBody r) (Some b) = Some final).
  { unfold or_else, final. now destruct (modifiedBody r). }
  assert (Hall : Forall (delivers_only H (Some final)
                           (finalCreateBodyStream (Some final))) t).
  { subst t. rewrite (handleProxy_intercepted _ _ _ _ Hint), Hfinal.
    pose proof (interception_trace_delivers (Some final)
                  (finalCreateBodyStream (Some final)) (Some b) r) as Hpre.
    enter_call.
    destruct (createRequestMetadata H req url w4) as [[meta|e] w5];
      cbn [snd trace].
    2:{ apply Forall_app. split; [exact Hpre|].
        constructor; [now intros ? ? ?|constructor]. }
    enter_call.
    destruct (selectAccountsForRequest H
                (set_agentUsed H meta (agentUsed r)) ctx w5)
      as [[accounts|e] w6]; cbn [snd trace].
    2:{ apply Forall_app; split; [apply Forall_app; split; [exact Hpre|]|];
          (constructor; [now intros ? ? ?|constructor]). }
    match goal with
    | |- Forall _ (trace (snd (proxy_selected H req url ctx ?m ?bd ?f ?a ?s))) =>
        destruct (proxy_selected_trace m bd f a s) as (l & -> & Hl & _)
    end.
    cbn [trace].
    apply Forall_app; split; [|exact Hl].
    apply Forall_app; split; [apply Forall_app; split; [exact Hpre|]|];
      (constructor; [now intros ? ? ?|constructor]). }
  intros c body f Hin Hc.
  exact (proj1 (Forall_forall _ _) Hall c Hin body f Hc).
Qed.

End Handler.

End ProxyFacts.

(* ===================================================================== *)
(** * Properties of the usage worker *)
(* ===================================================================== *)

Module UsageWorkerFacts.

Import JsString Proxy UsageWorker.

Section Lifecycle.

Variable WORKER_SHUTDOWN_DELAY : nat.
Variable EMBEDDED_WORKER_CODE : option string.

Local Abbreviation getWorker := (getUsageWorker EMBEDDED_WORKER_CODE).
Local Abbreviation terminateWorker := (terminateUsageWorker WORKER_SHUTDOWN_DELAY).
Local Abbreviation step' := (step WORKER_SHUTDOWN_DELAY EMBEDDED_WORKER_CODE).
Local Abbreviation run' := (run WORKER_SHUTDOWN_DELAY EMBEDDED_WORKER_CODE).

(** ** What the functions do, field by field *)

Lemma getUsageWorker_present (ok : bool) (s : State) (w : Worker) :
  usageWorkerInstance s = Some w ->
  getWorker ok s = (Returned (Some w), s).
Proof.
  intros E. unfold getUsageWorker, wbind, gets. rewrite E. cbn.
  now rewrite E.
Qed.

Lemma getUsageWorker_absent_ok (s : State) :
  usageWorkerInstance s = None ->
  exists s',
    getWorker true s = (Returned (Some (workers s)), s')
    /\ usageWorkerInstance s' = Some (workers s)
    /\ shutdownTimerId s' = shutdownTimerId s
    /\ workers s' = S (workers s)
    /\ gone s' = gone s
    /\ timers s' = timers s.
Proof.
  intros E. unfold getUsageWorker, wbind, gets. rewrite E.
  eexists. cbn. repeat split.
Qed.

Lemma getUsageWorker_absent_fails (s : State) :
  usageWorkerInstance s = None ->
  exists e s',
    getWorker false s = (Thrown e, s')
    /\ usageWorkerInstance s' = None
    /\ shutdownTimerId s' = shutdownTimerId s
    /\ workers s' = workers s
    /\ gone s' = gone s
    /\ timers s' = timers s.
Proof.
  intros E. unfold getUsageWorker, wbind, gets. rewrite E.
  eexists. eexists. cbn. repeat split. exact E.
Qed.

Lemma terminateUsageWorker_absent (post_ok : bool) (s : State) :
  usageWorkerInstance s = None ->
  terminateWorker post_ok s = (Returned tt, s).
Proof.
  intros E. unfold terminateUsageWorker, wbind, gets. now rewrite E.
Qed.

Lemma terminateUsageWorker_sent (s : State) (w : Worker) :
  usageWorkerInstance s = Some w ->
  exists s',
    terminateWorker true s = (Returned tt, s')
    /\ usageWorkerInstance s' = Some w
    /\ shutdownTimerId s' = Some (next_timer s)
    /\ workers s' = workers s
    /\ gone s' = gone s
    /\ mailbox s' = (mailbox s ++ [(w, shutdown)])%list
    /\ next_timer s' = S (next_timer s)
    /\ clock s' = clock s
    /\ timers s'
       = (match shutdownTimerId s with
          | Some t => filter (fun p => negb (fst p =? t)%nat) (timers s)
          | None => timers s
          end ++ [(next_timer s, clock s + WORKER_SHUTDOWN_DELAY)])%list.
Proof.
  intros E. unfold terminateUsageWorker, wbind, gets. rewrite E.
  destruct (shutdownTimerId s) eqn:Et; eexists; cbn; repeat split; auto.
Qed.

Lemma terminateUsageWorker_unsent (s : State) (w : Worker) :
  usageWorkerInstance s = Some w ->
  exists s',
    terminateWorker false s = (Returned tt, s')
    /\ usageWorkerInstance s' = None
    /\ shutdownTimerId s' = None
    /\ workers s' = workers s
    /\ gone s' = gone s
    /\ mailbox s' = mailbox s
    /\ next_timer s' = next_timer s
    /\ clock s' = clock s
    /\ timers s'
       = match shutdownTimerId s with
         | Some t => filter (fun p => negb (fst p =? t)%nat) (timers s)
         | None => timers s
         end.
Proof.
  intros E. unfold terminateUsageWorker, wbind, gets. rewrite E.
  destruct (shutdownTimerId s) eqn:Et; eexists; cbn; repeat split; auto.
Qed.

Lemma shutdown_timeout_spec (stop_ok : bool) (s : State) :
  exists s',
    shutdown_timeout stop_ok s = (Returned tt, s')
    /\ usageWorkerInstance s' = None
    /\ shutdownTimerId s' = None
    /\ workers s' = workers s
    /\ timers s' = timers s
    /\ gone s'
       = match usageWorkerInstance s with
         | Some w => if stop_ok then w :: gone s else gone s
         | None => gone s
         end.
Proof.
  unfold shutdown_timeout, wbind, gets.
  destruct (usageWorkerInstance s) eqn:E; [destruct stop_ok|];
    eexists; cbn; repeat split; auto.
Qed.

(** ** The timer invariant *)

Lemma timers_cleared (s : State) :
  timers_ok s ->
  match shutdownTimerId s with
  | Some t => filter (fun p => negb (fst p =? t)%nat) (timers s)
  | None => timers s
  end = [].
Proof.
  intros [E|(t & d & E & Et)]; rewrite E.
  - now destruct (shutdownTimerId s).
  - rewrite Et. cbn. now rewrite Nat.eqb_refl.
Qed.

Lemma timers_fired (s : State) (t : Timer) :
  timers_ok s -> due s t = true ->
  timers (unschedule t s) = [].
Proof.
  unfold due, unschedule. cbn [timers set_timers].
  intros [E|(t' & d & E & _)]; rewrite E; cbn; [discriminate|].
  rewrite orb_false_r. intros Hd. apply andb_true_iff in Hd as [Hd _].
  now rewrite Hd.
Qed.

Lemma timers_ok_terminate (post_ok : bool) (s : State) :
  timers_ok s -> timers_ok (snd (terminateWorker post_ok s)).
Proof.
  intros Hs. destruct (usageWorkerInstance s) as [w|] eqn:E.
  - destruct post_ok.
    + destruct (terminateUsageWorker_sent s w E)
        as (s' & -> & _ & Ht & _ & _ & _ & _ & _ & Htm).
      right. exists (next_timer s), (clock s + WORKER_SHUTDOWN_DELAY).
      cbn [snd]. rewrite Htm. split; [|exact Ht].
      apply (f_equal (fun l => (l ++ _)%list) (timers_cleared s Hs)).
    + destruct (terminateUsageWorker_unsent s w E)
        as (s' & -> & _ & _ & _ & _ & _ & _ & _ & Htm).
      left. cbn [snd]. rewrite Htm. exact (timers_cleared s Hs).
  - now rewrite terminateUsageWorker_absent.
Qed.

Lemma timers_ok_get (ok : bool) (s : State) :
  timers_ok s -> timers_ok (snd (getWorker ok s)).
Proof.
  intros Hs. destruct (usageWorkerInstance s) as [w|] eqn:E.
  - now rewrite (getUsageWorker_present ok s w E).
  - destruct ok.
    + destruct (getUsageWorker_absent_ok s E)
        as (s' & -> & _ & Ht & _ & _ & Htm).
      unfold timers_ok. cbn [snd]. now rewrite Htm, Ht.
    + destruct (getUsageWorker_absent_fails s E)
        as (e & s' & -> & _ & Ht & _ & _ & Htm).
      unfold timers_ok. cbn [snd]. now rewrite Htm, Ht.
Qed.

Lemma timers_ok_step (e : Event) (s s' : State) :
  timers_ok s -> step' e s = Some s' -> timers_ok s'.
Proof.
  intros Hs. destruct e as [ok|ok|w|w data|w|t ok|d]; cbn [step].
  - intros [= <-]. now apply timers_ok_get.
  - destruct (ok || handle_dead s); [|discriminate].
    intros [= <-]. now apply timers_ok_terminate.
  - destruct (running s w); [|discriminate]. intros [= <-]. exact Hs.
  - destruct (running s w); [|discriminate]. intros [= <-].
    destruct data; exact Hs.
  - destruct (running s w); [|discriminate]. intros [= <-]. exact Hs.
  - destruct (due s t) eqn:Hd; [|discriminate].
    destruct (ok || handle_dead s); cbn [andb]; [|discriminate].
    intros [= <-].
    destruct (shutdown_timeout_spec ok (unschedule t s))
      as (s'' & -> & _ & _ & _ & Htm & _).
    left. cbn [snd]. now rewrite Htm, timers_fired.
  - intros [= <-]. exact Hs.
Qed.

(** ** The worker invariant *)

Lemma running_spec (s : State) (w : Worker) :
  running s w = true <-> w < workers s /\ mem w (gone s) = false.
Proof.
  unfold running. rewrite andb_true_iff, Nat.ltb_lt, negb_true_iff. tauto.
Qed.

Lemma mem_cons (w x : nat) (l : list nat) :
  mem w (x :: l) = false <-> w <> x /\ mem w l = false.
Proof.
  unfold mem. cbn [existsb]. rewrite orb_false_iff, Nat.eqb_neq. tauto.
Qed.

(** Under [workers_ok], two running workers are the same worker. *)
Lemma running_unique (s : State) (a b : Worker) :
  workers_ok s -> running s a = true -> running s b = true -> a = b.
Proof.
  intros [_ Hrun] Ha Hb.
  apply Hrun in Ha. apply Hrun in Hb. congruence.
Qed.

Lemma workers_ok_step (e : Event) (s s' : State) :
  workers_ok s -> step' e s = Some s' -> workers_ok s'.
Proof.
  intros [Hcons Hrun]. destruct e as [ok|ok|w|w data|w|t ok|d]; cbn [step].
  - (* getUsageWorker *)
    intros [= <-]. destruct (usageWorkerInstance s) as [w|] eqn:E;
      rewrite <- ?E in Hcons; rewrite <- ?E in Hrun.
    + rewrite (getUsageWorker_present ok s w E). cbn [snd].
      split; [now rewrite E in *|exact Hrun].
    + destruct ok.
      * destruct (getUsageWorker_absent_ok s E)
          as (s' & -> & Hi & _ & Hn & Hg & _). cbn [snd]. split.
        -- intros w. rewrite Hi, Hn. intros [= <-]. lia.
        -- intros w Hw. apply running_spec in Hw as [Hlt Hmem].
           rewrite Hn in Hlt. rewrite Hg in Hmem. rewrite Hi. f_equal.
           destruct (Nat.eq_dec w (workers s)) as [->|Hne]; [reflexivity|].
           assert (Hw : running s w = true) by (apply running_spec; split; [lia|exact Hmem]).
           apply Hrun in Hw. congruence.
      * destruct (getUsageWorker_absent_fails s E)
          as (e & s' & -> & Hi & _ & Hn & Hg & _). cbn [snd]. split.
        -- intros w. rewrite Hi. discriminate.
        -- intros w Hw. apply running_spec in Hw as [Hlt Hmem].
           rewrite Hn in Hlt. rewrite Hg in Hmem.
           assert (Hw : running s w = true) by (now apply running_spec).
           apply Hrun in Hw. congruence.
  - (* terminateUsageWorker *)
    destruct (ok || handle_dead s) eqn:Hguard; [|discriminate].
    intros [= <-]. destruct (usageWorkerInstance s) as [w|] eqn:E;
      rewrite <- ?E in Hcons; rewrite <- ?E in Hrun.
    + destruct ok.
      * destruct (terminateUsageWorker_sent s w E)
          as (s' & -> & Hi & _ & Hn & Hg & _). cbn [snd]. split.
        -- intros x. rewrite Hi, Hn, <- E. apply Hcons.
        -- intros x Hx. apply running_spec in Hx. rewrite Hn, Hg in Hx.
           apply running_spec in Hx. rewrite Hi, <- E. now apply Hrun.
      * destruct (terminateUsageWorker_unsent s w E)
          as (s' & -> & Hi & _ & Hn & Hg & _). cbn [snd]. split.
        -- intros x. rewrite Hi. discriminate.
        -- intros x Hx. apply running_spec in Hx. rewrite Hn, Hg in Hx.
           apply running_spec in Hx.
           cbn [orb] in Hguard. unfold handle_dead in Hguard.
           rewrite E in Hguard. apply negb_true_iff in Hguard.
           pose proof (Hrun x Hx) as Hx'. rewrite E in Hx'.
           injection Hx' as <-. congruence.
    + rewrite terminateUsageWorker_absent by exact E. cbn [snd].
      now split.
  - (* the worker reports an error *)
    destruct (running s w) eqn:Hw; [|discriminate]. intros [= <-].
    split; [discriminate|].
    intros x Hx. apply running_spec in Hx as [Hlt Hmem].
    cbn in Hlt, Hmem. apply mem_cons in Hmem as [Hne Hmem].
    assert (Hx : running s x = true) by (now apply running_spec).
    apply Hrun in Hx. apply Hrun in Hw. congruence.
  - (* the worker sends a message *)
    destruct (running s w); [|discriminate]. intros [= <-].
    destruct data; now split.
  - (* the worker exits *)
    destruct (running s w) eqn:Hw; [|discriminate]. intros [= <-].
    split; [exact Hcons|].
    intros x Hx. apply running_spec in Hx as [Hlt Hmem].
    cbn in Hlt, Hmem. apply mem_cons in Hmem as [Hne Hmem].
    cbn. apply Hrun. now apply running_spec.
  - (* a timeout fires *)
    destruct (due s t); [|discriminate].
    destruct (ok || handle_dead s) eqn:Hguard; [|discriminate].
    cbn [andb]. intros [= <-].
    destruct (shutdown_timeout_spec ok (unschedule t s))
      as (s' & -> & Hi & _ & Hn & _ & Hg). cbn [snd].
    cbn [unschedule set_timers usageWorkerInstance workers gone] in Hn, Hg.
    split; [intros x; rewrite Hi; discriminate|].
    intros x Hx. apply running_spec in Hx as [Hlt Hmem].
    rewrite Hn in Hlt. rewrite Hg in Hmem. exfalso.
    destruct (usageWorkerInstance s) as [w|] eqn:E;
      rewrite <- ?E in Hcons; rewrite <- ?E in Hrun.
    + destruct ok.
      * apply mem_cons in Hmem as [Hne Hmem].
        assert (Hx : running s x = true) by (now apply running_spec).
        apply Hrun in Hx. congruence.
      * cbn [orb] in Hguard. unfold handle_dead in Hguard.
        rewrite E in Hguard. apply negb_true_iff in Hguard.
        assert (Hx : running s x = true) by (now apply running_spec).
        pose proof (Hrun x Hx) as Hx'. rewrite E in Hx'.
        injection Hx' as <-. congruence.
    + assert (Hx : running s x = true) by (now apply running_spec).
      apply Hrun in Hx. congruence.
  - (* time passes *)
    intros [= <-]. now split.
Qed.

(** A worker the singleton has let go of is never held again. *)
Lemma retired_step (w : Worker) (e : Event) (s s' : State) :
  retired w s -> step' e s = Some s' -> retired w s'.
Proof.
  intros [Hlt Hne]. destruct e as [ok|ok|x|x data|x|t ok|d]; cbn [step].
  - intros [= <-]. destruct (usageWorkerInstance s) as [y|] eqn:E;
      rewrite <- ?E in Hne.
    + rewrite (getUsageWorker_present ok s y E). cbn [snd].
      split; [exact Hlt | exact Hne].
    + destruct ok.
      * destruct (getUsageWorker_absent_ok s E)
          as (s' & -> & Hi & _ & Hn & _). cbn [snd]. split.
        -- rewrite Hn. lia.
        -- rewrite Hi. intros [= Heq]. lia.
      * destruct (getUsageWorker_absent_fails s E)
          as (e & s' & -> & Hi & _ & Hn & _). cbn [snd]. split.
        -- now rewrite Hn.
        -- now rewrite Hi.
  - destruct (ok || handle_dead s); [|discriminate].
    intros [= <-]. destruct (usageWorkerInstance s) as [y|] eqn:E;
      rewrite <- ?E in Hne.
    + destruct ok.
      * destruct (terminateUsageWorker_sent s y E)
          as (s' & -> & Hi & _ & Hn & _). cbn [snd].
        split; [now rewrite Hn | now rewrite Hi, <- E].
      * destruct (terminateUsageWorker_unsent s y E)
          as (s' & -> & Hi & _ & Hn & _). cbn [snd].
        split; [now rewrite Hn | now rewrite Hi].
    + rewrite terminateUsageWorker_absent by exact E. cbn [snd].
      split; [exact Hlt | exact Hne].
  - destruct (running s x); [|discriminate]. intros [= <-].
    split; [exact Hlt | discriminate].
  - destruct (running s x); [|discriminate]. intros [= <-].
    destruct data; now split.
  - destruct (running s x); [|discriminate]. intros [= <-]. now split.
  - destruct (due s t && (ok || handle_dead s)); [|discriminate].
    intros [= <-].
    destruct (shutdown_timeout_spec ok (unschedule t s))
      as (s' & -> & Hi & _ & Hn & _). cbn [snd]. split.
    + now rewrite Hn.
    + now rewrite Hi.
  - intros [= <-]. now split.
Qed.

(** A property kept by every step holds along every run. *)
Lemma run_invariant (P : State -> Prop) :
  (forall e s s', P s -> step' e s = Some s' -> P s') ->
  forall es s s', P s -> run' es s = Some s' -> P s'.
Proof.
  intros Hstep es. induction es as [|e es IH]; intros s s' Hs; cbn [run].
  - now intros [= <-].
  - destruct (step' e s) as [s1|] eqn:E; [|discriminate].
    apply IH. exact (Hstep e s s1 Hs E).
Qed.

Lemma reachable_timers_ok (es : list Event) (s : State) :
  run' es init = Some s -> timers_ok s.
Proof.
  apply (run_invariant timers_ok); [apply timers_ok_step | now left].
Qed.

Lemma reachable_workers_ok (es : list Event) (s : State) :
  run' es init = Some s -> workers_ok s.
Proof.
  apply (run_invariant workers_ok); [apply workers_ok_step|].
  split; [discriminate|]. intros w. unfold running. cbn.
  discriminate.
Qed.

(** What [getUsageWorker] answers once worker [w] is retired. *)
Lemma getUsageWorker_retired (w : Worker) (ok : bool) (s : State)
  (out : Outcome (option Worker)) (s' : State) :
  retired w s ->
  getWorker ok s = (out, s') ->
  out <> Returned (Some w)
  /\ (forall e, out = Thrown e -> ok = false /\ usageWorkerInstance s = None)
  /\ (ok = true ->
      exists w', out = Returned (Some w') /\ w' <> w
                 /\ usageWorkerInstance s' = Some w').
Proof.
  intros [Hlt Hne] Hget.
  destruct (usageWorkerInstance s) as [y|] eqn:E.
  - rewrite (getUsageWorker_present ok s y E) in Hget.
    injection Hget as <- <-.
    split; [congruence|]. split; [discriminate|].
    intros _. exists y. repeat split; congruence.
  - destruct ok.
    + destruct (getUsageWorker_absent_ok s E) as (s2 & Hg & Hi & _).
      rewrite Hg in Hget. injection Hget as <- <-.
      split; [intros [= Heq]; lia|]. split; [discriminate|].
      intros _. exists (workers s). repeat split; [lia | exact Hi].
    + destruct (getUsageWorker_absent_fails s E) as (e & s2 & Hg & _).
      rewrite Hg in Hget. injection Hget as <- <-.
      split; [discriminate|]. split; [now split | discriminate].
Qed.

(** C7. When a running worker reports an error, the error observer
    sets [usageWorkerInstance] to null.  The next [getUsageWorker] then
    constructs a worker that did not exist before and returns it, and no
    later [getUsageWorker] ever returns the worker that failed: it
    returns another worker, and throws only when the construction of a
    new worker throws.  In every reachable state at most one worker
    runs, and it is the one the singleton holds. *)
Theorem worker_error_recovery (es : list Event) (s : State) (w : Worker) :
  run' es init = Some s ->
  running s w = true ->
  exists s1,
    step' (worker_error w) s = Some s1
    /\ usageWorkerInstance s1 = None
    /\ (exists s2,
          getWorker true s1 = (Returned (Some (workers s1)), s2)
          /\ usageWorkerInstance s2 = Some (workers s1)
          /\ workers s2 = S (workers s1)
          /\ workers s1 <> w)
    /\ (forall es' s' ok out s'',
          run' es' s1 = Some s' ->
          getWorker ok s' = (out, s'') ->
          out <> Returned (Some w)
          /\ (forall e, out = Thrown e ->
                ok = false /\ usageWorkerInstance s' = None)
          /\ (ok = true ->
              exists w', out = Returned (Some w') /\ w' <> w
                         /\ usageWorkerInstance s'' = Some w'))
    /\ (forall a b, running s a = true -> running s b = true -> a = b)
    /\ (forall a, running s a = true -> usageWorkerInstance s = Some a).
Proof.
  intros Hreach Hw.
  exists (snd (onerror (set_gone (w :: gone s) s))).
  assert (Hlt : w < workers s) by (now apply running_spec in Hw).
  split; [cbn [step]; now rewrite Hw|]. split; [reflexivity|].
  split; [|split; [|split]].
  - destruct (getUsageWorker_absent_ok
                (snd (onerror (set_gone (w :: gone s) s))) eq_refl)
      as (s2 & Hg & Hi & _ & Hn & _).
    exists s2. repeat split; try assumption. cbn. lia.
  - intros es' s' ok out s'' Hrun Hget.
    apply (getUsageWorker_retired w ok s' out s''); [|exact Hget].
    eapply (run_invariant (retired w) (retired_step w)); [|exact Hrun].
    split; [exact Hlt | discriminate].
  - intros a b. apply running_unique.
    exact (reachable_workers_ok es s Hreach).
  - apply (reachable_workers_ok es s Hreach).
Qed.

(** A shutdown request that is sent leaves the worker as it is, dead or
    running. *)
Lemma handle_dead_sent (s : State) :
  handle_dead (snd (terminateWorker true s)) = handle_dead s.
Proof.
  unfold handle_dead. destruct (usageWorkerInstance s) as [w|] eqn:E.
  - destruct (terminateUsageWorker_sent s w E)
      as (s1 & -> & Hi & _ & Hn & Hg & _).
    cbn [snd]. rewrite Hi. unfold running. now rewrite Hn, Hg.
  - rewrite (terminateUsageWorker_absent true s E). cbn [snd].
    now rewrite E.
Qed.

(** C8. Calling [terminateUsageWorker] twice in a row leaves the
    singleton and the timers as calling it once does: the same handle,
    [shutdownTimerId] set or not alike, and the same deadlines pending.
    This holds whatever [postMessage] does in each call.  When both
    calls send, or both fail, the two calls leave what the first alone
    leaves; when one of them fails to send, they leave what one call
    that fails to send leaves, and whenever the runtime lets the two
    calls happen it lets that one call happen too.  Neither call throws.
    When the first call has scheduled a timeout, the second cancels it
    before it schedules its own or gives up, so at most one timeout is
    pending before, between and after the calls, as in every reachable
    state; and without a handle the calls change nothing. *)
Theorem terminateUsageWorker_idempotent
  (es : list Event) (s : State) (first second : bool) :
  run' es init = Some s ->
  let once := terminateWorker first s in
  let twice := terminateWorker second (snd once) in
  let single := terminateWorker (first && second) s in
  observe (snd twice) = observe (snd single)
  /\ (second = first -> observe (snd twice) = observe (snd once))
  /\ (forall s2,
        run' [call_terminateUsageWorker first;
              call_terminateUsageWorker second] s = Some s2 ->
        s2 = snd twice
        /\ run' [call_terminateUsageWorker (first && second)] s
           = Some (snd single))
  /\ fst once = Returned tt
  /\ fst twice = Returned tt
  /\ fst single = Returned tt
  /\ (usageWorkerInstance (snd once) <> None ->
      exists t d,
        timers (snd once) = [(t, d)]
        /\ shutdownTimerId (snd once) = Some t
        /\ ~ In t (map fst (timers (snd twice)))
        /\ length (timers (snd twice)) = (if second then 1 else 0))
  /\ length (timers s) <= 1
  /\ length (timers (snd once)) <= 1
  /\ length (timers (snd twice)) <= 1
  /\ (usageWorkerInstance s = None ->
      once = (Returned tt, s) /\ twice = (Returned tt, s)).
Proof.
  intros Hreach once twice single.
  pose proof (reachable_timers_ok es s Hreach) as Hs.
  assert (Hlen : forall x, timers_ok x -> length (timers x) <= 1).
  { intros x [E|(t & d & E & _)]; rewrite E; simpl; lia. }
  assert (Honce : timers_ok (snd once)) by (now apply timers_ok_terminate).
  assert (Htwice : timers_ok (snd twice)) by (now apply timers_ok_terminate).
  assert (Hruns : forall s2,
    run' [call_terminateUsageWorker first;
          call_terminateUsageWorker second] s = Some s2 ->
    s2 = snd twice
    /\ run' [call_terminateUsageWorker (first && second)] s
       = Some (snd single)).
  { intros s2. subst twice once single. cbn [run step].
    destruct first; cbn [orb andb].
    - rewrite handle_dead_sent.
      destruct second; cbn [orb].
      + intros [= <-]. now split.
      + destruct (handle_dead s); [|discriminate].
        intros [= <-]. now split.
    - destruct (handle_dead s); [|discriminate].
      destruct (_ || _); [|discriminate].
      intros [= <-]. now split. }
  assert (Hmain :
    observe (snd twice) = observe (snd single)
    /\ fst once = Returned tt /\ fst twice = Returned tt
    /\ fst single = Returned tt
    /\ (usageWorkerInstance (snd once) <> None ->
        exists t d,
          timers (snd once) = [(t, d)]
          /\ shutdownTimerId (snd once) = Some t
          /\ ~ In t (map fst (timers (snd twice)))
          /\ length (timers (snd twice)) = (if second then 1 else 0))).
  { subst twice once single.
    destruct (usageWorkerInstance s) as [w|] eqn:E.
    - destruct first; cbn [andb].
      + destruct (terminateUsageWorker_sent s w E)
          as (s1 & Heq1 & Hi1 & Ht1 & _ & _ & _ & Hn1 & Hc1 & Htm1).
        rewrite Heq1 in *. cbn [snd fst] in *.
        assert (E1 : timers s1
                     = [(next_timer s, clock s + WORKER_SHUTDOWN_DELAY)]).
        { rewrite Htm1.
          apply (f_equal (fun l => (l ++ _)%list) (timers_cleared s Hs)). }
        destruct second.
        * rewrite Heq1. cbn [snd fst].
          destruct (terminateUsageWorker_sent s1 w Hi1)
            as (s2 & -> & Hi2 & Ht2 & _ & _ & _ & _ & _ & Htm2).
          cbn [snd fst].
          assert (E2 : timers s2
                       = [(next_timer s1, clock s1 + WORKER_SHUTDOWN_DELAY)]).
          { rewrite Htm2.
            apply (f_equal (fun l => (l ++ _)%list)
                     (timers_cleared s1 Honce)). }
          unfold observe. rewrite Hi1, Hi2, Ht1, Ht2, E1, E2, Hc1.
          split; [reflexivity|]. split; [reflexivity|].
          split; [reflexivity|]. split; [reflexivity|].
          intros _. exists (next_timer s), (clock s + WORKER_SHUTDOWN_DELAY).
          split; [reflexivity|]. split; [reflexivity|]. split; [|reflexivity].
          cbn. rewrite Hn1. intros [Heq|[]]. lia.
        * destruct (terminateUsageWorker_unsent s1 w Hi1)
            as (s2 & -> & Hi2 & Ht2 & _ & _ & _ & _ & _ & Htm2).
          destruct (terminateUsageWorker_unsent s w E)
            as (s' & -> & Hi' & Ht' & _ & _ & _ & _ & _ & Htm').
          cbn [snd fst].
          assert (E2 : timers s2 = []).
          { rewrite Htm2. exact (timers_cleared s1 Honce). }
          assert (E' : timers s' = []).
          { rewrite Htm'. exact (timers_cleared s Hs). }
          unfold observe. rewrite Hi2, Hi', Ht2, Ht', E2, E'.
          split; [reflexivity|]. split; [reflexivity|].
          split; [reflexivity|]. split; [reflexivity|].
          intros _. exists (next_timer s), (clock s + WORKER_SHUTDOWN_DELAY).
          split; [exact E1|]. split; [exact Ht1|].
          split; [intros []|reflexivity].
      + destruct (terminateUsageWorker_unsent s w E)
          as (s1 & -> & Hi1 & _). cbn [snd fst] in *.
        rewrite (terminateUsageWorker_absent second s1 Hi1). cbn [snd fst].
        split; [reflexivity|]. split; [reflexivity|].
        split; [reflexivity|]. split; [reflexivity|].
        now intros Hc.
    - rewrite (terminateUsageWorker_absent first s E). cbn [snd fst].
      rewrite (terminateUsageWorker_absent second s E). cbn [snd fst].
      rewrite (terminateUsageWorker_absent (first && second) s E).
      cbn [snd fst].
      split; [reflexivity|]. split; [reflexivity|].
      split; [reflexivity|]. split; [reflexivity|].
      now intros Hc. }
  destruct Hmain as (H1 & H2 & H3 & H4 & H5).
  split; [exact H1|].
  split.
  { intros ->. rewrite H1. subst single once.
    now rewrite andb_diag. }
  split; [exact Hruns|].
  repeat (split; [assumption|]).
  repeat (split; [now apply Hlen|]).
  intros E. subst twice once.
  rewrite (terminateUsageWorker_absent first s E). cbn [snd].
  split; [reflexivity|]. now apply terminateUsageWorker_absent.
Qed.

(** C9. When the shutdown message cannot be sent, [terminateUsageWorker]
    clears the singleton, schedules no timeout (it calls [setTimeout] not
    at all, and in a reachable state none is left pending) and returns
    normally.  Whatever the runtime answers, neither
    [terminateUsageWorker] nor the timeout callback it schedules throws:
    the faults of [postMessage] and of [terminate] are caught. *)
Theorem terminateUsageWorker_absorbs_faults :
  (forall (s : State) (w : Worker),
     usageWorkerInstance s = Some w ->
     let result := terminateWorker false s in
     fst result = Returned tt
     /\ usageWorkerInstance (snd result) = None
     /\ shutdownTimerId (snd result) = None
     /\ next_timer (snd result) = next_timer s
     /\ incl (timers (snd result)) (timers s)
     /\ mailbox (snd result) = mailbox s)
  /\ (forall (es : list Event) (s : State) (w : Worker),
        run' es init = Some s ->
        usageWorkerInstance s = Some w ->
        timers (snd (terminateWorker false s)) = [])
  /\ (forall (post_ok : bool) (s : State),
        fst (terminateWorker post_ok s) = Returned tt)
  /\ (forall (stop_ok : bool) (s : State),
        fst (shutdown_timeout stop_ok s) = Returned tt)
  /\ (forall (s : State) (w : Worker),
        usageWorkerInstance s = Some w ->
        fst (postMessage false w shutdown s) <> Returned tt
        /\ fst (terminate false w s) <> Returned tt).
Proof.
  split; [|split; [|split; [|split]]].
  - intros s w E result. subst result.
    destruct (terminateUsageWorker_unsent s w E)
      as (s' & -> & Hi & Ht & _ & _ & Hm & Hn & _ & Htm).
    cbn [fst snd]. repeat split; try assumption.
    rewrite Htm. destruct (shutdownTimerId s); [|apply incl_refl].
    intros p Hp. now apply filter_In in Hp.
  - intros es s w Hreach E.
    destruct (terminateUsageWorker_unsent s w E)
      as (s' & -> & _ & _ & _ & _ & _ & _ & _ & Htm).
    cbn [snd]. rewrite Htm.
    exact (timers_cleared s (reachable_timers_ok es s Hreach)).
  - intros post_ok s. destruct (usageWorkerInstance s) as [w|] eqn:E.
    + destruct post_ok.
      * now destruct (terminateUsageWorker_sent s w E) as (s' & -> & _).
      * now destruct (terminateUsageWorker_unsent s w E) as (s' & -> & _).
    + now rewrite terminateUsageWorker_absent.
  - intros stop_ok s.
    now destruct (shutdown_timeout_spec stop_ok s) as (s' & -> & _).
  - intros s w _. split; discriminate.
Qed.

End Lifecycle.

End UsageWorkerFacts.

(* ===================================================================== *)
(** * The sample deployment at work *)
(* ===================================================================== *)

Module SampleRuns.

Import JsString Proxy Sample.
Import ProxyFacts.

Example failover_reaches_carol :
  fst (run_sample body path answering) = Returned 201
  /\ attempts handlers (trace (snd (run_sample body path answering)))
     = [(alice, 0); (bob, 1); (carol, 2)].
Proof. split; reflexivity. Qed.

Example expired_message :
  fst (run_sample body path expired)
  = Thrown (ServiceUnavailableError
      ("All accounts failed to proxy the request. OAuth tokens have expired for accounts: alice, o'neil."
       ++ nl ++ nl ++ "Please re-authenticate:" ++ nl
       ++ "  bun run cli --reauthenticate 'alice'" ++ nl
       ++ "  bun run cli --reauthenticate 'o'\''neil'")
      "anthropic").
Proof. reflexivity. Qed.

Example expired_commands_counted :
  match fst (run_sample body path expired) with
  | Thrown (ServiceUnavailableError message _) =>
      occurrences "bun run cli --reauthenticate '" message
  | _ => 0
  end = 2.
Proof. reflexivity. Qed.

Example silent_message :
  fst (run_sample body path silent)
  = Thrown (ServiceUnavailableError
      "All accounts failed to proxy the request (2 attempted)" "anthropic").
Proof. reflexivity. Qed.

Example keyless_fallback :
  fst (run_sample body path keyless) = Returned 200
  /\ world (snd (run_sample body path keyless)) = 1.
Proof. split; reflexivity. Qed.

Example bad_path_rejected :
  run_sample body "/admin" answering
  = (Thrown (ValidationError "Provider cannot handle path"),
     @mkSys handlers 0
            [Call_trackClientVersion handlers (Some "claude-cli/1.0");
              Call_validateProviderPath handlers "anthropic" "/admin"]).
Proof. reflexivity. Qed.

Lemma sample_interception (req : option bytes) (ctx : context)
  (r : InterceptResult) :
  interceptAndModifyRequest handlers req tt 0 = (Returned r, 0) ->
  reaches_interception handlers req path ctx 0 req r 0.
Proof.
  intros E. exists 0, 0, 0. repeat split. exact E.
Defined.

Lemma sample_selection (req : option bytes) (ctx : context)
  (r : InterceptResult) :
  interceptAndModifyRequest handlers req tt 0 = (Returned r, 0) ->
  reaches_selection handlers req path ctx 0 req r None (c_pool ctx) 0.
Proof.
  intros E. exists 0, 0. split; [now apply sample_interception|].
  split; reflexivity.
Defined.

Lemma first_response_wins_witness :
  fst (run_sample body path answering) = Returned 201
  /\ length (attempts handlers (trace (snd (run_sample body path answering))))
     = 3.
Proof.
  destruct (first_response_wins handlers body path answering
              0 body untouched None (c_pool answering) 0 after 3 201 3)
    as (Hresp & _ & Hlen & _).
  - now apply sample_selection.
  - discriminate.
  - lia.
  - reflexivity.
  - intros j Hj. destruct j as [|[|j]]; [reflexivity | reflexivity | cbn in Hj; lia].
  - reflexivity.
  - split; [exact Hresp | exact Hlen].
Defined.

Lemma attempts_share_final_body_witness :
  (exists id h',
     finalCreateBodyStream (Some [x 7; x 9]) [] = (Some id, h')
     /\ unread id h' = Some [x 7; x 9])
  /\ (forall c b f,
        In c (trace (snd (run_sample tagged_body path answering))) ->
        delivered handlers c = Some (b, f) ->
        b = Some [x 7; x 9] /\ f = finalCreateBodyStream (Some [x 7; x 9])).
Proof.
  destruct (attempts_share_final_body handlers tagged_body path answering
              0 [x 1; x 7; x 9] rewritten 0
              (sample_interception tagged_body answering rewritten eq_refl))
    as (Hsame & Hfresh & _).
  split; [|exact Hsame].
  destruct (Hfresh []) as (id & h' & Hmake & _ & Hfull & _).
  now exists id, h'.
Defined.

Lemma expired_accounts_reported_witness :
  exists message,
    fst (run_sample body path expired)
    = Thrown (ServiceUnavailableError message "anthropic")
    /\ includes "alice" message = true
    /\ includes "bun run cli --reauthenticate 'o'\''neil'" message = true
    /\ message
       = "All accounts failed to proxy the request. OAuth tokens have expired for accounts: "
         ++ join ", " ["alice"; "o'neil"]
         ++ "." ++ nl ++ nl ++ "Please re-authenticate:" ++ nl ++ "  "
         ++ join (nl ++ "  ")
              ["bun run cli --reauthenticate 'alice'";
               "bun run cli --reauthenticate 'o'\''neil'"].
Proof.
  destruct (expired_accounts_reported handlers body path expired
              0 body untouched None (c_pool expired) 0 after)
    as (message & Hthrown & Hmessage & _ & _ & _ & _ & Hin).
  - now apply sample_selection.
  - discriminate.
  - reflexivity.
  - intros j Hj.
    destruct j as [|[|[|j]]]; try reflexivity; cbn in Hj; lia.
  - exists alice. repeat split. now left.
  - exists message. split; [exact Hthrown|]. split; [|split].
    + apply (Hin alice). now left.
    + apply (Hin o'neil). right. now left.
    + exact Hmessage.
Defined.

(** When the selection lists an account twice, step 10 names it twice
    and repeats its remediation command: the affected account [alice]
    has two commands in the message, not one. *)
Lemma repeated_account_reported_twice :
  exists message,
    fst (run_sample body path repeated)
    = Thrown (ServiceUnavailableError message "anthropic")
    /\ message
       = "All accounts failed to proxy the request. OAuth tokens have expired for accounts: alice, alice."
         ++ nl ++ nl ++ "Please re-authenticate:"
         ++ nl ++ "  " ++ "bun run cli --reauthenticate 'alice'"
         ++ nl ++ "  " ++ "bun run cli --reauthenticate 'alice'"
    /\ In alice (c_pool repeated)
    /\ a_refresh_token alice = Some "rt-1"
    /\ a_expired alice = true
    /\ occurrences (Shell.reauthCommand (a_name alice)) message = 2
    /\ count_occ string_dec
         (map (fun a => Shell.reauthCommand (a_name a))
              (needsReauth handlers (c_pool repeated) 3))
         (Shell.reauthCommand (a_name alice)) = 2
    /\ occurrences (Shell.reauthCommand (a_name alice)) message <> 1.
Proof.
  eexists. split; [vm_compute; reflexivity|].
  split; [reflexivity|]. split; [now left|].
  split; [reflexivity|]. split; [reflexivity|].
  split; [reflexivity|]. split; [reflexivity|].
  vm_compute. discriminate.
Qed.

Lemma empty_selection_goes_unauthenticated_witness :
  fst (run_sample body path keyless) = Returned 200
  /\ attempts handlers (trace (snd (run_sample body path keyless))) = [].
Proof.
  destruct (empty_selection_goes_unauthenticated handlers body path keyless
              0 body untouched None 0 (Returned 200) 1)
    as (Hout & _ & _ & Hnone & _).
  - exact (sample_selection body keyless untouched eq_refl).
  - reflexivity.
  - split; [exact Hout | exact Hnone].
Defined.

Lemma exhausted_accounts_reported_witness :
  exists message,
    fst (run_sample body path silent)
    = Thrown (ServiceUnavailableError message "anthropic")
    /\ includes "2" message = true
    /\ includes "--reauthenticate" message = false.
Proof.
  destruct (exhausted_accounts_reported handlers body path silent
              0 body untouched None (c_pool silent) 0 after)
    as (message & Hthrown & _ & Hcount & Hplain & _).
  - now apply sample_selection.
  - discriminate.
  - reflexivity.
  - intros j Hj. destruct j as [|[|j]]; try reflexivity; cbn in Hj; lia.
  - intros a [<-|[<-|[]]]; reflexivity.
  - exists message. split; [exact Hthrown|]. split; [exact Hcount|].
    apply Hplain. reflexivity.
Defined.

Lemma validation_precedes_body_processing_witness :
  fst (run_sample body "/admin" answering)
  = Thrown (ValidationError "Provider cannot handle path")
  /\ existsb (is_body_or_later handlers)
       (trace (snd (run_sample body "/admin" answering))) = false.
Proof.
  destruct (proj1 (validation_precedes_body_processing handlers body "/admin"
                     answering)
              0 0 0 (ValidationError "Provider cannot handle path")
              eq_refl eq_refl) as [Hrun Hnone].
  split; [|exact Hnone]. unfold run_sample. now rewrite Hrun.
Defined.

Lemma reauthCommand_shell_safe_witness :
  Shell.shell_words (Shell.reauthCommand "o'neil")
  = Some ["bun"; "run"; "cli"; "--reauthenticate"; "o'neil"]
  /\ Shell.escape_single_quotes "alice" = "alice".
Proof.
  destruct (ShellFacts.reauthCommand_shell_safe "o'neil")
    as (Hwords & _ & _ & Hplain).
  split; [exact Hwords|]. apply Hplain. reflexivity.
Defined.

(** ** The usage worker *)

Import UsageWorker UsageWorkerFacts.

Example first_use_starts_a_worker :
  play [call_getUsageWorker true] = Some started
  /\ usageWorkerInstance started = Some 0
  /\ running started 0 = true.
Proof. repeat split. Qed.

Example crash_then_use :
  option_map (fun s => (usageWorkerInstance s, workers s, gone s))
    (play [call_getUsageWorker true; worker_error 0; call_getUsageWorker true])
  = Some (Some 1, 2, [0]).
Proof. reflexivity. Qed.

Example shutdown_then_grace_window :
  option_map observe
    (play [call_getUsageWorker true; call_terminateUsageWorker true])
  = Some (Some 0, true, [100])
  /\ option_map (fun s => (observe s, gone s))
       (play [call_getUsageWorker true; call_terminateUsageWorker true;
              tick 100; timeout 0 true])
     = Some ((None, false, []), [0])
  /\ play [call_getUsageWorker true; call_terminateUsageWorker true;
           tick 99; timeout 0 true] = None.
Proof. repeat split. Qed.

Example shutdown_twice :
  option_map (fun s => (observe s, mailbox s))
    (play [call_getUsageWorker true; call_terminateUsageWorker true;
           call_terminateUsageWorker true])
  = Some ((Some 0, true, [100]), [(0, shutdown); (0, shutdown)]).
Proof. reflexivity. Qed.

Example shutdown_of_a_dead_worker :
  option_map observe
    (play [call_getUsageWorker true; worker_exit 0;
           call_terminateUsageWorker false])
  = Some (None, false, []).
Proof. reflexivity. Qed.

(** The timeout of a shutdown stops whichever worker the singleton holds
    when it fires: here worker 1, started after worker 0 failed. *)
Example timeout_after_recovery :
  option_map (fun s => (usageWorkerInstance s, gone s))
    (play [call_getUsageWorker true; call_terminateUsageWorker true;
           worker_error 0; call_getUsageWorker true; tick 100;
           timeout 0 true])
  = Some (None, [1; 0]).
Proof. reflexivity. Qed.

Lemma worker_error_recovery_witness :
  exists s1,
    step delay embedded (worker_error 0) started = Some s1
    /\ usageWorkerInstance s1 = None
    /\ fst (getUsageWorker embedded true s1) = Returned (Some 1).
Proof.
  destruct (worker_error_recovery delay embedded
              [call_getUsageWorker true] started 0 eq_refl eq_refl)
    as (s1 & Hstep & Hnone & (s2 & Hget & _) & _).
  exists s1. split; [exact Hstep|]. split; [exact Hnone|].
  injection Hstep as <-. reflexivity.
Defined.

Lemma terminateUsageWorker_idempotent_witness :
  observe (snd (terminateUsageWorker delay true
                  (snd (terminateUsageWorker delay true started))))
  = observe (snd (terminateUsageWorker delay true started))
  /\ observe (snd (terminateUsageWorker delay false
                     (snd (terminateUsageWorker delay true started))))
     = observe (snd (terminateUsageWorker delay false started)).
Proof.
  split.
  - exact (proj1 (terminateUsageWorker_idempotent delay embedded
                    [call_getUsageWorker true] started true true eq_refl)).
  - exact (proj1 (terminateUsageWorker_idempotent delay embedded
                    [call_getUsageWorker true] started true false eq_refl)).
Defined.

Lemma terminateUsageWorker_absorbs_faults_witness :
  fst (terminateUsageWorker delay false started) = Returned tt
  /\ usageWorkerInstance (snd (terminateUsageWorker delay false started))
     = None
  /\ timers (snd (terminateUsageWorker delay false started)) = [].
Proof.
  destruct (terminateUsageWorker_absorbs_faults delay embedded)
    as (Hfail & Hnone & _).
  destruct (Hfail started 0 eq_refl) as (Hret & Hinst & _).
  split; [exact Hret|]. split; [exact Hinst|].
  exact (Hnone [call_getUsageWorker true] started 0 eq_refl eq_refl).
Defined.

End SampleRuns.

(* ===================================================================== *)
(** * Whole runs of [handleProxy] *)
(* ===================================================================== *)

Module ProxyRunFacts.

Import JsString JsStringFacts Proxy ProxyFacts ProxyCalls.

Section Runs.

Variable H : Handlers.
Variables (req : Request H) (url : URL H) (ctx : ProxyContext H).

(** ** The loop, outcome by outcome *)

Section Attempts.

Variables (requestMeta : RequestMeta H) (body : option bytes).
Variable f : BodyStreamFactory.

Local Abbreviation loop :=
  (try_each_account H req url requestMeta body f ctx).
Local Abbreviation ask := (fun account i =>
  proxyWithAccount H req url account requestMeta body f i ctx).
Local Abbreviation calls := (attempt_calls H req url ctx requestMeta body f).
Local Abbreviation step10 := (fun accounts (response : option (Response H)) =>
  match response with
  | Some resp => ret resp
  | None => all_accounts_failed H ctx accounts
  end).

(** The loop, when the account at position [k] is the first not to answer
    absent and throws. *)
Lemma loop_first_throw (accounts : list (Account H)) :
  forall (k i : nat) (s : Sys H) (ws : nat -> World H)
         (account : Account H) (e : Exn) (w' : World H),
    world s = ws i ->
    (forall j a, j < k -> nth_error accounts j = Some a ->
       ask a (i + j) (ws (i + j)) = (Returned None, ws (S (i + j)))) ->
    nth_error accounts k = Some account ->
    ask account (i + k) (ws (i + k)) = (Thrown e, w') ->
    loop accounts i s
    = (Thrown e, mkSys w' (trace s ++ calls (firstn (S k) accounts) i)).
Proof.
  induction accounts as [|a rest IH];
    intros k i s ws account e w' Hw Hbefore Hk Hthrow.
  - destruct k; discriminate.
  - rewrite loop_cons, Hw. destruct k as [|k].
    + injection Hk as ->. rewrite Nat.add_0_r in Hthrow. rewrite Hthrow.
      reflexivity.
    + pose proof (Hbefore 0 a (Nat.lt_0_succ k) eq_refl) as H0.
      rewrite Nat.add_0_r in H0. rewrite H0.
      rewrite (IH k (S i) _ ws account e w').
      * cbn [firstn]. simpl. now rewrite <- app_assoc.
      * reflexivity.
      * intros j a' Hj Hnth.
        specialize (Hbefore (S j) a' (proj1 (Nat.succ_lt_mono j k) Hj) Hnth).
        now rewrite Nat.add_succ_r in Hbefore.
      * exact Hk.
      * now rewrite Nat.add_succ_r in Hthrow.
Qed.

(** A response that leaves the loop is the answer of one account, every
    account before it having answered absent. *)
Lemma loop_response_origin (accounts : list (Account H)) :
  forall (i : nat) (s s' : Sys H) (resp : Response H),
    loop accounts i s = (Returned (Some resp), s') ->
    exists (k : nat) (ws : nat -> World H) (account : Account H),
      ws 0 = world s
      /\ (forall j a, j < k -> nth_error accounts j = Some a ->
            ask a (i + j) (ws j) = (Returned None, ws (S j)))
      /\ nth_error accounts k = Some account
      /\ ask account (i + k) (ws k) = (Returned (Some resp), world s').
Proof.
  induction accounts as [|a rest IH]; intros i s s' resp Hrun.
  - discriminate.
  - rewrite loop_cons in Hrun.
    destruct (ask a i (world s)) as [[[r|]|e] w1] eqn:Ea.
    + injection Hrun as <- <-.
      exists 0, (fun _ => world s), a. rewrite Nat.add_0_r.
      split; [reflexivity|]. split; [intros j a' Hj; lia|].
      split; [reflexivity | exact Ea].
    + destruct (IH (S i) _ s' resp Hrun) as (k & ws & account & H0 & Hb & Hk & Hr).
      exists (S k), (fun j => match j with 0 => world s | S j' => ws j' end),
             account.
      split; [reflexivity|]. split; [|split].
      * intros j a' Hj Hnth. destruct j as [|j].
        -- injection Hnth as <-. rewrite Nat.add_0_r, H0. exact Ea.
        -- rewrite Nat.add_succ_r. apply (Hb j a'); [lia | exact Hnth].
      * exact Hk.
      * rewrite Nat.add_succ_r. exact Hr.
    + discriminate.
Qed.

(** Whatever the loop ends with, steps 9 and 10 add attempts on a prefix
    of the accounts and nothing else. *)
Lemma attempts_then_step10 (accounts : list (Account H)) (s : Sys H) :
  exists n,
    trace (snd (bind (loop accounts 0) (step10 accounts) s))
    = (trace s ++ calls (firstn n accounts) 0)%list.
Proof.
  destruct (loop_trace H req url ctx requestMeta body f accounts 0 s)
    as [n Hn].
  exists n. unfold bind.
  destruct (loop accounts 0 s) as [[[resp|]|e] s1]; cbn [snd] in *;
    rewrite ?all_accounts_failed_trace; exact Hn.
Qed.

(** Steps 9 and 10 after the log lines [logs]. *)
Lemma logged_then_attempts (accounts : list (Account H)) (s s1 : Sys H)
  (logs : list (Call H)) :
  accounts <> [] ->
  forallb (is_log_info H) logs = true ->
  trace s1 = (trace s ++ logs)%list ->
  exists l,
    trace (snd (bind (loop accounts 0) (step10 accounts) s1))
    = (trace s ++ l)%list
    /\ proxy_tail H req url ctx requestMeta body f accounts l.
Proof.
  intros Hne Hlogs Hs1.
  destruct (attempts_then_step10 accounts s1) as [n Hn].
  exists (logs ++ calls (firstn n accounts) 0)%list. split.
  - now rewrite Hn, Hs1, app_assoc.
  - right. split; [exact Hne|]. now exists logs, n.
Qed.

(** The calls of steps 7 to 10, whatever the collaborators answer. *)
Lemma proxy_selected_tail (accounts : list (Account H)) (s : Sys H) :
  exists l,
    trace (snd (proxy_selected H req url ctx requestMeta body f accounts s))
    = (trace s ++ l)%list
    /\ proxy_tail H req url ctx requestMeta body f accounts l.
Proof.
  unfold proxy_selected.
  destruct (Nat.eqb_spec (length accounts) 0) as [Hlen|Hlen].
  - apply length_zero_iff_nil in Hlen. unfold call.
    destruct (proxyUnauthenticated H req url requestMeta body f ctx (world s))
      as [o w7].
    eexists. split; [reflexivity|]. left. now split.
  - assert (Hne : accounts <> [])
      by (intros E; apply Hlen; now rewrite E).
    unfold bind at 1. unfold log_info at 1.
    unfold bind at 1. unfold read_world at 1. cbn [world trace].
    unfold bind at 1.
    destruct (debug_logging H (world s)); unfold log_info; cbn [world trace].
    + match goal with
      | |- context [((trace s ++ [?c1]) ++ [?c2])%list] =>
          apply (logged_then_attempts accounts s _ [c1; c2] Hne eq_refl)
      end.
      cbn [trace]. now rewrite <- app_assoc.
    + match goal with
      | |- context [(trace s ++ [?c1])%list] =>
          apply (logged_then_attempts accounts s _ [c1] Hne eq_refl)
      end.
      reflexivity.
Qed.

End Attempts.

(** ** The calls of a run *)

Local Abbreviation c_track := (Call_trackClientVersion H (user_agent H req)).
Local Abbreviation c_validate :=
  (Call_validateProviderPath H (provider H ctx) (pathname H url)).
Local Abbreviation c_prepare := (Call_prepareRequestBody H req).
Local Abbreviation c_intercept buffer :=
  (Call_interceptAndModifyRequest H buffer (dbOps H ctx)).
Local Abbreviation c_metadata := (Call_createRequestMetadata H req url).
Local Abbreviation final_meta r meta := (set_agentUsed H meta (agentUsed r)).
Local Abbreviation final_body r buffer := (or_else (modifiedBody r) buffer).
Local Abbreviation run w := (handleProxy H req url ctx (enter H w)).

(** Step 5 throws. *)
Lemma metadata_throws (w : World H) (buffer : option bytes)
  (r : InterceptResult) (w4 w5 : World H) (e : Exn) :
  reaches_interception H req url ctx w buffer r w4 ->
  createRequestMetadata H req url w4 = (Thrown e, w5) ->
  run w
  = (Thrown e,
     mkSys w5 (interception_trace H req url ctx buffer r ++ [c_metadata])).
Proof.
  intros Hint Hmeta.
  rewrite (handleProxy_intercepted _ _ _ _ _ _ _ _ Hint).
  answer_call Hmeta. reflexivity.
Qed.

(** Step 6 throws. *)
Lemma selection_throws (w : World H) (buffer : option bytes)
  (r : InterceptResult) (meta : RequestMeta H) (w5 w6 : World H) (e : Exn) :
  reaches_metadata H req url ctx w buffer r meta w5 ->
  selectAccountsForRequest H (final_meta r meta) ctx w5 = (Thrown e, w6) ->
  run w = (Thrown e, mkSys w6 (selection_trace H req url ctx buffer r meta)).
Proof.
  intros (w4 & Hint & Hmeta) Hsel.
  rewrite (handleProxy_intercepted _ _ _ _ _ _ _ _ Hint).
  answer_call Hmeta. answer_call Hsel.
  unfold selection_trace. now rewrite <- app_assoc.
Qed.

(** Steps 1 to 6 return: what follows is the tail of steps 7 to 10. *)
Lemma selected_tail (w : World H) (buffer : option bytes)
  (r : InterceptResult) (meta : RequestMeta H) (accounts : list (Account H))
  (w6 : World H) :
  reaches_selection H req url ctx w buffer r meta accounts w6 ->
  exists l,
    trace (snd (run w))
    = (selection_trace H req url ctx buffer r meta ++ l)%list
    /\ proxy_tail H req url ctx (final_meta r meta) (final_body r buffer)
         (finalCreateBodyStream (final_body r buffer)) accounts l.
Proof.
  intros Hsel. rewrite (handleProxy_selected _ _ _ _ _ _ _ _ _ _ Hsel).
  apply proxy_selected_tail.
Qed.

(** Steps 1 to 4 throw. *)
Lemma track_throws (w w1 : World H) (e : Exn) :
  trackClientVersion H (user_agent H req) w = (Thrown e, w1) ->
  run w = (Thrown e, mkSys w1 [c_track]).
Proof.
  intros E. unfold handleProxy, enter. answer_call E. reflexivity.
Qed.

Lemma validation_throws (w w1 w2 : World H) (e : Exn) :
  trackClientVersion H (user_agent H req) w = (Returned tt, w1) ->
  validateProviderPath H (provider H ctx) (pathname H url) w1
    = (Thrown e, w2) ->
  run w = (Thrown e, mkSys w2 [c_track; c_validate]).
Proof.
  intros E1 E2. unfold handleProxy, enter.
  answer_call E1. answer_call E2. reflexivity.
Qed.

Lemma preparation_throws (w w1 w2 w3 : World H) (e : Exn) :
  trackClientVersion H (user_agent H req) w = (Returned tt, w1) ->
  validateProviderPath H (provider H ctx) (pathname H url) w1
    = (Returned tt, w2) ->
  prepareRequestBody H req w2 = (Thrown e, w3) ->
  run w = (Thrown e, mkSys w3 [c_track; c_validate; c_prepare]).
Proof.
  intros E1 E2 E3. unfold handleProxy, enter.
  answer_call E1. answer_call E2. answer_call E3. reflexivity.
Qed.

Lemma interception_throws (w w1 w2 w3 w4 : World H)
  (buffer : option bytes) (e : Exn) :
  trackClientVersion H (user_agent H req) w = (Returned tt, w1) ->
  validateProviderPath H (provider H ctx) (pathname H url) w1
    = (Returned tt, w2) ->
  prepareRequestBody H req w2 = (Returned buffer, w3) ->
  interceptAndModifyRequest H buffer (dbOps H ctx) w3 = (Thrown e, w4) ->
  run w
  = (Thrown e,
     mkSys w4 [c_track; c_validate; c_prepare; c_intercept buffer]).
Proof.
  intros E1 E2 E3 E4. unfold handleProxy, enter.
  answer_call E1. answer_call E2. answer_call E3. answer_call E4.
  reflexivity.
Qed.

(** ** Filtering the calls of steps 7 to 10 *)

Lemma filter_attempt_calls (p : Call H -> bool)
  (requestMeta : RequestMeta H) (body : option bytes)
  (f : BodyStreamFactory) (accounts : list (Account H)) :
  (forall rq u a m b g i cx,
     p (Call_proxyWithAccount H rq u a m b g i cx) = false) ->
  forall i,
    filter p (attempt_calls H req url ctx requestMeta body f accounts i) = [].
Proof.
  intros Hp. induction accounts as [|a rest IH]; intros i; [reflexivity|].
  cbn [attempt_calls filter]. rewrite Hp. apply IH.
Qed.

Lemma filter_logs (p : Call H -> bool) (logs : list (Call H)) :
  (forall c, is_log_info H c = true -> p c = false) ->
  forallb (is_log_info H) logs = true ->
  filter p logs = [].
Proof.
  intros Hp. induction logs as [|c logs IH]; [reflexivity|].
  cbn [forallb filter]. intros E. apply andb_true_iff in E as [Ec E].
  rewrite (Hp c Ec). now apply IH.
Qed.

Lemma attempts_logs (logs : list (Call H)) :
  forallb (is_log_info H) logs = true -> attempts H logs = [].
Proof.
  induction logs as [|c logs IH]; [reflexivity|].
  cbn [forallb]. intros E. apply andb_true_iff in E as [Ec E].
  destruct c; try discriminate. simpl. now apply IH.
Qed.

Lemma tail_filter (p : Call H -> bool)
  (requestMeta : RequestMeta H) (body : option bytes)
  (f : BodyStreamFactory) (accounts : list (Account H)) (l : list (Call H)) :
  (forall c, is_log_info H c = true -> p c = false) ->
  (forall c, is_proxy_call H c = true -> p c = false) ->
  proxy_tail H req url ctx requestMeta body f accounts l ->
  filter p l = [].
Proof.
  intros Hlog Hproxy [[_ ->]|(_ & logs & n & Hlogs & ->)].
  - cbn [filter]. now rewrite Hproxy.
  - rewrite filter_app, filter_logs, filter_attempt_calls; try easy.
    intros. now apply Hproxy.
Qed.

Lemma tail_unauthenticated (requestMeta : RequestMeta H)
  (body : option bytes) (f : BodyStreamFactory)
  (accounts : list (Account H)) (l : list (Call H)) :
  proxy_tail H req url ctx requestMeta body f accounts l ->
  length (filter (is_proxyUnauthenticated H) l) <= 1
  /\ (accounts <> [] -> filter (is_proxyUnauthenticated H) l = []).
Proof.
  intros [[-> ->]|(Hne & logs & n & Hlogs & ->)].
  - split; [simpl; lia | congruence].
  - assert (E : filter (is_proxyUnauthenticated H)
                  (logs ++ attempt_calls H req url ctx requestMeta body f
                             (firstn n accounts) 0) = []).
    { rewrite filter_app, filter_logs, filter_attempt_calls;
        try reflexivity; try assumption.
      intros c; destruct c; intros; (discriminate || reflexivity). }
    rewrite E. split; [simpl; lia | reflexivity].
Qed.

Lemma firstn_min {A} (l : list A) (n : nat) :
  firstn (Nat.min n (length l)) l = firstn n l.
Proof.
  destruct (Nat.le_ge_cases n (length l)) as [Hle|Hge].
  - now rewrite Nat.min_l.
  - rewrite Nat.min_r by exact Hge.
    now rewrite firstn_all, firstn_all2.
Qed.

Lemma tail_attempts (requestMeta : RequestMeta H)
  (body : option bytes) (f : BodyStreamFactory)
  (accounts : list (Account H)) (l : list (Call H)) :
  proxy_tail H req url ctx requestMeta body f accounts l ->
  exists n,
    n <= length accounts
    /\ attempts H l = combine (firstn n accounts) (seq 0 n).
Proof.
  intros [[-> ->]|(Hne & logs & n & Hlogs & ->)].
  - exists 0. now split.
  - exists (Nat.min n (length accounts)). split; [apply Nat.le_min_r|].
    rewrite attempts_app, attempts_logs, attempts_calls by exact Hlogs.
    rewrite length_firstn, firstn_min. reflexivity.
Qed.

Lemma filter_unauthenticated_early (logs : list (Call H)) :
  Forall (fun c => is_body_or_later H c = false) logs ->
  filter (is_proxyUnauthenticated H) logs = [].
Proof.
  induction 1 as [|c logs Hc _ IH]; [reflexivity|].
  cbn [filter]. rewrite IH. destruct c; try reflexivity; discriminate.
Qed.

(** ** An attempt that throws *)

(** X1. When the account at position k (from 0) is the first not to answer
    absent and its [proxyWithAccount] call throws, [handleProxy] throws
    that error.  It has tried the accounts 0 to k and no other: the
    accounts after k are not tried, the unauthenticated path is not
    taken, and no [ServiceUnavailableError] is built. *)
Theorem failed_attempt_ends_failover
  (w : World H) (buffer : option bytes) (r : InterceptResult)
  (meta : RequestMeta H) (accounts : list (Account H)) (w6 : World H)
  (ws : nat -> World H) (k : nat) (e : Exn) (w' : World H) :
  reaches_selection H req url ctx w buffer r meta accounts w6 ->
  ws 0 = w6 ->
  absent_before H req url ctx buffer r meta accounts ws k ->
  attempt H req url ctx buffer r meta accounts k (ws k)
    = Some (Thrown e, w') ->
  fst (run w) = Thrown e
  /\ world (snd (run w)) = w'
  /\ attempts H (trace (snd (run w)))
     = combine (firstn (S k) accounts) (seq 0 (S k))
  /\ length (attempts H (trace (snd (run w)))) = S k
  /\ filter (is_proxyUnauthenticated H) (trace (snd (run w))) = [].
Proof.
  intros Hsel Hw0 Habs Hthrow.
  unfold attempt in Hthrow.
  destruct (nth_error accounts k) as [account|] eqn:Hnth; [|discriminate].
  injection Hthrow as Hthrow.
  assert (Hlen : S k <= length accounts).
  { assert (k < length accounts)
      by (apply nth_error_Some; rewrite Hnth; discriminate).
    lia. }
  assert (Hne : accounts <> []) by (intros ->; destruct k; discriminate).
  rewrite (handleProxy_selected _ _ _ _ _ _ _ _ _ _ Hsel).
  destruct (proxy_selected_nonempty H req url ctx
              (final_meta r meta) (final_body r buffer)
              (finalCreateBodyStream (final_body r buffer)) accounts
              (mkSys w6 (selection_trace H req url ctx buffer r meta)) Hne)
    as (logs & Hlogs & _ & Hearly & ->).
  unfold bind.
  rewrite (loop_first_throw _ _ _ accounts k 0 _ ws account e w').
  - cbn [fst snd world trace].
    rewrite !attempts_app, attempts_selection_trace, Hlogs, attempts_calls.
    rewrite !filter_app, unauthenticated_selection_trace,
      (filter_unauthenticated_early logs Hearly), filter_attempt_calls
      by reflexivity.
    repeat rewrite app_nil_l.
    rewrite (firstn_length_exact _ _ Hlen).
    repeat split.
    rewrite length_combine, length_seq, (firstn_length_exact _ _ Hlen). lia.
  - cbn [world]. now rewrite Hw0.
  - intros j a Hj Ha. specialize (Habs j Hj). unfold attempt in Habs.
    rewrite Ha in Habs. now injection Habs.
  - exact Hnth.
  - exact Hthrow.
Qed.

(** ** Where a response comes from *)

Lemma all_accounts_failed_throws (accounts : list (Account H)) (s : Sys H) :
  exists message,
    fst (all_accounts_failed H ctx accounts s)
    = Thrown (ServiceUnavailableError message
                (provider_name H (provider H ctx))).
Proof.
  unfold all_accounts_failed, bind, read_world.
  destruct (0 <? length (needsReauth H accounts (world s)))%nat;
    eexists; reflexivity.
Qed.

(** X2. A response [handleProxy] returns is one a collaborator returned: the
    response of [proxyUnauthenticated] when nothing was selected,
    otherwise the response of the first account that did not answer
    absent.  [handleProxy] makes no response of its own. *)
Theorem response_comes_from_upstream
  (w : World H) (buffer : option bytes) (r : InterceptResult)
  (meta : RequestMeta H) (accounts : list (Account H)) (w6 : World H)
  (resp : Response H) :
  reaches_selection H req url ctx w buffer r meta accounts w6 ->
  fst (run w) = Returned resp ->
  (accounts = []
   /\ proxyUnauthenticated H req url (final_meta r meta)
        (final_body r buffer)
        (finalCreateBodyStream (final_body r buffer)) ctx w6
      = (Returned resp, world (snd (run w))))
  \/ (exists (k : nat) (ws : nat -> World H),
        k < length accounts
        /\ ws 0 = w6
        /\ absent_before H req url ctx buffer r meta accounts ws k
        /\ attempt H req url ctx buffer r meta accounts k (ws k)
           = Some (Returned (Some resp), world (snd (run w)))).
Proof.
  intros Hsel. rewrite (handleProxy_selected _ _ _ _ _ _ _ _ _ _ Hsel).
  destruct accounts as [|a0 rest] eqn:Eacc.
  - unfold proxy_selected. cbn [length Nat.eqb]. unfold call. cbn [world].
    destruct (proxyUnauthenticated H req url (final_meta r meta)
                (final_body r buffer)
                (finalCreateBodyStream (final_body r buffer)) ctx w6)
      as [o w7].
    cbn [fst snd world]. intros ->. left. now split.
  - rewrite <- Eacc.
    assert (Hne : accounts <> []) by (rewrite Eacc; discriminate).
    destruct (proxy_selected_nonempty H req url ctx
                (final_meta r meta) (final_body r buffer)
                (finalCreateBodyStream (final_body r buffer)) accounts
                (mkSys w6 (selection_trace H req url ctx buffer r meta)) Hne)
      as (logs & _ & _ & _ & ->).
    unfold bind.
    match goal with
    | |- context [try_each_account H req url ?m ?b ?g ctx accounts 0 ?st] =>
        destruct (try_each_account H req url m b g ctx accounts 0 st)
          as [[[resp'|]|e] s1] eqn:Eloop
    end.
    + cbn [ret fst snd]. intros [= ->]. right.
      destruct (loop_response_origin _ _ _ accounts 0 _ s1 resp Eloop)
        as (k & ws & account & H0 & Hb & Hk & Hr).
      cbn [world] in H0.
      assert (Hlt : k < length accounts)
        by (apply nth_error_Some; rewrite Hk; discriminate).
      exists k, ws. split; [exact Hlt|]. split; [exact H0|]. split.
      * intros j Hj. unfold attempt.
        destruct (nth_error accounts j) as [a|] eqn:Ha.
        -- now rewrite <- (Hb j a Hj Ha).
        -- apply nth_error_None in Ha. lia.
      * unfold attempt. rewrite Hk. now rewrite <- Hr.
    + destruct (all_accounts_failed_throws accounts s1) as [message E].
      cbv beta iota. rewrite E. discriminate.
    + discriminate.
Qed.

(** ** Every outcome at once *)

(** X3. Whatever the selected accounts answer (absent, a response or an
    error), [handleProxy] tries a prefix of the list, each account once,
    in list order, numbering the attempts from 0; and once accounts were
    selected it never takes the unauthenticated path, not even when all
    of them fail. *)
Theorem accounts_tried_once_in_order
  (w : World H) (buffer : option bytes) (r : InterceptResult)
  (meta : RequestMeta H) (accounts : list (Account H)) (w6 : World H) :
  reaches_selection H req url ctx w buffer r meta accounts w6 ->
  (exists n,
     n <= length accounts
     /\ attempts H (trace (snd (run w)))
        = combine (firstn n accounts) (seq 0 n))
  /\ length (attempts H (trace (snd (run w)))) <= length accounts
  /\ (accounts <> [] ->
      filter (is_proxyUnauthenticated H) (trace (snd (run w))) = []).
Proof.
  intros Hsel.
  destruct (selected_tail _ _ _ _ _ _ Hsel) as (l & -> & Htail).
  destruct (tail_attempts _ _ _ _ _ Htail) as (n & Hn & Hl).
  rewrite attempts_app, attempts_selection_trace, Hl, app_nil_l.
  split; [now exists n|]. split.
  - rewrite length_combine, length_seq, length_firstn. lia.
  - intros Hne.
    rewrite filter_app, unauthenticated_selection_trace.
    exact (proj2 (tail_unauthenticated _ _ _ _ _ Htail) Hne).
Qed.

Lemma proxy_calls_interception_trace (buffer : option bytes)
  (r : InterceptResult) (extra : list (Call H)) :
  filter (is_proxy_call H) extra = [] ->
  filter (is_proxy_call H)
    (interception_trace H req url ctx buffer r ++ extra) = [].
Proof.
  intros E. rewrite filter_app, E. unfold interception_trace.
  destruct (model_changed r); reflexivity.
Qed.

(** X4. An error thrown by [prepareRequestBody], by
    [interceptAndModifyRequest], by [createRequestMetadata] or by
    [selectAccountsForRequest] leaves [handleProxy] as it was thrown, in
    the world the failing call left, and the request is forwarded
    nowhere: neither [proxyWithAccount] nor [proxyUnauthenticated] is
    called. *)
Theorem collaborator_errors_propagate :
  (forall (w w1 w2 w3 : World H) (e : Exn),
     trackClientVersion H (user_agent H req) w = (Returned tt, w1) ->
     validateProviderPath H (provider H ctx) (pathname H url) w1
       = (Returned tt, w2) ->
     prepareRequestBody H req w2 = (Thrown e, w3) ->
     fst (run w) = Thrown e /\ world (snd (run w)) = w3
     /\ filter (is_proxy_call H) (trace (snd (run w))) = [])
  /\ (forall (w w1 w2 w3 w4 : World H) (buffer : option bytes) (e : Exn),
        trackClientVersion H (user_agent H req) w = (Returned tt, w1) ->
        validateProviderPath H (provider H ctx) (pathname H url) w1
          = (Returned tt, w2) ->
        prepareRequestBody H req w2 = (Returned buffer, w3) ->
        interceptAndModifyRequest H buffer (dbOps H ctx) w3 = (Thrown e, w4) ->
        fst (run w) = Thrown e /\ world (snd (run w)) = w4
        /\ filter (is_proxy_call H) (trace (snd (run w))) = [])
  /\ (forall (w w4 w5 : World H) (buffer : option bytes)
             (r : InterceptResult) (e : Exn),
        reaches_interception H req url ctx w buffer r w4 ->
        createRequestMetadata H req url w4 = (Thrown e, w5) ->
        fst (run w) = Thrown e /\ world (snd (run w)) = w5
        /\ filter (is_proxy_call H) (trace (snd (run w))) = [])
  /\ (forall (w w5 w6 : World H) (buffer : option bytes)
             (r : InterceptResult) (meta : RequestMeta H) (e : Exn),
        reaches_metadata H req url ctx w buffer r meta w5 ->
        selectAccountsForRequest H (final_meta r meta) ctx w5
          = (Thrown e, w6) ->
        fst (run w) = Thrown e /\ world (snd (run w)) = w6
        /\ filter (is_proxy_call H) (trace (snd (run w))) = []).
Proof.
  split; [|split; [|split]].
  - intros w w1 w2 w3 e E1 E2 E3.
    rewrite (preparation_throws w w1 w2 w3 e E1 E2 E3). now repeat split.
  - intros w w1 w2 w3 w4 buffer e E1 E2 E3 E4.
    rewrite (interception_throws w w1 w2 w3 w4 buffer e E1 E2 E3 E4).
    now repeat split.
  - intros w w4 w5 buffer r e Hint Hmeta.
    rewrite (metadata_throws w buffer r w4 w5 e Hint Hmeta).
    cbn [fst snd world trace]. repeat split.
    now apply proxy_calls_interception_trace.
  - intros w w5 w6 buffer r meta e Hmeta Hsel.
    rewrite (selection_throws w buffer r meta w5 w6 e Hmeta Hsel).
    cbn [fst snd world trace]. repeat split.
    unfold selection_trace. now apply proxy_calls_interception_trace.
Qed.

(** ** What the calls carry *)

Lemma tail_delivers (requestMeta : RequestMeta H) (body : option bytes)
  (f : BodyStreamFactory) (accounts : list (Account H)) (l : list (Call H)) :
  proxy_tail H req url ctx requestMeta body f accounts l ->
  Forall (delivers_only H body f) l
  /\ Forall (fun c => forall m, carried_meta H c = Some m -> m = requestMeta) l.
Proof.
  intros [[_ ->]|(_ & logs & n & Hlogs & ->)].
  - split.
    + constructor; [|constructor]. intros b g [= <- <-]. now split.
    + constructor; [|constructor]. now intros m [= <-].
  - split; apply Forall_app; split.
    + clear -Hlogs. induction logs as [|c logs IH]; constructor.
      * cbn [forallb] in Hlogs. apply andb_true_iff in Hlogs as [Hc _].
        destruct c; discriminate.
      * apply IH. cbn [forallb] in Hlogs.
        now apply andb_true_iff in Hlogs as [_ Hlogs].
    + apply calls_deliver.
    + clear -Hlogs. induction logs as [|c logs IH]; constructor.
      * cbn [forallb] in Hlogs. apply andb_true_iff in Hlogs as [Hc _].
        destruct c; discriminate.
      * apply IH. cbn [forallb] in Hlogs.
        now apply andb_true_iff in Hlogs as [_ Hlogs].
    + generalize 0. generalize (firstn n accounts).
      intros l. induction l as [|a l IH]; intros i; constructor.
      * now intros m [= <-].
      * apply IH.
Qed.

Lemma interception_trace_carries (m : RequestMeta H)
  (buffer : option bytes) (r : InterceptResult) :
  Forall (fun c => forall m', carried_meta H c = Some m' -> m' = m)
         (interception_trace H req url ctx buffer r).
Proof.
  unfold interception_trace.
  destruct (model_changed r); repeat (constructor; [now intros ?|]);
    constructor.
Qed.

(** X5. Whether or not the request has a body, every account attempt and the
    unauthenticated fallback receive the replacement body when
    [interceptAndModifyRequest] returned one and what
    [prepareRequestBody] buffered otherwise.  In particular a request
    without a body is forwarded with the replacement if there is one;
    if there is none, the body is null and the stream factory answers
    undefined without making a stream. *)
Theorem bodiless_request_forwarded
  (w : World H) (buffer : option bytes) (r : InterceptResult)
  (w4 : World H) :
  reaches_interception H req url ctx w buffer r w4 ->
  forall c body f,
    In c (trace (snd (run w))) ->
    delivered H c = Some (body, f) ->
    body = match modifiedBody r with
           | Some replacement => Some replacement
           | None => buffer
           end
    /\ f = finalCreateBodyStream body
    /\ (buffer = None -> body = modifiedBody r)
    /\ (buffer = None -> modifiedBody r = None ->
        body = None /\ forall h : Streams, f h = (None, h)).
Proof.
  intros Hint.
  assert (Hall : Forall (delivers_only H (final_body r buffer)
                           (finalCreateBodyStream (final_body r buffer)))
                        (trace (snd (run w)))).
  { pose proof (interception_trace_delivers H req url ctx
                  (final_body r buffer)
                  (finalCreateBodyStream (final_body r buffer)) buffer r)
      as Hpre.
    destruct (createRequestMetadata H req url w4) as [[meta|e] w5] eqn:Em.
    2:{ rewrite (metadata_throws w buffer r w4 w5 e Hint Em). cbn [snd trace].
        apply Forall_app; split; [exact Hpre|].
        constructor; [now intros ? ? ?|constructor]. }
    assert (Hmeta : reaches_metadata H req url ctx w buffer r meta w5)
      by (now exists w4).
    assert (Hsel_trace :
      Forall (delivers_only H (final_body r buffer)
                (finalCreateBodyStream (final_body r buffer)))
             (selection_trace H req url ctx buffer r meta)).
    { unfold selection_trace. apply Forall_app; split; [exact Hpre|].
      repeat (constructor; [now intros ? ? ?|]). constructor. }
    destruct (selectAccountsForRequest H (final_meta r meta) ctx w5)
      as [[accounts|e] w6] eqn:Es.
    2:{ now rewrite (selection_throws w buffer r meta w5 w6 e Hmeta Es). }
    assert (Hsel : reaches_selection H req url ctx w buffer r meta accounts w6)
      by (now exists w4, w5).
    destruct (selected_tail _ _ _ _ _ _ Hsel) as (l & -> & Htail).
    apply Forall_app; split; [exact Hsel_trace|].
    exact (proj1 (tail_delivers _ _ _ _ _ Htail)). }
  intros c body f Hin Hc.
  destruct (proj1 (Forall_forall _ _) Hall c Hin body f Hc) as [-> ->].
  unfold or_else.
  split; [now destruct (modifiedBody r)|]. split; [reflexivity|]. split.
  - intros ->. now destruct (modifiedBody r).
  - intros -> ->. now split.
Qed.

(** X6. The agent [interceptAndModifyRequest] detected is written into the
    request metadata before anything receives it: account selection,
    every account attempt and the unauthenticated fallback all receive
    the metadata of [createRequestMetadata] with [agentUsed] set. *)
Theorem agent_reaches_selection_and_attempts
  (w : World H) (buffer : option bytes) (r : InterceptResult)
  (meta : RequestMeta H) (w5 : World H) :
  reaches_metadata H req url ctx w buffer r meta w5 ->
  forall c m,
    In c (trace (snd (run w))) ->
    carried_meta H c = Some m ->
    m = set_agentUsed H meta (agentUsed r).
Proof.
  intros Hmeta.
  assert (Hall : Forall (fun c => forall m, carried_meta H c = Some m ->
                                   m = final_meta r meta)
                        (trace (snd (run w)))).
  { assert (Hsel_trace :
      Forall (fun c => forall m, carried_meta H c = Some m ->
                       m = final_meta r meta)
             (selection_trace H req url ctx buffer r meta)).
    { unfold selection_trace.
      apply Forall_app; split; [apply interception_trace_carries|].
      constructor; [now intros ?|].
      constructor; [now intros m [= <-]|constructor]. }
    destruct (selectAccountsForRequest H (final_meta r meta) ctx w5)
      as [[accounts|e] w6] eqn:Es.
    2:{ now rewrite (selection_throws w buffer r meta w5 w6 e Hmeta Es). }
    destruct Hmeta as (w4 & Hint & Hm).
    assert (Hsel : reaches_selection H req url ctx w buffer r meta accounts w6)
      by (now exists w4, w5).
    destruct (selected_tail _ _ _ _ _ _ Hsel) as (l & -> & Htail).
    apply Forall_app; split; [exact Hsel_trace|].
    exact (proj2 (tail_delivers _ _ _ _ _ Htail)). }
  intros c m Hin Hc.
  exact (proj1 (Forall_forall _ _) Hall c Hin m Hc).
Qed.

(** ** How often each collaborator is called *)

Ltac by_call_shape := intros c; destruct c; intros; (discriminate || reflexivity).

Lemma count_app (p : Call H -> bool) (t1 t2 : list (Call H)) :
  count H p (t1 ++ t2) = count H p t1 + count H p t2.
Proof.
  unfold count. now rewrite filter_app, length_app.
Qed.

Lemma count_tail_zero (p : Call H -> bool)
  (requestMeta : RequestMeta H) (body : option bytes)
  (f : BodyStreamFactory) (accounts : list (Account H)) (l : list (Call H)) :
  (forall c, is_log_info H c = true -> p c = false) ->
  (forall c, is_proxy_call H c = true -> p c = false) ->
  proxy_tail H req url ctx requestMeta body f accounts l ->
  count H p l = 0.
Proof.
  intros Hlog Hproxy Htail. unfold count.
  now rewrite (tail_filter p _ _ _ _ _ Hlog Hproxy Htail).
Qed.

(** X7. In every run of [handleProxy], whatever the collaborators do,
    [trackClientVersion] is the first call and is made exactly once, and
    [validateProviderPath], [prepareRequestBody],
    [interceptAndModifyRequest], [createRequestMetadata],
    [selectAccountsForRequest] and [proxyUnauthenticated] are each called
    at most once: the body is buffered once and the selection is made
    once for all attempts. *)
Theorem each_step_runs_at_most_once (w : World H) :
  let t := trace (snd (run w)) in
  (exists rest, t = c_track :: rest)
  /\ count H (is_trackClientVersion H) t = 1
  /\ count H (is_validateProviderPath H) t <= 1
  /\ count H (is_prepareRequestBody H) t <= 1
  /\ count H (is_intercept H) t <= 1
  /\ count H (is_createRequestMetadata H) t <= 1
  /\ count H (is_selectAccountsForRequest H) t <= 1
  /\ count H (is_proxyUnauthenticated H) t <= 1.
Proof.
  intros t. subst t.
  destruct (trackClientVersion H (user_agent H req) w)
    as [[[]|e] w1] eqn:E1.
  2:{ rewrite (track_throws w w1 e E1). cbn. repeat split; eauto. }
  destruct (validateProviderPath H (provider H ctx) (pathname H url) w1)
    as [[[]|e] w2] eqn:E2.
  2:{ rewrite (validation_throws w w1 w2 e E1 E2). cbn.
      repeat split; eauto. }
  destruct (prepareRequestBody H req w2) as [[buffer|e] w3] eqn:E3.
  2:{ rewrite (preparation_throws w w1 w2 w3 e E1 E2 E3). cbn.
      repeat split; eauto. }
  destruct (interceptAndModifyRequest H buffer (dbOps H ctx) w3)
    as [[r|e] w4] eqn:E4.
  2:{ rewrite (interception_throws w w1 w2 w3 w4 buffer e E1 E2 E3 E4). cbn.
      repeat split; eauto. }
  assert (Hint : reaches_interception H req url ctx w buffer r w4)
    by (now exists w1, w2, w3).
  destruct (createRequestMetadata H req url w4) as [[meta|e] w5] eqn:E5.
  2:{ rewrite (metadata_throws w buffer r w4 w5 e Hint E5).
      cbn [snd trace]. unfold interception_trace.
      destruct (model_changed r); cbn; repeat split; eauto. }
  assert (Hmeta : reaches_metadata H req url ctx w buffer r meta w5)
    by (now exists w4).
  destruct (selectAccountsForRequest H (final_meta r meta) ctx w5)
    as [[accounts|e] w6] eqn:E6.
  2:{ rewrite (selection_throws w buffer r meta w5 w6 e Hmeta E6).
      cbn [snd trace]. unfold selection_trace, interception_trace.
      destruct (model_changed r); cbn; repeat split; eauto. }
  assert (Hsel : reaches_selection H req url ctx w buffer r meta accounts w6)
    by (now exists w4, w5).
  destruct (selected_tail _ _ _ _ _ _ Hsel) as (l & -> & Htail).
  rewrite !count_app.
  rewrite (count_tail_zero (is_trackClientVersion H) _ _ _ _ _
             ltac:(by_call_shape) ltac:(by_call_shape) Htail).
  rewrite (count_tail_zero (is_validateProviderPath H) _ _ _ _ _
             ltac:(by_call_shape) ltac:(by_call_shape) Htail).
  rewrite (count_tail_zero (is_prepareRequestBody H) _ _ _ _ _
             ltac:(by_call_shape) ltac:(by_call_shape) Htail).
  rewrite (count_tail_zero (is_intercept H) _ _ _ _ _
             ltac:(by_call_shape) ltac:(by_call_shape) Htail).
  rewrite (count_tail_zero (is_createRequestMetadata H) _ _ _ _ _
             ltac:(by_call_shape) ltac:(by_call_shape) Htail).
  rewrite (count_tail_zero (is_selectAccountsForRequest H) _ _ _ _ _
             ltac:(by_call_shape) ltac:(by_call_shape) Htail).
  pose proof (proj1 (tail_unauthenticated _ _ _ _ _ Htail)) as Hun.
  fold (count H (is_proxyUnauthenticated H) l) in Hun.
  unfold selection_trace, interception_trace.
  destruct (model_changed r); cbn; repeat split; eauto; lia.
Qed.

End Runs.

End ProxyRunFacts.

(* ===================================================================== *)
(** * The remediation commands as a block *)
(* ===================================================================== *)

Module ShellBlockFacts.

Import JsString JsStringFacts Shell ShellFacts Proxy.

(** The four fixed words of a remediation command. *)
Local Abbreviation fixed := ["bun"; "run"; "cli"; "--reauthenticate"].

(** Words finished before the lexer starts stay in front, untouched. *)
Lemma lex_char_done (d d' : list string) (w : option string) (m : mode)
  (c : ascii) :
  lex_char (mkLexer (d ++ d')%list w m) c
  = match lex_char (mkLexer d' w m) c with
    | Some l => Some (mkLexer (d ++ done l)%list (word l) (st l))
    | None => None
    end.
Proof.
  unfold lex_char. cbn [st done word].
  destruct m;
    repeat match goal with
           | |- context [if ?b then _ else _] => destruct b
           end; try reflexivity.
  unfold flush. cbn [done word]. destruct w; cbn [done word st];
    [now rewrite app_assoc | reflexivity].
Qed.

Lemma lex_done (s : string) :
  forall (d d' : list string) (w : option string) (m : mode),
    lex (mkLexer (d ++ d')%list w m) s
    = option_map (fun ws => (d ++ ws)%list) (lex (mkLexer d' w m) s).
Proof.
  induction s as [|c s IH]; intros d d' w m.
  - cbn [lex st]. destruct m; try reflexivity.
    unfold flush. cbn [done word option_map].
    destruct w; [now rewrite app_assoc | reflexivity].
  - cbn [lex]. rewrite lex_char_done.
    destruct (lex_char (mkLexer d' w m) c) as [[d1 w1 m1]|]; [|reflexivity].
    cbn [done word st]. apply IH.
Qed.

(** Reading one remediation command: the lexer is left outside quotes,
    with the fixed words done and the name as the word in progress. *)
Lemma lex_command_first (name rest : string) :
  lex (mkLexer [] None Plain) (reauthCommand name ++ rest)
  = lex (mkLexer fixed (Some name) Plain) rest.
Proof.
  unfold reauthCommand. rewrite !append_assoc. simpl.
  rewrite lex_escaped. reflexivity.
Qed.

Lemma lex_command (name rest : string) (d : list string) :
  lex (mkLexer d None Plain) (reauthCommand name ++ rest)
  = lex (mkLexer (d ++ fixed)%list (Some name) Plain) rest.
Proof.
  pose proof (lex_done (reauthCommand name ++ rest) d [] None Plain) as E.
  rewrite app_nil_r in E. rewrite E, lex_command_first.
  symmetry. apply lex_done.
Qed.

Lemma words_of_command (name : string) :
  shell_words (reauthCommand name) = Some (fixed ++ [name])%list.
Proof.
  unfold shell_words. rewrite <- (append_nil_r (reauthCommand name)).
  rewrite lex_command. reflexivity.
Qed.

(** X8. Two accounts get the same remediation command only if they have the
    same name: the command of one account can never be taken for that of
    another, whatever quotes and blanks the names contain. *)
Theorem reauthCommand_injective (a b : string) :
  reauthCommand a = reauthCommand b -> a = b.
Proof.
  intros E. pose proof (words_of_command a) as Ha.
  rewrite E, words_of_command in Ha. now injection Ha.
Qed.

Section Block.

Variable H : Handlers.

Lemma lex_block (needs : list (Account H)) :
  forall d,
    lex (mkLexer d None Plain)
        (join (nl ++ "  ")
           (map (fun acc => reauthCommand (name H acc)) needs))
    = Some (d ++ flat_map (fun acc => (fixed ++ [name H acc])%list) needs)%list.
Proof.
  induction needs as [|a rest IH]; intros d.
  - cbn. now rewrite app_nil_r.
  - destruct rest as [|b rest].
    + cbn [map join flat_map].
      rewrite <- (append_nil_r (reauthCommand (name H a))).
      rewrite lex_command. cbn [lex st]. unfold flush.
      cbn [word done flat_map]. now rewrite app_nil_r, app_assoc.
    + change (join (nl ++ "  ")
                (map (fun acc => reauthCommand (name H acc)) (a :: b :: rest)))
        with (reauthCommand (name H a)
              ++ (nl ++ "  ")
              ++ join (nl ++ "  ")
                   (map (fun acc => reauthCommand (name H acc)) (b :: rest))).
      rewrite lex_command.
      change (lex (mkLexer (d ++ fixed)%list (Some (name H a)) Plain)
                ((nl ++ "  ") ++ ?s))
        with (lex (mkLexer ((d ++ fixed) ++ [name H a])%list None Plain) s).
      rewrite IH. cbn [flat_map]. now rewrite <- !app_assoc.
Qed.

Lemma length_block_words (needs : list (Account H)) :
  length (flat_map (fun acc => (fixed ++ [name H acc])%list) needs)
  = 5 * length needs.
Proof.
  induction needs as [|a rest IH]; [reflexivity|].
  cbn [flat_map]. rewrite length_app, IH.
  cbn [Datatypes.length Datatypes.app]. lia.
Qed.

(** X9. The block of remediation commands that [handleProxy] puts in its
    error message (one command per line, lines 260-265) splits into
    exactly five words per account, in the order of the accounts: the
    four fixed words and the account name, unescaped.  No name runs into
    the next command or swallows part of it. *)
Theorem reauthCommands_words (needs : list (Account H)) :
  shell_words (reauthCommands H needs)
  = Some (flat_map (fun acc => (fixed ++ [name H acc])%list) needs)
  /\ match shell_words (reauthCommands H needs) with
     | Some words => length words = 5 * length needs
     | None => False
     end.
Proof.
  assert (E : shell_words (reauthCommands H needs)
              = Some (flat_map (fun acc => (fixed ++ [name H acc])%list) needs)).
  { unfold shell_words, reauthCommands. now rewrite lex_block. }
  rewrite E. split; [reflexivity | apply length_block_words].
Qed.

End Block.

End ShellBlockFacts.

(* ===================================================================== *)
(** * Runs of the usage worker *)
(* ===================================================================== *)

Module WorkerRunFacts.

Import JsString Proxy UsageWorker UsageWorkerFacts WorkerRuns.

Section Lifecycle.

Variable WORKER_SHUTDOWN_DELAY : nat.
Variable EMBEDDED_WORKER_CODE : option string.

Local Abbreviation getWorker := (getUsageWorker EMBEDDED_WORKER_CODE).
Local Abbreviation terminateWorker :=
  (terminateUsageWorker WORKER_SHUTDOWN_DELAY).
Local Abbreviation step' := (step WORKER_SHUTDOWN_DELAY EMBEDDED_WORKER_CODE).
Local Abbreviation run' := (run WORKER_SHUTDOWN_DELAY EMBEDDED_WORKER_CODE).
Local Abbreviation reachable s :=
  (exists es, run' es init = Some s).

(** ** What each function leaves alone *)

Lemma getUsageWorker_frame (ok : bool) (s : State) :
  let s' := snd (getWorker ok s) in
  shutdownTimerId s' = shutdownTimerId s
  /\ gone s' = gone s
  /\ mailbox s' = mailbox s
  /\ timers s' = timers s
  /\ next_timer s' = next_timer s
  /\ clock s' = clock s
  /\ requestEvents s' = requestEvents s.
Proof.
  unfold getUsageWorker, wbind, gets.
  destruct (usageWorkerInstance s) eqn:E; [|destruct ok]; cbn;
    repeat split.
Qed.

Lemma terminateUsageWorker_frame (post_ok : bool) (s : State) :
  let s' := snd (terminateWorker post_ok s) in
  workers s' = workers s
  /\ gone s' = gone s
  /\ clock s' = clock s
  /\ requestEvents s' = requestEvents s.
Proof.
  unfold terminateUsageWorker, wbind, gets.
  destruct (usageWorkerInstance s) eqn:E; [|now cbn].
  destruct (shutdownTimerId s), post_ok; cbn; repeat split.
Qed.

Lemma shutdown_timeout_frame (stop_ok : bool) (s : State) :
  let s' := snd (shutdown_timeout stop_ok s) in
  mailbox s' = mailbox s
  /\ next_timer s' = next_timer s
  /\ clock s' = clock s
  /\ requestEvents s' = requestEvents s.
Proof.
  unfold shutdown_timeout, wbind, gets.
  destruct (usageWorkerInstance s) eqn:E; [destruct stop_ok|]; cbn;
    repeat split.
Qed.

(** ** The singleton *)

(** X10. [getUsageWorker] never returns null.  The worker it returns is the
    one the singleton holds from then on, so a second call returns the
    same worker and constructs nothing; a worker is constructed only when
    the singleton was empty, and then exactly one.  When it throws, the
    constructor threw: the singleton stays empty, no worker was counted,
    and a later call whose construction succeeds returns a worker. *)
Theorem getUsageWorker_is_a_singleton (ok : bool) (s : State) :
  let out := fst (getWorker ok s) in
  let s' := snd (getWorker ok s) in
  out <> Returned None
  /\ (forall w, out = Returned (Some w) ->
        usageWorkerInstance s' = Some w
        /\ (forall ok', getWorker ok' s' = (Returned (Some w), s'))
        /\ ((usageWorkerInstance s = Some w /\ s' = s)
            \/ (usageWorkerInstance s = None /\ ok = true
                /\ w = workers s /\ workers s' = S (workers s))))
  /\ (forall e, out = Thrown e ->
        ok = false
        /\ usageWorkerInstance s = None
        /\ usageWorkerInstance s' = None
        /\ workers s' = workers s
        /\ fst (getWorker true s') = Returned (Some (workers s))).
Proof.
  intros out s'. subst out s'.
  destruct (usageWorkerInstance s) as [w|] eqn:E.
  - rewrite (getUsageWorker_present EMBEDDED_WORKER_CODE ok s w E).
    cbn [fst snd]. split; [discriminate|]. split; [|discriminate].
    intros w' [= <-]. split; [exact E|]. split.
    + intros ok'. now apply getUsageWorker_present.
    + left. now split.
  - destruct ok.
    + destruct (getUsageWorker_absent_ok EMBEDDED_WORKER_CODE s E)
        as (s1 & -> & Hi & _ & Hn & _).
      cbn [fst snd]. split; [discriminate|]. split; [|discriminate].
      intros w [= <-]. split; [exact Hi|]. split.
      * intros ok'. now apply getUsageWorker_present.
      * right. repeat split; assumption.
    + destruct (getUsageWorker_absent_fails EMBEDDED_WORKER_CODE s E)
        as (e & s1 & -> & Hi & _ & Hn & _).
      cbn [fst snd]. split; [discriminate|]. split; [discriminate|].
      intros e' _. repeat split; try assumption.
      destruct (getUsageWorker_absent_ok EMBEDDED_WORKER_CODE s1 Hi)
        as (s2 & -> & _). cbn [fst]. now rewrite Hn.
Qed.

(** ** A shutdown request that is sent *)

Lemma shutdown_sent (s : State) (w : Worker) :
  timers_ok s ->
  usageWorkerInstance s = Some w ->
  exists s1,
    step' (call_terminateUsageWorker true) s = Some s1
    /\ terminateWorker true s = (Returned tt, s1)
    /\ usageWorkerInstance s1 = Some w
    /\ shutdownTimerId s1 = Some (next_timer s)
    /\ timers s1 = [(next_timer s, clock s + WORKER_SHUTDOWN_DELAY)]
    /\ workers s1 = workers s
    /\ gone s1 = gone s
    /\ mailbox s1 = (mailbox s ++ [(w, shutdown)])%list
    /\ next_timer s1 = S (next_timer s)
    /\ clock s1 = clock s.
Proof.
  intros Hs E.
  destruct (terminateUsageWorker_sent WORKER_SHUTDOWN_DELAY s w E)
    as (s1 & Hs1 & Hi & Ht & Hn & Hg & Hm & Hnt & Hc & Htm).
  exists s1. cbn [step orb]. rewrite Hs1. cbn [snd].
  repeat split; try assumption.
  rewrite Htm.
  apply (f_equal (fun l => (l ++ _)%list) (timers_cleared s Hs)).
Qed.

Lemma due_after (s : State) (t : Timer) (deadline d : nat) :
  timers s = [(t, deadline)] ->
  forall t', due (advance d s) t'
             = ((t =? t')%nat && (deadline <=? clock s + d)%nat).
Proof.
  intros E t'. unfold due. cbn [advance timers clock]. rewrite E.
  cbn [existsb fst snd]. now rewrite orb_false_r.
Qed.

(** One event that is neither a timeout, nor a worker error, nor a
    failed send keeps the singleton, constructs no worker and drops no
    message. *)
Lemma keeps_handle_step (e : Event) (s s' : State) (w : Worker) :
  usageWorkerInstance s = Some w ->
  keeps_handle e = true ->
  step' e s = Some s' ->
  usageWorkerInstance s' = Some w
  /\ workers s' = workers s
  /\ (forall m, In m (mailbox s) -> In m (mailbox s'))
  /\ (stays_up w e = true -> running s' w = running s w).
Proof.
  intros E Hk Hstep. destruct e as [ok|post|w'|w' data|w'|t stop|d];
    cbn [keeps_handle] in Hk; try discriminate; cbn [step] in Hstep.
  - rewrite (getUsageWorker_present EMBEDDED_WORKER_CODE ok s w E) in Hstep.
    injection Hstep as <-. now repeat split.
  - subst post. cbn [orb] in Hstep. injection Hstep as <-.
    destruct (terminateUsageWorker_sent WORKER_SHUTDOWN_DELAY s w E)
      as (s1 & -> & Hi & _ & Hn & Hg & Hm & _).
    cbn [snd]. split; [exact Hi|]. split; [exact Hn|]. split.
    + intros m Hin. rewrite Hm. apply in_or_app. now left.
    + intros _. unfold running. now rewrite Hn, Hg.
  - destruct (running s w'); [|discriminate]. injection Hstep as <-.
    unfold onmessage. destruct data; cbn; now repeat split.
  - destruct (running s w'); [|discriminate]. injection Hstep as <-.
    cbn. split; [exact E|]. split; [reflexivity|]. split; [auto|].
    intros Hup. unfold running. cbn [workers gone set_gone mem existsb].
    apply negb_true_iff in Hup. rewrite Nat.eqb_sym in Hup.
    now rewrite Hup.
  - injection Hstep as <-. cbn. now repeat split.
Qed.

Lemma keeps_handle_run (w : Worker) (es : list Event) :
  forall s s' : State,
    usageWorkerInstance s = Some w ->
    forallb keeps_handle es = true ->
    run' es s = Some s' ->
    usageWorkerInstance s' = Some w
    /\ workers s' = workers s
    /\ (forall m, In m (mailbox s) -> In m (mailbox s'))
    /\ (forallb (stays_up w) es = true -> running s' w = running s w).
Proof.
  induction es as [|e es IH]; intros s s' E Hk Hrun.
  - injection Hrun as <-. now repeat split.
  - cbn [forallb] in Hk. apply andb_true_iff in Hk as [Hk Hks].
    cbn [run] in Hrun. destruct (step' e s) as [s1|] eqn:Hstep;
      [|discriminate].
    destruct (keeps_handle_step e s s1 w E Hk Hstep)
      as (E1 & Hn1 & Hm1 & Hr1).
    destruct (IH s1 s' E1 Hks Hrun) as (E2 & Hn2 & Hm2 & Hr2).
    split; [exact E2|]. split; [congruence|]. split; [auto|].
    cbn [forallb]. intros Hup. apply andb_true_iff in Hup as [Hu Hus].
    rewrite (Hr2 Hus). now apply Hr1.
Qed.

(** X11. [terminateUsageWorker] does not clear the singleton when the
    shutdown message is sent.  From then on, through any calls of
    [getUsageWorker], further shutdown requests that are sent, messages
    and exits of workers and any passing of time, [getUsageWorker] keeps
    returning the worker that was asked to shut down and constructs no
    other, and the shutdown message stays posted to it.  So the singleton
    changes only when the timeout fires, when a worker reports an error
    or when a later shutdown message cannot be sent.  The worker itself
    runs on or not as before, unless it exits. *)
Theorem handle_survives_shutdown_request
  (s : State) (w : Worker) (es : list Event) (s2 : State) (ok : bool) :
  usageWorkerInstance s = Some w ->
  forallb keeps_handle es = true ->
  run' es (snd (terminateWorker true s)) = Some s2 ->
  getWorker ok s2 = (Returned (Some w), s2)
  /\ usageWorkerInstance s2 = Some w
  /\ In (w, shutdown) (mailbox s2)
  /\ workers s2 = workers s
  /\ (forallb (stays_up w) es = true -> running s2 w = running s w)
  /\ (forall d, es = [tick d] ->
        s2 = advance d (snd (terminateWorker true s))).
Proof.
  intros E Hk Hrun.
  destruct (terminateUsageWorker_sent WORKER_SHUTDOWN_DELAY s w E)
    as (s1 & Hs1 & Hi & _ & Hn & Hg & Hm & _).
  rewrite Hs1 in *. cbn [snd] in *.
  destruct (keeps_handle_run w es s1 s2 Hi Hk Hrun)
    as (E2 & Hn2 & Hm2 & Hr2).
  split; [now apply getUsageWorker_present|]. split; [exact E2|].
  split; [|split; [congruence|split]].
  - apply Hm2. rewrite Hm. apply in_or_app. right. now left.
  - intros Hup. rewrite (Hr2 Hup). unfold running. now rewrite Hn, Hg.
  - intros d ->. cbn [run step] in Hrun. now injection Hrun as <-.
Qed.

(** X12. In a reachable state that holds worker [w]: a shutdown request, the
    grace window and the timeout, in this order, post one shutdown
    message to [w], stop [w], and leave the singleton empty with no
    timeout pending; the next [getUsageWorker] starts a new worker.  The
    timeout does not fire before [WORKER_SHUTDOWN_DELAY] has passed. *)
Theorem shutdown_completes_after_grace_window
  (es : list Event) (s : State) (w : Worker) (d : nat) :
  run' es init = Some s ->
  usageWorkerInstance s = Some w ->
  (WORKER_SHUTDOWN_DELAY <= d ->
   exists s3,
     run' [call_terminateUsageWorker true; tick d;
           timeout (next_timer s) true] s = Some s3
     /\ usageWorkerInstance s3 = None
     /\ shutdownTimerId s3 = None
     /\ timers s3 = []
     /\ gone s3 = w :: gone s
     /\ running s3 w = false
     /\ mailbox s3 = (mailbox s ++ [(w, shutdown)])%list
     /\ fst (getWorker true s3) = Returned (Some (workers s))
     /\ workers s <> w)
  /\ (d < WORKER_SHUTDOWN_DELAY ->
      run' [call_terminateUsageWorker true; tick d;
            timeout (next_timer s) true] s = None).
Proof.
  intros Hreach E.
  pose proof (reachable_timers_ok _ _ es s Hreach) as Hs.
  destruct (shutdown_sent s w Hs E)
    as (s1 & Hstep & _ & Hi & Ht & Htm & Hn & Hg & Hm & Hnt & Hc).
  split.
  - intros Hd.
    assert (Hdue : due (advance d s1) (next_timer s) = true).
    { rewrite (due_after s1 _ _ d Htm), Nat.eqb_refl, Hc. cbn [andb].
      apply Nat.leb_le. lia. }
    destruct (shutdown_timeout_spec true
                (unschedule (next_timer s) (advance d s1)))
      as (s3 & Hs3 & Hi3 & Ht3 & Hn3 & Htm3 & Hg3).
    destruct (shutdown_timeout_frame true
                (unschedule (next_timer s) (advance d s1)))
      as (Hm3 & _).
    rewrite Hs3 in Hm3. cbn [snd] in Hm3.
    cbn [unschedule advance set_timers usageWorkerInstance workers gone
         timers mailbox] in Hn3, Htm3, Hg3, Hm3.
    rewrite Hi in Hg3. rewrite Htm in Htm3.
    cbn [filter fst negb] in Htm3. rewrite Nat.eqb_refl in Htm3.
    exists s3. cbn [run]. rewrite Hstep. cbn [run step].
    rewrite Hdue. cbn [orb andb]. rewrite Hs3. cbn [snd].
    assert (Hlt : w < workers s)
      by (apply (reachable_workers_ok _ _ es s Hreach); exact E).
    repeat split; try assumption.
    + now rewrite Hg3, Hg.
    + unfold running. rewrite Hg3. unfold mem. cbn [existsb].
      rewrite Nat.eqb_refl. now rewrite andb_false_r.
    + now rewrite Hm3, Hm.
    + destruct (getUsageWorker_absent_ok EMBEDDED_WORKER_CODE s3 Hi3)
        as (s4 & -> & _). cbn [fst]. now rewrite Hn3, Hn.
    + lia.
  - intros Hd. cbn [run]. rewrite Hstep. cbn [run step].
    rewrite (due_after s1 _ _ d Htm), Nat.eqb_refl, Hc. cbn [andb].
    replace (clock s + WORKER_SHUTDOWN_DELAY <=? clock s + d)%nat with false
      by (symmetry; apply Nat.leb_gt; lia).
    reflexivity.
Qed.

(** X13. A second [terminateUsageWorker], [d] ticks after the first, starts
    the grace window again: the one pending timeout is the new one, due
    [WORKER_SHUTDOWN_DELAY] after the second call; the timeout of the
    first call never fires; the worker has been sent two shutdown
    messages. *)
Theorem repeated_shutdown_restarts_grace_window
  (es : list Event) (s : State) (w : Worker) (d : nat) :
  run' es init = Some s ->
  usageWorkerInstance s = Some w ->
  exists s3,
    run' [call_terminateUsageWorker true; tick d;
          call_terminateUsageWorker true] s = Some s3
    /\ usageWorkerInstance s3 = Some w
    /\ shutdownTimerId s3 = Some (S (next_timer s))
    /\ timers s3
       = [(S (next_timer s), clock s + d + WORKER_SHUTDOWN_DELAY)]
    /\ mailbox s3 = (mailbox s ++ [(w, shutdown); (w, shutdown)])%list
    /\ (forall d' stop_ok,
          step' (timeout (next_timer s) stop_ok) (advance d' s3) = None).
Proof.
  intros Hreach E.
  pose proof (reachable_timers_ok _ _ es s Hreach) as Hs.
  destruct (shutdown_sent s w Hs E)
    as (s1 & Hstep1 & _ & Hi1 & Ht1 & Htm1 & _ & _ & Hm1 & Hnt1 & Hc1).
  assert (Hs2 : timers_ok (advance d s1)).
  { right. exists (next_timer s), (clock s + WORKER_SHUTDOWN_DELAY).
    cbn [advance timers shutdownTimerId]. now split. }
  destruct (shutdown_sent (advance d s1) w Hs2 Hi1)
    as (s3 & Hstep3 & _ & Hi3 & Ht3 & Htm3 & _ & _ & Hm3 & _ & _).
  cbn [advance next_timer clock mailbox] in Ht3, Htm3, Hm3.
  exists s3. cbn [run]. rewrite Hstep1. cbn [run].
  change (step' (tick d) s1) with (Some (advance d s1)). cbn iota.
  rewrite Hstep3.
  split; [reflexivity|]. split; [exact Hi3|].
  split; [now rewrite Ht3, Hnt1|]. split; [now rewrite Htm3, Hnt1, Hc1|].
  split; [now rewrite Hm3, Hm1, <- app_assoc|].
  intros d' stop_ok. cbn [step].
  rewrite (due_after s3 _ _ d' Htm3), Hnt1.
  replace (S (next_timer s) =? next_timer s)%nat with false
    by (symmetry; apply Nat.eqb_neq; lia).
  reflexivity.
Qed.

(** X14. A timeout stops whichever worker the singleton holds when it fires.
    If the worker fails during its grace window and [getUsageWorker] has
    started a replacement, the timeout of the earlier shutdown request
    stops the replacement and empties the singleton, although the
    replacement was sent no shutdown message. *)
Theorem pending_timeout_stops_replacement
  (es : list Event) (s : State) (w : Worker) :
  run' es init = Some s ->
  usageWorkerInstance s = Some w ->
  running s w = true ->
  exists s5,
    run' [call_terminateUsageWorker true; worker_error w;
          call_getUsageWorker true; tick WORKER_SHUTDOWN_DELAY;
          timeout (next_timer s) true] s = Some s5
    /\ usageWorkerInstance s5 = None
    /\ gone s5 = workers s :: w :: gone s
    /\ workers s5 = S (workers s)
    /\ workers s <> w
    /\ mailbox s5 = (mailbox s ++ [(w, shutdown)])%list
    /\ timers s5 = [].
Proof.
  intros Hreach E Hw.
  pose proof (reachable_timers_ok _ _ es s Hreach) as Hs.
  destruct (shutdown_sent s w Hs E)
    as (s1 & Hstep1 & _ & Hi1 & Ht1 & Htm1 & Hn1 & Hg1 & Hm1 & Hnt1 & Hc1).
  assert (Hw1 : running s1 w = true)
    by (unfold running; rewrite Hn1, Hg1; exact Hw).
  set (s2 := snd (onerror (set_gone (w :: gone s1) s1))).
  assert (Hi2 : usageWorkerInstance s2 = None) by reflexivity.
  destruct (getUsageWorker_absent_ok EMBEDDED_WORKER_CODE s2 Hi2)
    as (s3 & Hs3 & Hi3 & _ & Hn3 & Hg3 & Htm3).
  destruct (getUsageWorker_frame true s2) as (_ & _ & Hm3 & _ & _ & Hc3 & _).
  rewrite Hs3 in Hm3, Hc3. cbn [snd] in Hm3, Hc3.
  cbn in Hi3, Hn3, Hg3, Htm3, Hm3, Hc3.
  assert (Hdue : due (advance WORKER_SHUTDOWN_DELAY s3) (next_timer s) = true).
  { rewrite (due_after s3 (next_timer s) (clock s + WORKER_SHUTDOWN_DELAY)),
      Nat.eqb_refl, Hc3, Hc1 by (now rewrite Htm3).
    cbn [andb]. apply Nat.leb_le. lia. }
  destruct (shutdown_timeout_spec true
              (unschedule (next_timer s) (advance WORKER_SHUTDOWN_DELAY s3)))
    as (s5 & Hs5 & Hi5 & _ & Hn5 & Htm5 & Hg5).
  destruct (shutdown_timeout_frame true
              (unschedule (next_timer s) (advance WORKER_SHUTDOWN_DELAY s3)))
    as (Hm5 & _).
  rewrite Hs5 in Hm5. cbn [snd] in Hm5.
  cbn [unschedule advance set_timers usageWorkerInstance workers gone
       timers mailbox] in Hn5, Htm5, Hg5, Hm5.
  rewrite Hi3 in Hg5. rewrite Htm3, Htm1 in Htm5.
  cbn [filter fst negb] in Htm5. rewrite Nat.eqb_refl in Htm5.
  exists s5. cbn [run]. rewrite Hstep1. cbn [run step]. rewrite Hw1.
  fold s2. cbn [run step]. rewrite Hs3. cbn [snd run step].
  rewrite Hdue. cbn [orb andb]. rewrite Hs5. cbn [snd].
  apply running_spec in Hw as [Hlt _].
  split; [reflexivity|]. split; [exact Hi5|].
  split; [now rewrite Hg5, Hg3, Hg1, Hn1|].
  split; [now rewrite Hn5, Hn3, Hn1|]. split; [lia|].
  split; [now rewrite Hm5, Hm3, Hm1 | exact Htm5].
Qed.

(** ** [shutdownTimerId] and the pending timeout *)

Lemma timer_tracked_ok (s : State) :
  timer_tracked WORKER_SHUTDOWN_DELAY s -> timers_ok s.
Proof.
  unfold timer_tracked, timers_ok.
  destruct (shutdownTimerId s) as [t|].
  - intros (d & E & _). right. now exists t, d.
  - now left.
Qed.

Lemma timer_tracked_step (e : Event) (s s' : State) :
  timer_tracked WORKER_SHUTDOWN_DELAY s ->
  step' e s = Some s' ->
  timer_tracked WORKER_SHUTDOWN_DELAY s'.
Proof.
  intros Hs. pose proof (timer_tracked_ok s Hs) as Hok.
  destruct e as [ok|ok|w|w data|w|t ok|d]; cbn [step].
  - intros [= <-].
    destruct (getUsageWorker_frame ok s) as (Ht & _ & _ & Htm & Hnt & Hc & _).
    unfold timer_tracked. now rewrite Ht, Htm, Hnt, Hc.
  - destruct (ok || handle_dead s); [|discriminate]. intros [= <-].
    destruct (usageWorkerInstance s) as [w|] eqn:E.
    + destruct ok.
      * destruct (shutdown_sent s w Hok E)
          as (s1 & _ & -> & _ & Ht & Htm & _ & _ & _ & Hnt & Hc).
        cbn [snd]. unfold timer_tracked. rewrite Ht.
        exists (clock s + WORKER_SHUTDOWN_DELAY).
        split; [exact Htm|]. split; lia.
      * destruct (terminateUsageWorker_unsent WORKER_SHUTDOWN_DELAY s w E)
          as (s1 & -> & _ & Ht & _ & _ & _ & _ & _ & Htm).
        cbn [snd]. unfold timer_tracked. rewrite Ht, Htm.
        exact (timers_cleared s Hok).
    + now rewrite terminateUsageWorker_absent.
  - destruct (running s w); [|discriminate]. intros [= <-]. exact Hs.
  - destruct (running s w); [|discriminate]. intros [= <-].
    destruct data; exact Hs.
  - destruct (running s w); [|discriminate]. intros [= <-]. exact Hs.
  - destruct (due s t) eqn:Hd; [|discriminate].
    destruct (ok || handle_dead s); cbn [andb]; [|discriminate].
    intros [= <-].
    destruct (shutdown_timeout_spec ok (unschedule t s))
      as (s1 & -> & _ & Ht & _ & Htm & _).
    cbn [snd]. unfold timer_tracked. rewrite Ht, Htm.
    now apply timers_fired.
  - intros [= <-]. unfold timer_tracked in *.
    cbn [advance shutdownTimerId timers clock next_timer].
    destruct (shutdownTimerId s) as [t|]; [|exact Hs].
    destruct Hs as (d0 & E & Hd0 & Hlt). exists d0.
    split; [exact E|]. split; [lia | exact Hlt].
Qed.

(** X15. In every reachable state [shutdownTimerId] is set exactly when a
    timeout is pending.  The pending timeout is then the only one, it is
    the one [shutdownTimerId] names, and it is due at most
    [WORKER_SHUTDOWN_DELAY] from now: a stale identifier is never kept
    and a timeout is never lost track of. *)
Theorem shutdownTimerId_tracks_pending_timeout
  (es : list Event) (s : State) :
  run' es init = Some s ->
  (shutdownTimerId s = None <-> timers s = [])
  /\ (forall t, shutdownTimerId s = Some t ->
        exists d, timers s = [(t, d)]
                  /\ d <= clock s + WORKER_SHUTDOWN_DELAY
                  /\ t < next_timer s)
  /\ (forall t d, In (t, d) (timers s) -> shutdownTimerId s = Some t).
Proof.
  intros Hreach.
  assert (Hs : timer_tracked WORKER_SHUTDOWN_DELAY s).
  { apply (run_invariant _ _ (timer_tracked WORKER_SHUTDOWN_DELAY)
             timer_tracked_step es init s); [reflexivity | exact Hreach]. }
  unfold timer_tracked in Hs.
  destruct (shutdownTimerId s) as [t|].
  - destruct Hs as (d & E & Hd & Hlt). rewrite E. split; [|split].
    + split; discriminate.
    + intros t' [= <-]. now exists d.
    + intros t' d' [[= <- <-]|[]]. reflexivity.
  - rewrite Hs. split; [|split].
    + now split.
    + discriminate.
    + intros t d [].
Qed.

(** ** The event bus *)

Lemma requestEvents_step (e : Event) (s s' : State) :
  step' e s = Some s' ->
  requestEvents s'
  = (requestEvents s ++ map relayed (sent_by_workers [e]))%list.
Proof.
  destruct e as [ok|ok|w|w data|w|t ok|d]; cbn [step sent_by_workers map].
  - intros [= <-]. rewrite app_nil_r. apply getUsageWorker_frame.
  - destruct (ok || handle_dead s); [|discriminate]. intros [= <-].
    rewrite app_nil_r. apply terminateUsageWorker_frame.
  - destruct (running s w); [|discriminate]. intros [= <-].
    now rewrite app_nil_r.
  - destruct (running s w); [|discriminate]. intros [= <-].
    now destruct data.
  - destruct (running s w); [|discriminate]. intros [= <-].
    now rewrite app_nil_r.
  - destruct (due s t && (ok || handle_dead s)); [|discriminate].
    intros [= <-]. rewrite app_nil_r.
    now destruct (shutdown_timeout_frame ok (unschedule t s))
      as (_ & _ & _ & ->).
  - intros [= <-]. now rewrite app_nil_r.
Qed.

(** X16. Along every run, what reaches [requestEvents] is exactly the stream
    of messages the workers sent: each summary as a summary event, each
    payload as a payload event, with its content, in the order sent,
    nothing dropped or repeated.  Acquiring, shutting down, timeouts and
    worker errors publish nothing. *)
Theorem requestEvents_relays_worker_messages (es : list Event) :
  forall s s',
    run' es s = Some s' ->
    requestEvents s'
    = (requestEvents s ++ map relayed (sent_by_workers es))%list.
Proof.
  induction es as [|e es IH]; intros s s'; cbn [run].
  - intros [= <-]. cbn. now rewrite app_nil_r.
  - destruct (step' e s) as [s1|] eqn:E; [|discriminate].
    intros Hrun. rewrite (IH s1 s' Hrun), (requestEvents_step e s s1 E).
    rewrite <- app_assoc, <- map_app. f_equal. f_equal.
    destruct e; reflexivity.
Qed.

End Lifecycle.

End WorkerRunFacts.

(* ===================================================================== *)
(** * The deployments at work, continued *)
(* ===================================================================== *)

Module MoreRuns.

Import JsString Proxy ProxyCalls Sample.
Import ProxyFacts ProxyRunFacts SampleRuns.

(** ** Requests *)

Example reset_stops_at_erin :
  Flaky.run_flaky body path Flaky.resetting
  = (Thrown (ProviderError "connection reset"),
     @mkSys Flaky.handlers 2
       (selection_trace Flaky.handlers body path Flaky.resetting body
          Flaky.planned None
        ++ [Call_log_info Flaky.handlers "Selected 3 accounts: bob, erin, carol";
            Call_log_info Flaky.handlers "Request: POST /v1/messages"]
        ++ attempt_calls Flaky.handlers body path Flaky.resetting
             (Some "planner") body (finalCreateBodyStream body)
             [bob; Flaky.erin] 0)%list).
Proof. reflexivity. Qed.

Example no_fallback_without_accounts_on_flaky :
  fst (Flaky.run_flaky body path (mkContext "anthropic" []))
  = Thrown (ProviderError "credentials required").
Proof. reflexivity. Qed.

Lemma flaky_interception (req : option bytes) (ctx : context) :
  Flaky.starts_with 255 req = false ->
  Flaky.starts_with 254 req = false ->
  reaches_interception Flaky.handlers req path ctx 0 req Flaky.planned 0.
Proof.
  intros E1 E2. exists 0, 0, 0. cbn. rewrite E1, E2. repeat split.
Defined.

Lemma flaky_metadata (req : option bytes) (ctx : context) :
  Flaky.starts_with 255 req = false ->
  Flaky.starts_with 254 req = false ->
  reaches_metadata Flaky.handlers req path ctx 0 req Flaky.planned None 0.
Proof.
  intros E1 E2. exists 0. split; [now apply flaky_interception|].
  reflexivity.
Defined.

Lemma flaky_selection (req : option bytes) (ctx : context) :
  Flaky.starts_with 255 req = false ->
  Flaky.starts_with 254 req = false ->
  String.eqb (c_provider ctx) "broken" = false ->
  reaches_selection Flaky.handlers req path ctx 0 req Flaky.planned None
    (c_pool ctx) 0.
Proof.
  intros E1 E2 E3. exists 0, 0. split; [now apply flaky_interception|].
  split; [reflexivity|]. cbn. now rewrite E3.
Defined.

Lemma failed_attempt_ends_failover_witness :
  fst (Flaky.run_flaky body path Flaky.resetting)
  = Thrown (ProviderError "connection reset")
  /\ attempts Flaky.handlers
       (trace (snd (Flaky.run_flaky body path Flaky.resetting)))
     = [(bob, 0); (Flaky.erin, 1)].
Proof.
  destruct (failed_attempt_ends_failover Flaky.handlers body path
              Flaky.resetting 0 body Flaky.planned None
              (c_pool Flaky.resetting) 0 after 1
              (ProviderError "connection reset") 2)
    as (Hthrown & _ & Htried & _).
  - now apply flaky_selection.
  - reflexivity.
  - intros j Hj. destruct j as [|j]; [reflexivity | cbn in Hj; lia].
  - reflexivity.
  - split; [exact Hthrown | exact Htried].
Defined.

Lemma response_comes_from_upstream_witness :
  exists k ws,
    k < 4
    /\ attempt handlers body path answering body untouched None
         (c_pool answering) k (ws k)
       = Some (Returned (Some 201), 3).
Proof.
  destruct (response_comes_from_upstream handlers body path answering
              0 body untouched None (c_pool answering) 0 201
              (sample_selection body answering untouched eq_refl) eq_refl)
    as [[Hnone _]|(k & ws & Hk & _ & _ & Hresp)].
  - discriminate.
  - now exists k, ws.
Defined.

Lemma accounts_tried_once_in_order_witness :
  length (attempts handlers (trace (snd (run_sample body path expired)))) <= 3
  /\ filter (is_proxyUnauthenticated handlers)
       (trace (snd (run_sample body path expired))) = [].
Proof.
  destruct (accounts_tried_once_in_order handlers body path expired
              0 body untouched None (c_pool expired) 0
              (sample_selection body expired untouched eq_refl))
    as (_ & Hlen & Hnone).
  split; [exact Hlen|]. apply Hnone. discriminate.
Defined.

Lemma collaborator_errors_propagate_witness :
  fst (Flaky.run_flaky (Some [x 255]) path answering)
  = Thrown (OtherError "body stream failed")
  /\ fst (Flaky.run_flaky body path Flaky.broken)
     = Thrown (OtherError "no strategy")
  /\ filter (is_proxy_call Flaky.handlers)
       (trace (snd (Flaky.run_flaky body path Flaky.broken))) = [].
Proof.
  destruct (collaborator_errors_propagate Flaky.handlers body path
              Flaky.broken) as (_ & _ & _ & Hselect).
  destruct (collaborator_errors_propagate Flaky.handlers (Some [x 255]) path
              answering) as (Hprepare & _).
  destruct (Hprepare 0 0 0 0 (OtherError "body stream failed")
              eq_refl eq_refl eq_refl) as (Hbody & _).
  destruct (Hselect 0 0 0 body Flaky.planned None (OtherError "no strategy")
              (flaky_metadata body Flaky.broken eq_refl eq_refl) eq_refl)
    as (Hthrown & _ & Hnone).
  split; [exact Hbody|]. split; [exact Hthrown | exact Hnone].
Defined.

Lemma bodiless_request_forwarded_witness :
  fst (run_sample None path answering) = Returned 201
  /\ forall c b f,
       In c (trace (snd (run_sample None path answering))) ->
       delivered handlers c = Some (b, f) ->
       b = None /\ forall h : Streams, f h = (None, h).
Proof.
  split; [reflexivity|].
  intros c b f Hin Hc.
  destruct (bodiless_request_forwarded handlers None path answering
              0 None untouched 0
              (sample_interception None answering untouched eq_refl)
              c b f Hin Hc) as (_ & _ & _ & Hnull).
  now apply Hnull.
Defined.

Lemma agent_reaches_selection_and_attempts_witness :
  fst (Flaky.run_flaky body path answering) = Returned 201
  /\ forall c m,
       In c (trace (snd (Flaky.run_flaky body path answering))) ->
       carried_meta Flaky.handlers c = Some m ->
       m = Some "planner".
Proof.
  split; [reflexivity|].
  exact (agent_reaches_selection_and_attempts Flaky.handlers body path
           answering 0 body Flaky.planned None 0
           (flaky_metadata body answering eq_refl eq_refl)).
Defined.

Example counts_on_sample :
  count handlers (is_prepareRequestBody handlers)
    (trace (snd (run_sample body path expired))) = 1
  /\ count handlers (is_selectAccountsForRequest handlers)
       (trace (snd (run_sample body path expired))) = 1
  /\ count handlers (is_proxy_call handlers)
       (trace (snd (run_sample body path expired))) = 3.
Proof. repeat split. Qed.

Lemma reauthCommand_injective_witness :
  Shell.reauthCommand "o'neil" <> Shell.reauthCommand "o neil"
  /\ "o'neil" = "o'neil".
Proof.
  split.
  - intros E. apply ShellBlockFacts.reauthCommand_injective in E.
    discriminate.
  - exact (ShellBlockFacts.reauthCommand_injective "o'neil" "o'neil" eq_refl).
Defined.

Example words_of_expired_block :
  Shell.shell_words (reauthCommands handlers [alice; o'neil])
  = Some ["bun"; "run"; "cli"; "--reauthenticate"; "alice";
          "bun"; "run"; "cli"; "--reauthenticate"; "o'neil"].
Proof. reflexivity. Qed.

(** ** The usage worker *)

Import UsageWorker UsageWorkerFacts WorkerRuns WorkerRunFacts.

Example construction_can_be_retried :
  option_map (fun s => (usageWorkerInstance s, workers s))
    (play [call_getUsageWorker false; call_getUsageWorker true;
           call_getUsageWorker true])
  = Some (Some 0, 1).
Proof. reflexivity. Qed.

Example messages_reach_the_bus :
  option_map requestEvents
    (play [call_getUsageWorker true; worker_message 0 (summary "s1");
           call_terminateUsageWorker true; worker_message 0 (payload "p1");
           worker_exit 0])
  = Some [event_summary "s1"; event_payload "p1"]
  /\ play [call_getUsageWorker true; worker_exit 0;
           worker_message 0 (summary "late")] = None.
Proof. split; reflexivity. Qed.

Lemma getUsageWorker_is_a_singleton_witness :
  fst (getUsageWorker embedded true init) = Returned (Some 0)
  /\ fst (getUsageWorker embedded true
            (snd (getUsageWorker embedded false init)))
     = Returned (Some 0)
  /\ getUsageWorker embedded false started = (Returned (Some 0), started).
Proof.
  destruct (getUsageWorker_is_a_singleton embedded false init)
    as (_ & _ & Hthrow).
  destruct (getUsageWorker_is_a_singleton embedded true init)
    as (_ & Hreturn & _).
  destruct (Hthrow (OtherError "cannot start worker") eq_refl)
    as (_ & _ & _ & _ & Hretry).
  destruct (Hreturn 0 eq_refl) as (_ & Hsame & _).
  split; [reflexivity|]. split; [exact Hretry | exact (Hsame false)].
Defined.

Lemma handle_survives_shutdown_request_witness :
  exists s2,
    run delay embedded
        [tick 50; call_getUsageWorker false; worker_message 0 (summary "s1");
         call_terminateUsageWorker true; worker_exit 0; tick 99]
        (snd (terminateUsageWorker delay true started)) = Some s2
    /\ getUsageWorker embedded false s2 = (Returned (Some 0), s2)
    /\ usageWorkerInstance s2 = Some 0
    /\ workers s2 = 1.
Proof.
  assert (Hrun : exists s2,
            run delay embedded
              [tick 50; call_getUsageWorker false;
               worker_message 0 (summary "s1");
               call_terminateUsageWorker true; worker_exit 0; tick 99]
              (snd (terminateUsageWorker delay true started)) = Some s2)
    by (eexists; vm_compute; reflexivity).
  destruct Hrun as [s2 Hrun]. exists s2. split; [exact Hrun|].
  destruct (handle_survives_shutdown_request delay embedded started 0
              [tick 50; call_getUsageWorker false;
               worker_message 0 (summary "s1");
               call_terminateUsageWorker true; worker_exit 0; tick 99]
              s2 false eq_refl eq_refl Hrun)
    as (Hget & Hi & _ & Hn & _).
  split; [exact Hget|]. split; [exact Hi | exact Hn].
Defined.

Lemma shutdown_completes_after_grace_window_witness :
  exists s3,
    run delay embedded
      [call_terminateUsageWorker true; tick 100; timeout 0 true] started
    = Some s3
    /\ usageWorkerInstance s3 = None
    /\ gone s3 = [0].
Proof.
  destruct (proj1 (shutdown_completes_after_grace_window delay embedded
                     [call_getUsageWorker true] started 0 100
                     eq_refl eq_refl) (le_n 100))
    as (s3 & Hrun & Hnone & _ & _ & Hgone & _).
  exists s3. split; [exact Hrun|]. split; [exact Hnone | exact Hgone].
Defined.

Lemma repeated_shutdown_restarts_grace_window_witness :
  exists s3,
    run delay embedded
      [call_terminateUsageWorker true; tick 30;
       call_terminateUsageWorker true] started = Some s3
    /\ timers s3 = [(1, 130)].
Proof.
  destruct (repeated_shutdown_restarts_grace_window delay embedded
              [call_getUsageWorker true] started 0 30 eq_refl eq_refl)
    as (s3 & Hrun & _ & _ & Htimers & _).
  exists s3. split; [exact Hrun | exact Htimers].
Defined.

Lemma pending_timeout_stops_replacement_witness :
  exists s5,
    run delay embedded
      [call_terminateUsageWorker true; worker_error 0;
       call_getUsageWorker true; tick 100; timeout 0 true] started = Some s5
    /\ usageWorkerInstance s5 = None
    /\ gone s5 = [1; 0].
Proof.
  destruct (pending_timeout_stops_replacement delay embedded
              [call_getUsageWorker true] started 0 eq_refl eq_refl eq_refl)
    as (s5 & Hrun & Hnone & Hgone & _).
  exists s5. split; [exact Hrun|]. split; [exact Hnone | exact Hgone].
Defined.

Lemma shutdownTimerId_tracks_pending_timeout_witness :
  exists d, timers shutting_down = [(0, d)] /\ d <= 100.
Proof.
  destruct (shutdownTimerId_tracks_pending_timeout delay embedded
              [call_getUsageWorker true; call_terminateUsageWorker true]
              shutting_down eq_refl) as (_ & Hset & _).
  destruct (Hset 0 eq_refl) as (d & Htimers & Hdue & _).
  exists d. split; [exact Htimers | exact Hdue].
Defined.

Lemma requestEvents_relays_worker_messages_witness :
  exists s',
    play [call_getUsageWorker true; worker_message 0 (summary "s1");
          call_terminateUsageWorker true; worker_message 0 (payload "p1")]
    = Some s'
    /\ requestEvents s' = [event_summary "s1"; event_payload "p1"].
Proof.
  eexists. split; [reflexivity|].
  exact (requestEvents_relays_worker_messages delay embedded
           [call_getUsageWorker true; worker_message 0 (summary "s1");
            call_terminateUsageWorker true; worker_message 0 (payload "p1")]
           init _ eq_refl).
Defined.

End MoreRuns.
